(** * An in-memory B-Tree index: shallow embedding and verification

    The development follows the three source modules
    [key_value_pair.py], [btree_node.py] and [btree_index.py], as they are
    written:

    - [PyRuntime]   the fragment of the Python runtime the code relies on
                    (exceptions, list indexing, [list.pop], [list.insert],
                    [bisect.bisect_left]);
    - [Construction] the three [__init__] methods, statement by statement;
    - the node operations, the tree controller and the underflow repair;
    - the invariants of the data model as a recursive checker;
    - the theorems.

    Python objects are mutable and shared by reference.  Every node is owned
    by exactly one parent (a strict tree), so a node object is identified by
    its position in the parent's child list: a call on a child object is a
    call on the element at that position of the parent, and the parent sees
    every store the call makes.  An exception unwinds the calls but keeps the
    stores made before it: the outcome of a call that mutates an object is
    the object as the call leaves it together with the returned value or the
    exception. *)

From Stdlib Require Import ZArith List Bool Lia Arith Sorted.
From Stdlib Require String.
Import ListNotations String.StringSyntax.
Abbreviation string := String.string.
Bind Scope string_scope with String.string.
Open Scope string_scope.
Local Open Scope list_scope.
Local Open Scope Z_scope.
Set Warnings "-register-all".

(* ===================================================================== *)
(** ** The Python runtime fragment                                         *)
(* ===================================================================== *)

Module PyRuntime.

(** Exceptions raised by the code or by the runtime under it.
    [OutOfModel] is not a Python exception: it marks an execution the
    embedding does not follow (a loop bound exhausted). *)
Inductive exn : Type :=
| ValueError
| TypeError
| IndexError
| OverflowError
| AttributeError
| RecursionError
| OutOfModel.

Inductive Result (A : Type) : Type :=
| Ok (a : A)
| Raise (e : exn).
Arguments Ok {A} a.
Arguments Raise {A} e.

Definition bind {A B : Type} (m : Result A) (f : A -> Result B) : Result B :=
  match m with
  | Ok a => f a
  | Raise e => Raise e
  end.

Definition is_ok {A : Type} (m : Result A) : bool :=
  match m with Ok _ => true | Raise _ => false end.

Declare Scope py_scope.
Delimit Scope py_scope with py.
Notation "x <- m ;; k" := (bind m (fun x => k))
  (at level 61, m at next level, right associativity) : py_scope.
Notation "' pat <- m ;; k" := (bind m (fun x => match x with pat => k end))
  (at level 61, pat pattern, m at next level, right associativity) : py_scope.
Local Open Scope py_scope.

(** [len(l)] as a Python integer. *)
Definition len {A : Type} (l : list A) : Z := Z.of_nat (length l).

(** Index normalisation of [l[i]] and [l.pop(i)]: a negative index counts
    from the end, anything outside [0, len) after that is an IndexError. *)
Definition py_index {A : Type} (l : list A) (i : Z) : Result nat :=
  let j := if i <? 0 then i + len l else i in
  if (0 <=? j) && (j <? len l) then Ok (Z.to_nat j) else Raise IndexError.

(** [l[i]] *)
Definition py_getitem {A : Type} (l : list A) (i : Z) : Result A :=
  n <- py_index l i ;;
  match nth_error l n with
  | Some x => Ok x
  | None => Raise IndexError
  end.

(** [list.pop] and [list.insert] take their index as a C [Py_ssize_t]; an
    integer that does not fit is refused with OverflowError before the list
    is looked at.  The bounds are those of the 64-bit builds of CPython. *)
Definition fits_ssize (i : Z) : bool := (- 2 ^ 63 <=? i) && (i <? 2 ^ 63).

(** [l.pop(i)]: the removed element and the list left behind. *)
Definition py_pop {A : Type} (l : list A) (i : Z) : Result (A * list A) :=
  if fits_ssize i then
    n <- py_index l i ;;
    match nth_error l n with
    | Some x => Ok (x, firstn n l ++ skipn (S n) l)
    | None => Raise IndexError
    end
  else Raise OverflowError.

(** [l.insert(i, x)]: an index that fits is clamped to [0, len], and the
    call does not fail. *)
Definition py_insert {A : Type} (l : list A) (i : Z) (x : A) : Result (list A) :=
  if fits_ssize i then
    let j := if i <? 0 then Z.max 0 (i + len l) else Z.min i (len l) in
    Ok (firstn (Z.to_nat j) l ++ x :: skipn (Z.to_nat j) l)
  else Raise OverflowError.

(** [l[i] = x], for the store into the element at position [i]. *)
Definition py_setitem {A : Type} (l : list A) (i : Z) (x : A) : Result (list A) :=
  n <- py_index l i ;;
  Ok (firstn n l ++ x :: skipn (S n) l).


(** [bisect.bisect_left(a, x)] of the standard library:
<<
    lo, hi = 0, len(a)
    while lo < hi:
        mid = (lo + hi) // 2
        if a[mid] < x: lo = mid + 1
        else: hi = mid
    return lo
>>
    The loop runs at most [hi - lo] times; [fuel] is that bound. *)
Fixpoint bisect_loop (fuel : nat) (a : list Z) (x : Z) (lo hi : nat) : nat :=
  match fuel with
  | O => lo
  | S fuel' =>
      if (lo <? hi)%nat then
        let mid := ((lo + hi) / 2)%nat in
        if nth mid a 0 <? x
        then bisect_loop fuel' a x (S mid) hi
        else bisect_loop fuel' a x lo mid
      else lo
  end.

Definition bisect_left (a : list Z) (x : Z) : nat :=
  bisect_loop (length a) a x 0%nat (length a).

End PyRuntime.
Import PyRuntime.
Local Open Scope py_scope.

(* ===================================================================== *)
(** ** Data model                                                          *)
(* ===================================================================== *)

(** Keys are totally ordered and never [None]; integers stand for them.
    A value is any Python object, [None] included: [PyNone] is the stored
    [None], which is also what [search], [insert] and [delete] return for
    "absent". *)
Abbreviation K := Z.
Inductive pyval : Type :=
| PyNone
| PyStr (s : string).
Abbreviation V := pyval.

Definition is_not_none (v : V) : bool :=
  match v with PyNone => false | PyStr _ => true end.

(** [KeyValuePair]: slots [_key] (read-only) and [value] (mutable). *)
Record KeyValuePair : Type := mkPair { key : K; value : V }.

(** [BTreeNode]: slots [_min_degree], [_is_leaf], [_key_value_pairs],
    [_children]. *)
Inductive BTreeNode : Type :=
  mkNode { min_degree : Z;
           is_leaf : bool;
           key_value_pairs : list KeyValuePair;
           children : list BTreeNode }.

(** [BTreeIndex]: slots [_min_degree], [_root], [_size]. *)
Record BTreeIndex : Type :=
  mkIndex { index_min_degree : Z; root : BTreeNode; size : Z }.

Definition set_pairs (n : BTreeNode) (kvs : list KeyValuePair) : BTreeNode :=
  mkNode (min_degree n) (is_leaf n) kvs (children n).
Definition set_children (n : BTreeNode) (cs : list BTreeNode) : BTreeNode :=
  mkNode (min_degree n) (is_leaf n) (key_value_pairs n) cs.

(* ===================================================================== *)
(** ** Object construction, as written                                     *)
(* ===================================================================== *)

Module Construction.

(** Arguments of an attribute store. *)
Inductive pyobj : Type :=
| ObjSelf
| ObjNone
| ObjStr (s : string)
| ObjInt (z : Z).

(** The slot wrapper [object.__setattr__].  Its first positional argument
    is the receiver, and it takes exactly two more ([name], [value]);
    any other number of arguments is a TypeError. *)
Definition object_setattr (args : list pyobj) : Result unit :=
  match args with
  | [_receiver; _name; _value] => Ok tt
  | _ => Raise TypeError
  end.

(** [super().__setattr__(name, value)]: the wrapper bound to [self]. *)
Definition super_proxy_setattr (name value : pyobj) : Result unit :=
  object_setattr [ObjSelf; name; value].

(** [super.__setattr__(name, value)]: the attribute is looked up on the
    builtin type [super] itself, which yields the unbound wrapper; the
    call passes the two arguments only, so [name] is taken for the
    receiver and one argument is left ("expected 2 arguments, got 1"). *)
Definition super_type_setattr (name value : pyobj) : Result unit :=
  object_setattr [name; value].

(** [KeyValuePair.__init__(self, key, value)]; [None] as [key] is the
    Python [None]. *)
Definition KeyValuePair_init (key : option K) (value : V) : Result KeyValuePair :=
  match key with
  | None => Raise ValueError
  | Some k =>
      _ <- super_type_setattr (ObjStr "_key") (ObjInt k) ;;
      Ok (mkPair k value)
  end.

(** [BTreeNode.__init__(self, min_degree, is_leaf)] *)
Definition BTreeNode_init (min_degree : Z) (is_leaf : bool) : Result BTreeNode :=
  if min_degree <? 2 then Raise ValueError
  else
    _ <- super_type_setattr (ObjStr "_min_degree") (ObjInt min_degree) ;;
    Ok (mkNode min_degree is_leaf [] []).

(** [BTreeIndex.__init__(self, min_degree)] *)
Definition BTreeIndex_init (min_degree : Z) : Result BTreeIndex :=
  if min_degree <? 2 then Raise ValueError
  else
    _ <- super_proxy_setattr (ObjStr "_min_degree") (ObjInt min_degree) ;;
    root <- BTreeNode_init min_degree true ;;
    Ok (mkIndex min_degree root 0).

End Construction.

(* ===================================================================== *)
(** ** Node operations ([btree_node.py])                                   *)
(* ===================================================================== *)

(** [len(node)] *)
Definition node_len (n : BTreeNode) : Z := len (key_value_pairs n).

Definition keys_of (n : BTreeNode) : list K := map key (key_value_pairs n).

Definition get_key_value_pair (n : BTreeNode) (index : Z) : Result KeyValuePair :=
  py_getitem (key_value_pairs n) index.

Definition get_key (n : BTreeNode) (index : Z) : Result K :=
  kv <- get_key_value_pair n index ;; Ok (key kv).

Definition get_value (n : BTreeNode) (index : Z) : Result V :=
  kv <- get_key_value_pair n index ;; Ok (value kv).

Definition get_child (n : BTreeNode) (index : Z) : Result BTreeNode :=
  py_getitem (children n) index.

Definition is_full (n : BTreeNode) : bool :=
  node_len n >=? 2 * min_degree n - 1.

(** [insert_key_value(key, value)]: the node after the call.  The pair is
    constructed first, by [KeyValuePair(key, value)] as it is written; the
    list is touched only after that, so a call that raises leaves the node
    as it was. *)
Definition insert_key_value (n : BTreeNode) (k : K) (v : V) : Result BTreeNode :=
  new_pair <- Construction.KeyValuePair_init (Some k) v ;;
  let keys := keys_of n in
  let insert_position := Z.of_nat (bisect_left keys k) in
  kvs <- py_insert (key_value_pairs n) insert_position new_pair ;;
  Ok (set_pairs n kvs).

Definition find_key_index (n : BTreeNode) (k : K) : Z :=
  match key_value_pairs n with
  | [] => -1
  | _ =>
      let keys := keys_of n in
      let position := Z.of_nat (bisect_left keys k) in
      if (position <? len keys) && (nth (Z.to_nat position) keys 0 =? k)
      then position
      else - (position + 1)
  end.

Definition get_child_index (n : BTreeNode) (k : K) : Z :=
  let key_index := find_key_index n k in
  if key_index >=? 0 then key_index + 1 else - (key_index + 1).

Definition insert_child (n : BTreeNode) (index : Z) (child : BTreeNode)
  : Result BTreeNode :=
  cs <- py_insert (children n) index child ;;
  Ok (set_children n cs).

(** The removed pair, and the node after the removal. *)
Definition remove_key_value_pair (n : BTreeNode) (index : Z)
  : Result (KeyValuePair * BTreeNode) :=
  '(kv, rest) <- py_pop (key_value_pairs n) index ;;
  Ok (kv, set_pairs n rest).

Definition remove_child (n : BTreeNode) (index : Z)
  : Result (BTreeNode * BTreeNode) :=
  '(child, rest) <- py_pop (children n) index ;;
  Ok (child, set_children n rest).

(** [node.get_key_value_pair(index).value = v] *)
Definition set_value (n : BTreeNode) (index : Z) (v : V) : Result BTreeNode :=
  kv <- get_key_value_pair n index ;;
  kvs <- py_setitem (key_value_pairs n) index (mkPair (key kv) v) ;;
  Ok (set_pairs n kvs).

(** Attribute stores on a node.  The names the development follows: the
    read-only property [min_degree], the property [is_leaf] and the slot
    [_is_leaf] behind it. *)
Inductive attr_name : Type :=
| Attr_min_degree
| Attr_is_leaf
| Attr__is_leaf.

(** [self.<name> = value] on a node, for a boolean [value]:
<<
    def __setattr__(self, name, value):
        if name == "min_degree":
            raise AttributeError(...)
        return super().__setattr__(name, value)
>>
    [object.__setattr__] then gives precedence to a property of the class:
    for [is_leaf] it calls the setter
<<
    @is_leaf.setter
    def is_leaf(self, value):
        self.is_leaf = value
>>
    whose body is again a store on [is_leaf]; for [_is_leaf] it writes the
    slot.  [depth] is the number of nested calls the interpreter allows
    before it raises RecursionError.  The result pairs the object after
    the store with the outcome. *)
Fixpoint node_setattr (depth : nat) (self : BTreeNode) (name : attr_name)
  (value : bool) : BTreeNode * Result unit :=
  match depth with
  | O => (self, Raise RecursionError)
  | S depth' =>
      match name with
      | Attr_min_degree => (self, Raise AttributeError)
      | Attr_is_leaf => node_setattr depth' self Attr_is_leaf value
      | Attr__is_leaf =>
          (mkNode (min_degree self) value (key_value_pairs self) (children self),
           Ok tt)
      end
  end.

(** A call of the [is_leaf] setter from client code: [node.is_leaf = value]. *)
Definition is_leaf_setter (depth : nat) (self : BTreeNode) (value : bool)
  : BTreeNode * Result unit :=
  node_setattr depth self Attr_is_leaf value.


(* ===================================================================== *)
(** ** Calls on mutable objects                                            *)
(* ===================================================================== *)

(** A call that may mutate an object of state [S]: the object as the call
    leaves it, paired with the way the call ends.  The object is part of
    both outcomes, as in [node_setattr]: an exception does not undo the
    stores made before it. *)
Definition Call (S A : Type) : Type := S -> S * Result A.

Definition ret {S A : Type} (a : A) : Call S A := fun s => (s, Ok a).

Definition throw {S A : Type} (e : exn) : Call S A := fun s => (s, Raise e).

Definition and_then {S A B : Type} (m : Call S A) (f : A -> Call S B)
  : Call S B :=
  fun s =>
    match m s with
    | (s', Ok a) => f a s'
    | (s', Raise e) => (s', Raise e)
    end.

Notation "x <~ m ;; k" := (and_then m (fun x => k))
  (at level 61, m at next level, right associativity) : py_scope.
Notation "' pat <~ m ;; k" := (and_then m (fun x => match x with pat => k end))
  (at level 61, pat pattern, m at next level, right associativity) : py_scope.

(** The object the call is made on. *)
Definition this {S : Type} : Call S S := fun s => (s, Ok s).

(** A read of the object: it may raise, it stores nothing. *)
Definition read {S A : Type} (f : S -> Result A) : Call S A :=
  fun s => (s, f s).

(** An expression that does not touch the object, such as the construction
    of another one. *)
Definition expr {S A : Type} (r : Result A) : Call S A := fun s => (s, r).

(** A method that stores only if it returns ([list.pop], [list.insert]
    after their argument checks): the object is replaced by the one the
    method gives, or left alone when it raises. *)
Definition store {S A : Type} (f : S -> Result (A * S)) : Call S A :=
  fun s =>
    match f s with
    | Ok (a, s') => (s', Ok a)
    | Raise e => (s, Raise e)
    end.

Definition store_ {S : Type} (f : S -> Result S) : Call S unit :=
  fun s =>
    match f s with
    | Ok s' => (s', Ok tt)
    | Raise e => (s, Raise e)
    end.

(** [while cond: body], with a bound on the number of rounds. *)
Fixpoint while_do {S : Type} (fuel : nat) (cond : Call S bool)
  (body : Call S unit) : Call S unit :=
  c <~ cond ;;
  if c then
    match fuel with
    | O => throw OutOfModel
    | Datatypes.S fuel' => _ <~ body ;; while_do fuel' cond body
    end
  else ret tt.

(** The same loop when its body also works on a local object [r] that is
    not yet part of [S]. *)
Fixpoint while_with {S R : Type} (fuel : nat) (cond : Call S bool)
  (body : R -> Call S R) (r : R) : Call S R :=
  c <~ cond ;;
  if c then
    match fuel with
    | O => throw OutOfModel
    | Datatypes.S fuel' => r' <~ body r ;; while_with fuel' cond body r'
    end
  else ret r.

(** Calls on the child object [parent.get_child(index)]: the object stays
    in the child list of [parent], which therefore holds it as the calls
    leave it, also when they raise. *)
Definition at_child {A : Type} (index : Z) (m : Call BTreeNode A)
  : Call BTreeNode A :=
  fun parent =>
    match py_index (children parent) index with
    | Raise e => (parent, Raise e)
    | Ok i =>
        match nth_error (children parent) i with
        | None => (parent, Raise IndexError)
        | Some child =>
            let (child', r) := m child in
            (set_children parent
               (firstn i (children parent) ++ child' :: skipn (S i) (children parent)),
             r)
        end
    end.

(** A node of the tree together with the counter [self._size] of the tree,
    for the calls of the controller that store into both. *)
Definition Sized : Type := (BTreeNode * Z)%type.

Definition on_node {A : Type} (m : Call BTreeNode A) : Call Sized A :=
  fun s => let (n', r) := m (fst s) in ((n', snd s), r).

(** [self._size += d] *)
Definition add_to_size (d : Z) : Call Sized unit :=
  fun s => ((fst s, snd s + d), Ok tt).

Definition at_child_sized {A : Type} (index : Z) (m : Call Sized A)
  : Call Sized A :=
  fun s =>
    let parent := fst s in
    match py_index (children parent) index with
    | Raise e => (s, Raise e)
    | Ok i =>
        match nth_error (children parent) i with
        | None => (s, Raise IndexError)
        | Some child =>
            let (s', r) := m (child, snd s) in
            ((set_children parent
                (firstn i (children parent) ++ fst s' :: skipn (S i) (children parent)),
              snd s'),
             r)
        end
    end.

(** Calls on [self._root], with [self._size]. *)
Definition on_root {A : Type} (m : Call Sized A) : Call BTreeIndex A :=
  fun tr =>
    let (s', r) := m (root tr, size tr) in
    (mkIndex (index_min_degree tr) (fst s') (snd s'), r).

(* ===================================================================== *)
(** ** Tree controller ([btree_index.py])                                  *)
(* ===================================================================== *)

(** Number of nodes on the longest path from [n] down to a leaf; it
    bounds every descent below. *)
Fixpoint height (n : BTreeNode) : nat :=
  match n with
  | mkNode _ _ _ cs => S (fold_right (fun c h => Nat.max (height c) h) O cs)
  end.

(** [while cond(s): s = body(s)] for a walk that stores nothing, with a
    bound on the number of rounds. *)
Fixpoint while_ {S : Type} (fuel : nat) (cond : S -> bool)
  (body : S -> Result S) (s : S) : Result S :=
  if cond s then
    match fuel with
    | O => Raise OutOfModel
    | Datatypes.S fuel' => s' <- body s ;; while_ fuel' cond body s'
    end
  else Ok s.

Definition is_empty (tr : BTreeIndex) : bool := size tr =? 0.

Fixpoint search_loop (fuel : nat) (current : BTreeNode) (k : K) : Result V :=
  match fuel with
  | O => Raise OutOfModel
  | S fuel' =>
      let index := find_key_index current k in
      if index >=? 0 then get_value current index
      else if is_leaf current then Ok PyNone
      else
        child <- get_child current (get_child_index current k) ;;
        search_loop fuel' child k
  end.

Definition search (tr : BTreeIndex) (k : K) : Result V :=
  if is_empty tr then Ok PyNone
  else search_loop (height (root tr)) (root tr) k.

(** [key in tree] *)
Definition contains (tr : BTreeIndex) (k : K) : Result bool :=
  v <- search tr k ;; Ok (is_not_none v).

(** *** Splitting *)

(** Steps 1 to 5 of [_split_node(current, parent)], as calls on [current]:
    the median pair and the new right node. *)
Definition split_halves (t : Z) : Call BTreeNode (KeyValuePair * BTreeNode) :=
  let middle_index := t - 1 in
  middle_kv_pair <~
    store (fun current => remove_key_value_pair current middle_index) ;;
  current <~ this ;;
  right_node <~ expr (Construction.BTreeNode_init t (is_leaf current)) ;;
  right_node <~
    while_with (length (key_value_pairs current))
      (current <~ this ;; ret (node_len current >? middle_index))
      (fun right_node =>
         key_value_pair <~
           store (fun current => remove_key_value_pair current middle_index) ;;
         expr (insert_key_value right_node
                 (key key_value_pair) (value key_value_pair)))
      right_node ;;
  current <~ this ;;
  right_node <~
    (if negb (is_leaf current) then
       while_with (length (children current))
         (current <~ this ;; ret (len (children current) >? middle_index + 1))
         (fun right_node =>
            child <~ store (fun current => remove_child current (middle_index + 1)) ;;
            expr (insert_child right_node (len (children right_node)) child))
         right_node
     else ret right_node) ;;
  ret (middle_kv_pair, right_node).

(** [_split_node(current, parent)], as a call on [parent], where [current]
    is the child object of [parent] at [child_index] (so it is at both call
    sites): steps 1 to 5, then step 7. *)
Definition _split_node (t : Z) (child_index : Z) : Call BTreeNode unit :=
  '(middle_kv_pair, right_node) <~ at_child child_index (split_halves t) ;;
  _ <~ store_ (fun parent =>
                 insert_key_value parent (key middle_kv_pair) (value middle_kv_pair)) ;;
  parent <~ this ;;
  let insertion_index := find_key_index parent (key middle_kv_pair) + 1 in
  store_ (fun parent => insert_child parent insertion_index right_node).

(** [_split_node(current, None)], as a call on [current]: steps 1 to 5,
    then step 6, which returns the new root for [self._root].  No caller
    passes [None]. *)
Definition _split_node_no_parent (t : Z) : Call BTreeNode BTreeNode :=
  '(middle_kv_pair, right_node) <~ split_halves t ;;
  split_root <~ expr (Construction.BTreeNode_init t false) ;;
  split_root <~ expr (insert_key_value split_root
                        (key middle_kv_pair) (value middle_kv_pair)) ;;
  current <~ this ;;
  split_root <~ expr (insert_child split_root 0 current) ;;
  expr (insert_child split_root 1 right_node).

(** *** Insertion *)

(** Step 2 of [insert]:
<<
    new_root = BTreeNode(self._min_degree, False)
    new_root.insert_child(0, self._root)
    self._split_node(self._root, new_root)
    self._root = new_root
>>
    Until the last statement [self._root] names the old root, which is the
    child 0 of [new_root]. *)
Definition split_root (t : Z) : Call BTreeIndex unit :=
  new_root <~ expr (Construction.BTreeNode_init t false) ;;
  tr <~ this ;;
  new_root <~ expr (insert_child new_root 0 (root tr)) ;;
  fun tr =>
    match _split_node t 0 new_root with
    | (new_root', Ok _) => (mkIndex (index_min_degree tr) new_root' (size tr), Ok tt)
    | (new_root', Raise e) =>
        (mkIndex (index_min_degree tr)
           (match get_child new_root' 0 with Ok old_root => old_root | Raise _ => root tr end)
           (size tr),
         Raise e)
    end.

(** The descent of [insert] (step 3), as calls on [current] and on
    [self._size]; [current = child] becomes a call on that child. *)
Fixpoint insert_loop (fuel : nat) (t : Z) (k : K) (v : V) : Call Sized V :=
  match fuel with
  | O => throw OutOfModel
  | S fuel' =>
      s <~ this ;;
      let current := fst s in
      let key_index := find_key_index current k in
      if key_index >=? 0 then
        old_value <~ on_node (read (fun current => get_value current key_index)) ;;
        _ <~ on_node (store_ (fun current => set_value current key_index v)) ;;
        ret old_value
      else if is_leaf current then
        _ <~ on_node (store_ (fun current => insert_key_value current k v)) ;;
        _ <~ add_to_size 1 ;;
        ret PyNone
      else
        let child_index := get_child_index current k in
        child <~ on_node (read (fun current => get_child current child_index)) ;;
        child_index <~
          (if is_full child then
             _ <~ on_node (_split_node t child_index) ;;
             s <~ this ;;
             let child_index := get_child_index (fst s) k in
             _ <~ on_node (read (fun current => get_child current child_index)) ;;
             ret child_index
           else ret child_index) ;;
        at_child_sized child_index (insert_loop fuel' t k v)
  end.

Definition insert (k : K) (v : V) : Call BTreeIndex V :=
  tr <~ this ;;
  let t := index_min_degree tr in
  if is_empty tr then
    _ <~ on_root (on_node (store_ (fun root => insert_key_value root k v))) ;;
    _ <~ on_root (add_to_size 1) ;;
    ret PyNone
  else
    _ <~ (if is_full (root tr) then split_root t else ret tt) ;;
    tr <~ this ;;
    on_root (insert_loop (height (root tr)) t k v).

(** *** Underflow repair
    The repairs are calls on [parent]; their parameter [node] is the child
    object of [parent] at [node_index], as at the call sites. *)

(** [_borrow_from_left_sibling(node, parent, node_index)] *)
Definition _borrow_from_left_sibling (node_index : Z) : Call BTreeNode unit :=
  _ <~ read (fun parent => get_child parent (node_index - 1)) ;;
  let separator_index := node_index - 1 in
  separator <~ store (fun parent => remove_key_value_pair parent separator_index) ;;
  borrowed_key <~
    at_child (node_index - 1)
      (store (fun left_sibling =>
                remove_key_value_pair left_sibling (node_len left_sibling - 1))) ;;
  _ <~ store_ (fun parent =>
                 insert_key_value parent (key borrowed_key) (value borrowed_key)) ;;
  _ <~ at_child node_index
         (store_ (fun node => insert_key_value node (key separator) (value separator))) ;;
  node <~ read (fun parent => get_child parent node_index) ;;
  if negb (is_leaf node) then
    removed_child <~
      at_child (node_index - 1)
        (store (fun left_sibling =>
                  remove_child left_sibling (len (children left_sibling) - 1))) ;;
    at_child node_index (store_ (fun node => insert_child node 0 removed_child))
  else ret tt.

(** [_borrow_from_right_sibling(node, parent, node_index)] *)
Definition _borrow_from_right_sibling (node_index : Z) : Call BTreeNode unit :=
  _ <~ read (fun parent => get_child parent (node_index + 1)) ;;
  separator <~ store (fun parent => remove_key_value_pair parent node_index) ;;
  borrowed_key <~
    at_child (node_index + 1)
      (store (fun right_sibling => remove_key_value_pair right_sibling 0)) ;;
  _ <~ store_ (fun parent =>
                 insert_key_value parent (key borrowed_key) (value borrowed_key)) ;;
  _ <~ at_child node_index
         (store_ (fun node => insert_key_value node (key separator) (value separator))) ;;
  node <~ read (fun parent => get_child parent node_index) ;;
  if negb (is_leaf node) then
    removed_child <~
      at_child (node_index + 1)
        (store (fun right_sibling => remove_child right_sibling 0)) ;;
    at_child node_index
      (store_ (fun node => insert_child node (len (children node)) removed_child))
  else ret tt.

Definition _cannot_safely_merge (t : Z) (node1 node2 : BTreeNode) : bool :=
  let total_keys := node_len node1 + 1 + node_len node2 in
  total_keys >? 2 * t - 1.

(** [_merge_with_left_sibling(node, parent, node_index)] *)
Definition _merge_with_left_sibling (t : Z) (node_index : Z) : Call BTreeNode unit :=
  parent <~ this ;;
  if (node_index <=? 0) || (node_index - 1 >=? node_len parent) then ret tt
  else
    left_sibling <~ read (fun parent => get_child parent (node_index - 1)) ;;
    node <~ read (fun parent => get_child parent node_index) ;;
    if _cannot_safely_merge t left_sibling node
       && (node_len left_sibling >? t - 1) then
      _borrow_from_left_sibling node_index
    else
      _ <~ (if node_index - 1 <? node_len parent then
              separator <~
                store (fun parent => remove_key_value_pair parent (node_index - 1)) ;;
              at_child (node_index - 1)
                (store_ (fun left_sibling =>
                           insert_key_value left_sibling (key separator) (value separator)))
            else ret tt) ;;
      _ <~ while_do (length (key_value_pairs node))
             (node <~ read (fun parent => get_child parent node_index) ;;
              ret (node_len node >? 0))
             (removed_key <~
                at_child node_index (store (fun node => remove_key_value_pair node 0)) ;;
              at_child (node_index - 1)
                (store_ (fun left_sibling =>
                           insert_key_value left_sibling
                             (key removed_key) (value removed_key)))) ;;
      _ <~ (if negb (is_leaf node) then
              while_do (length (children node))
                (node <~ read (fun parent => get_child parent node_index) ;;
                 ret (len (children node) >? 0))
                (left_sibling <~ read (fun parent => get_child parent (node_index - 1)) ;;
                 let position := len (children left_sibling) in
                 removed_child <~
                   at_child node_index (store (fun node => remove_child node 0)) ;;
                 at_child (node_index - 1)
                   (store_ (fun left_sibling =>
                              insert_child left_sibling position removed_child)))
            else ret tt) ;;
      parent <~ this ;;
      if node_index <? len (children parent) then
        _ <~ store (fun parent => remove_child parent node_index) ;; ret tt
      else ret tt.

(** [_merge_with_right_sibling(node, parent, node_index)] *)
Definition _merge_with_right_sibling (t : Z) (node_index : Z) : Call BTreeNode unit :=
  parent <~ this ;;
  if (node_index >=? len (children parent) - 1) || (node_index >=? node_len parent)
  then ret tt
  else
    right_sibling <~ read (fun parent => get_child parent (node_index + 1)) ;;
    node <~ read (fun parent => get_child parent node_index) ;;
    if _cannot_safely_merge t node right_sibling
       && (node_len right_sibling >? t - 1) then
      _borrow_from_right_sibling node_index
    else
      _ <~ (if node_index <? node_len parent then
              separator <~
                store (fun parent => remove_key_value_pair parent node_index) ;;
              at_child node_index
                (store_ (fun node =>
                           insert_key_value node (key separator) (value separator)))
            else ret tt) ;;
      _ <~ while_do (length (key_value_pairs right_sibling))
             (right_sibling <~ read (fun parent => get_child parent (node_index + 1)) ;;
              ret (node_len right_sibling >? 0))
             (removed_key <~
                at_child (node_index + 1)
                  (store (fun right_sibling => remove_key_value_pair right_sibling 0)) ;;
              at_child node_index
                (store_ (fun node =>
                           insert_key_value node (key removed_key) (value removed_key)))) ;;
      _ <~ (if negb (is_leaf node) then
              while_do (length (children right_sibling))
                (right_sibling <~ read (fun parent => get_child parent (node_index + 1)) ;;
                 ret (len (children right_sibling) >? 0))
                (node <~ read (fun parent => get_child parent node_index) ;;
                 let position := len (children node) in
                 removed_child <~
                   at_child (node_index + 1)
                     (store (fun right_sibling => remove_child right_sibling 0)) ;;
                 at_child node_index
                   (store_ (fun node => insert_child node position removed_child)))
            else ret tt) ;;
      parent <~ this ;;
      if node_index + 1 <? len (children parent) then
        _ <~ store (fun parent => remove_child parent (node_index + 1)) ;; ret tt
      else ret tt.

(** [_fix_underflow(parent, child_index)] *)
Definition _fix_underflow (t : Z) (child_index : Z) : Call BTreeNode unit :=
  parent <~ this ;;
  if (child_index >=? len (children parent)) || (node_len parent =? 0) then ret tt
  else
    child <~ read (fun parent => get_child parent child_index) ;;
    if node_len child >=? t - 1 then ret tt
    else
      borrow_left <~
        (if child_index >? 0 then
           left_sibling <~ read (fun parent => get_child parent (child_index - 1)) ;;
           ret (node_len left_sibling >? t - 1)
         else ret false) ;;
      if borrow_left then _borrow_from_left_sibling child_index
      else
        borrow_right <~
          (if child_index <? len (children parent) - 1 then
             right_sibling <~ read (fun parent => get_child parent (child_index + 1)) ;;
             ret (node_len right_sibling >? t - 1)
           else ret false) ;;
        if borrow_right then _borrow_from_right_sibling child_index
        else if (child_index >? 0) && (node_len parent >? child_index - 1) then
          _merge_with_left_sibling t child_index
        else if (child_index <? len (children parent) - 1)
                && (node_len parent >? child_index) then
          _merge_with_right_sibling t child_index
        else ret tt.

(** *** Deletion *)

(** [if index < len(current.children): child = current.get_child(index);
    if len(child) < t - 1: self._fix_underflow(current, index)] *)
Definition check_underflow (t : Z) (index : Z) : Call BTreeNode unit :=
  current <~ this ;;
  if index <? len (children current) then
    child <~ read (fun current => get_child current index) ;;
    if node_len child <? t - 1 then _fix_underflow t index else ret tt
  else ret tt.

(** The walks to the successor and predecessor nodes, which store nothing:
    [while not n.is_leaf: if len(n.children) == 0: break; n = n.get_child(..)] *)
Definition leftmost_descent (fuel : nat) (n : BTreeNode) : Result BTreeNode :=
  while_ fuel
    (fun n => negb (is_leaf n) && negb (len (children n) =? 0))
    (fun n => get_child n 0)
    n.

Definition rightmost_descent (fuel : nat) (n : BTreeNode) : Result BTreeNode :=
  while_ fuel
    (fun n => negb (is_leaf n) && negb (len (children n) =? 0))
    (fun n => get_child n (len (children n) - 1))
    n.

(** [_delete_from_node(current, key)], as calls on [current] and on
    [self._size]. *)
Fixpoint _delete_from_node (fuel : nat) (t : Z) (k : K) : Call Sized V :=
  match fuel with
  | O => throw OutOfModel
  | S fuel' =>
      s <~ this ;;
      let current := fst s in
      let key_index := find_key_index current k in
      if key_index >=? 0 then
        if is_leaf current then
          removed <~
            on_node (store (fun current => remove_key_value_pair current key_index)) ;;
          _ <~ add_to_size (-1) ;;
          ret (value removed)
        else
          original_value <~
            on_node (read (fun current => get_value current key_index)) ;;
          successor_node <~
            on_node (read (fun current => get_child current (key_index + 1))) ;;
          successor_node <~ expr (leftmost_descent fuel' successor_node) ;;
          if node_len successor_node >? 0 then
            successor_key <~ expr (get_key successor_node 0) ;;
            successor_value <~ expr (get_value successor_node 0) ;;
            _ <~ on_node
                   (store (fun current => remove_key_value_pair current key_index)) ;;
            _ <~ on_node
                   (store_ (fun current =>
                              insert_key_value current successor_key successor_value)) ;;
            _ <~ at_child_sized (key_index + 1)
                   (_delete_from_node fuel' t successor_key) ;;
            _ <~ on_node (check_underflow t (key_index + 1)) ;;
            ret original_value
          else
            predecessor_node <~
              on_node (read (fun current => get_child current key_index)) ;;
            predecessor_node <~ expr (rightmost_descent fuel' predecessor_node) ;;
            if node_len predecessor_node >? 0 then
              pred_key <~
                expr (get_key predecessor_node (node_len predecessor_node - 1)) ;;
              pred_value <~
                expr (get_value predecessor_node (node_len predecessor_node - 1)) ;;
              _ <~ on_node
                     (store (fun current => remove_key_value_pair current key_index)) ;;
              _ <~ on_node
                     (store_ (fun current =>
                                insert_key_value current pred_key pred_value)) ;;
              _ <~ at_child_sized key_index (_delete_from_node fuel' t pred_key) ;;
              _ <~ on_node (check_underflow t key_index) ;;
              ret original_value
            else
              _ <~ on_node
                     (store (fun current => remove_key_value_pair current key_index)) ;;
              _ <~ add_to_size (-1) ;;
              ret original_value
      else if negb (is_leaf current) then
        let child_index := get_child_index current k in
        result <~ at_child_sized child_index (_delete_from_node fuel' t k) ;;
        _ <~ on_node (check_underflow t child_index) ;;
        ret result
      else ret PyNone
  end.

Definition delete (k : K) : Call BTreeIndex V :=
  tr <~ this ;;
  let t := index_min_degree tr in
  if is_empty tr then ret PyNone
  else
    result <~ on_root (_delete_from_node (height (root tr)) t k) ;;
    tr <~ this ;;
    _ <~ (if (node_len (root tr) =? 0) && negb (is_leaf (root tr)) then
            new_root <~ read (fun tr => get_child (root tr) 0) ;;
            fun tr => (mkIndex (index_min_degree tr) new_root (size tr), Ok tt)
          else ret tt) ;;
    ret result.

(* ===================================================================== *)
(** ** Sequences of public operations                                      *)
(* ===================================================================== *)

Inductive op : Type :=
| Insert (k : K) (v : V)
| Delete (k : K).

Definition apply_op (o : op) : Call BTreeIndex unit :=
  match o with
  | Insert k v => _ <~ insert k v ;; ret tt
  | Delete k => _ <~ delete k ;; ret tt
  end.

Fixpoint run (ops : list op) : Call BTreeIndex unit :=
  match ops with
  | [] => ret tt
  | o :: ops' => _ <~ apply_op o ;; run ops'
  end.

(** The script [tree = BTreeIndex(t)] followed by [ops]: the tree it
    leaves, or the exception that stops it. *)
Definition run_fresh (t : Z) (ops : list op) : Result BTreeIndex :=
  tr <- Construction.BTreeIndex_init t ;;
  match run ops tr with
  | (tr', Ok _) => Ok tr'
  | (_, Raise e) => Raise e
  end.

(** A tree state that some finite sequence of [insert] and [delete] calls
    on a fresh tree produces. *)
Definition reachable (tr : BTreeIndex) : Prop :=
  exists t ops, run_fresh t ops = Ok tr.

(* ===================================================================== *)
(** ** The invariants of the data model, as a recursive checker            *)
(* ===================================================================== *)

Module Invariants.

(** [P] holds of [n] and of every node below it. *)
Fixpoint forall_nodes (P : BTreeNode -> bool) (n : BTreeNode) : bool :=
  match n with
  | mkNode _ _ _ cs => P n && forallb (forall_nodes P) cs
  end.

(** Every key stored in the subtree of [n]. *)
Fixpoint subtree_keys (n : BTreeNode) : list K :=
  match n with
  | mkNode _ _ kvs cs => map key kvs ++ flat_map subtree_keys cs
  end.

Fixpoint strictly_increasing (l : list Z) : bool :=
  match l with
  | x :: ((y :: _) as rest) => (x <? y) && strictly_increasing rest
  | _ => true
  end.

(** 1. Keys within a node are strictly increasing. *)
Definition keys_increasing (n : BTreeNode) : bool :=
  forall_nodes (fun n => strictly_increasing (keys_of n)) n.

(** 2. A non-leaf node has one more child than entries. *)
Definition children_count (n : BTreeNode) : bool :=
  forall_nodes (fun n => is_leaf n || (len (children n) =? node_len n + 1)) n.

(** The keys of the subtree of child [i] lie strictly between the
    separators [k(i-1)] and [k(i)], where these exist. *)
Definition child_between (keys : list K) (i : nat) (c : BTreeNode) : bool :=
  forallb
    (fun k =>
       match i with
       | O => true
       | S j => match nth_error keys j with Some lo => lo <? k | None => true end
       end
       && match nth_error keys i with Some hi => k <? hi | None => true end)
    (subtree_keys c).

Fixpoint children_between (keys : list K) (i : nat) (cs : list BTreeNode) : bool :=
  match cs with
  | [] => true
  | c :: cs' => child_between keys i c && children_between keys (S i) cs'
  end.

(** 3. Separators order the subtrees; no key occurs twice. *)
Definition separator_order (n : BTreeNode) : bool :=
  forall_nodes
    (fun n => is_leaf n || children_between (keys_of n) O (children n)) n.

(** 4. Occupancy: the root holds at most [2t-1] entries, every other node
    between [t-1] and [2t-1]. *)
Definition occupancy (t : Z) (root : BTreeNode) : bool :=
  (node_len root <=? 2 * t - 1)
  && forallb
       (forall_nodes (fun n => (t - 1 <=? node_len n) && (node_len n <=? 2 * t - 1)))
       (children root).

(** Depths of the leaves below [n], [n] being at depth [d]. *)
Fixpoint leaf_depths (d : nat) (n : BTreeNode) : list nat :=
  match n with
  | mkNode _ leaf _ cs =>
      if leaf then [d] else flat_map (leaf_depths (S d)) cs
  end.

(** 5. All leaves are at the same depth. *)
Definition balanced (root : BTreeNode) : bool :=
  match leaf_depths O root with
  | [] => true
  | d :: ds => forallb (Nat.eqb d) ds
  end.

(** 6. [size] is the number of entries reachable from the root. *)
Definition size_exact (tr : BTreeIndex) : bool :=
  size tr =? len (subtree_keys (root tr)).

Definition holds (tr : BTreeIndex) : bool :=
  keys_increasing (root tr)
  && children_count (root tr)
  && separator_order (root tr)
  && occupancy (index_min_degree tr) (root tr)
  && balanced (root tr)
  && size_exact tr.

End Invariants.


(* ===================================================================== *)
(** ** Concrete scripts and tree states of minimum degree 2                *)
(* ===================================================================== *)

Module Examples.

Definition kv (k : K) (s : string) : KeyValuePair := mkPair k (PyStr s).
Definition leaf2 (kvs : list KeyValuePair) : BTreeNode := mkNode 2 true kvs [].
Definition inner2 (kvs : list KeyValuePair) (cs : list BTreeNode) : BTreeNode :=
  mkNode 2 false kvs cs.

(** [insert(1, "a")] then [insert(1, "b")]: an update. *)
Definition ops_update : list op :=
  [Insert 1 (PyStr "a"); Insert 1 (PyStr "b")].

(** Three inserts and a delete. *)
Definition ops_insert_delete : list op :=
  [Insert 1 (PyStr "a"); Insert 2 (PyStr "b"); Insert 3 (PyStr "c"); Delete 2].

(** [insert(1, "a")] then [delete(1)]. *)
Definition ops_delete : list op :=
  [Insert 1 (PyStr "a"); Delete 1].

(** A single [insert(1, "a")]. *)
Definition ops_one_insert : list op :=
  [Insert 1 (PyStr "a")].

(** A two-level tree state holding the keys 1 to 5: the root holds 2, its
    right child [3, 4, 5] is full and 4 is its median. *)
Definition tree_1_to_5 : BTreeIndex :=
  mkIndex 2
    (inner2 [kv 2 "b"]
       [leaf2 [kv 1 "a"]; leaf2 [kv 3 "c"; kv 4 "d"; kv 5 "e"]])
    5.

(** [tree_1_to_5] with the value of key 1 replaced by [None]. *)
Definition tree_1_none : BTreeIndex :=
  mkIndex 2
    (inner2 [kv 2 "b"]
       [leaf2 [mkPair 1 PyNone]; leaf2 [kv 3 "c"; kv 4 "d"; kv 5 "e"]])
    5.

(** A parent whose right leaf has lost its only entry, while the left
    leaf holds the minimum. *)
Definition parent_before_merge : BTreeNode :=
  inner2 [kv 2 "b"] [leaf2 [kv 1 "a"]; leaf2 []].




End Examples.

(* ===================================================================== *)
(** ** What the specification speaks of                                    *)
(* ===================================================================== *)

(** [tree = BTreeIndex(t)], the calls [ops], then [tree.search(k)]. *)
Definition search_after (t : Z) (ops : list op) (k : K) : Result V :=
  tr <- run_fresh t ops ;; search tr k.

(** [tree = BTreeIndex(t)], the calls [ops], then [len(tree)]. *)
Definition size_after (t : Z) (ops : list op) : Result Z :=
  tr <- run_fresh t ops ;; Ok (size tr).

(** The binding a sequence of operations leaves for [k]: the value of the
    last [Insert k _] unless a [Delete k] follows it. *)
Fixpoint last_binding (ops : list op) (k : K) (acc : option V) : option V :=
  match ops with
  | [] => acc
  | Insert k' v :: ops' => last_binding ops' k (if k' =? k then Some v else acc)
  | Delete k' :: ops' => last_binding ops' k (if k' =? k then None else acc)
  end.

(** The four actions of the underflow repair. *)
Inductive RepairAction : Type :=
| BorrowLeft
| BorrowRight
| MergeLeft
| MergeRight.

(** Number of entries of the child of [parent] at position [i], 0 when
    there is no such child. *)
Definition entries_at (parent : BTreeNode) (i : Z) : Z :=
  match get_child parent i with
  | Ok c => node_len c
  | Raise _ => 0
  end.

Definition has_left_sibling (child_index : Z) : bool := 0 <? child_index.

Definition has_right_sibling (parent : BTreeNode) (child_index : Z) : bool :=
  child_index <? len (children parent) - 1.

(** The action the priority order designates for child [child_index] of
    [parent]: borrow left, else borrow right, else merge left, else merge
    right. *)
Definition repair_choice (t : Z) (parent : BTreeNode) (child_index : Z)
  : RepairAction :=
  if has_left_sibling child_index
     && (entries_at parent (child_index - 1) >? t - 1) then BorrowLeft
  else if has_right_sibling parent child_index
          && (entries_at parent (child_index + 1) >? t - 1) then BorrowRight
  else if has_left_sibling child_index then MergeLeft
  else MergeRight.

(** The sibling an action works with, and the parent entry that stands
    between the child and that sibling. *)
Definition sibling_index (a : RepairAction) (child_index : Z) : Z :=
  match a with
  | BorrowLeft | MergeLeft => child_index - 1
  | BorrowRight | MergeRight => child_index + 1
  end.

Definition separator_index (a : RepairAction) (child_index : Z) : Z :=
  match a with
  | BorrowLeft | MergeLeft => child_index - 1
  | BorrowRight | MergeRight => child_index
  end.

(** The list [l] without its item at position [i]. *)
Definition without {A : Type} (i : nat) (l : list A) : list A :=
  firstn i l ++ skipn (S i) l.

(** The node [n] without its entry at position [i]; the node [parent] with
    its child at position [i] replaced by [f] of it. *)
Definition without_entry (i : Z) (n : BTreeNode) : BTreeNode :=
  set_pairs n (without (Z.to_nat i) (key_value_pairs n)).

Definition with_child (i : Z) (f : BTreeNode -> BTreeNode) (parent : BTreeNode)
  : BTreeNode :=
  match nth_error (children parent) (Z.to_nat i) with
  | Some c =>
      set_children parent
        (firstn (Z.to_nat i) (children parent)
           ++ f c :: skipn (S (Z.to_nat i)) (children parent))
  | None => parent
  end.

(** The entries an action takes out of their nodes before it puts any
    back: the separator, and for a borrow also the entry of the sibling
    next to the child (its last for the left sibling, its first for the
    right one).  [taken_out] is the parent with these entries gone, when
    the parent has that separator and that sibling. *)
Definition taken_out (a : RepairAction) (child_index : Z) (parent : BTreeNode)
  : option BTreeNode :=
  let s := sibling_index a child_index in
  let p := separator_index a child_index in
  if (0 <=? p) && (p <? node_len parent)
     && (0 <=? s) && (s <? len (children parent)) then
    Some
      (match a with
       | BorrowLeft =>
           with_child s (fun sib => without_entry (node_len sib - 1) sib)
             (without_entry p parent)
       | BorrowRight =>
           with_child s (without_entry 0) (without_entry p parent)
       | MergeLeft | MergeRight => without_entry p parent
       end)
  else None.

Definition is_merge (a : RepairAction) : bool :=
  match a with
  | MergeLeft | MergeRight => true
  | BorrowLeft | BorrowRight => false
  end.

(** The number of entries a merge of child [child_index] with its sibling
    is to put into one node: those of the sibling, the separator, those of
    the child. *)
Definition merge_total (parent : BTreeNode) (a : RepairAction) (child_index : Z)
  : Z :=
  entries_at parent (sibling_index a child_index) + 1
  + entries_at parent child_index.

(** The two nodes of a merge in the order [_cannot_safely_merge] is given
    them. *)
Definition merge_operands (parent : BTreeNode) (a : RepairAction) (child_index : Z)
  : Result (BTreeNode * BTreeNode) :=
  sibling <- get_child parent (sibling_index a child_index) ;;
  child <- get_child parent child_index ;;
  match a with
  | BorrowLeft | MergeLeft => Ok (sibling, child)
  | BorrowRight | MergeRight => Ok (child, sibling)
  end.

(** Number of keys of [keys] below [k]: the insertion point of [k]. *)
Definition insertion_point (keys : list K) (k : K) : Z :=
  len (filter (fun x => x <? k) keys).

(** [r] splits [a] at [x]: everything left of [r] is below [x], everything
    from [r] on is not.  The invariant of the binary search. *)
Definition splits_at (a : list Z) (x : Z) (r : nat) : Prop :=
  (r <= length a)%nat /\
  (forall i, (i < r)%nat -> nth i a 0 < x) /\
  (forall i, (r <= i < length a)%nat -> x <= nth i a 0).

(* ===================================================================== *)
(** ** Stored pairs and tree shapes                                        *)
(* ===================================================================== *)

(** Every pair stored in the subtree of [n]: the node's own pairs, then
    those of its children in order. *)
Fixpoint subtree_pairs (n : BTreeNode) : list KeyValuePair :=
  match n with
  | mkNode _ _ kvs cs => kvs ++ flat_map subtree_pairs cs
  end.

(** A node flagged as leaf has no children, in the whole subtree. *)
Definition leaves_childless (n : BTreeNode) : bool :=
  Invariants.forall_nodes
    (fun n => negb (is_leaf n) || (len (children n) =? 0)) n.

(** The shape [search] relies on: keys strictly increasing in every node,
    one more child than entries in every non-leaf, separators ordering the
    subtrees, no children under a leaf. *)
Definition searchable (n : BTreeNode) : bool :=
  Invariants.keys_increasing n
  && Invariants.children_count n
  && Invariants.separator_order n
  && leaves_childless n.

(** The lists of [n] and of its children are lists the runtime can hold:
    their lengths fit a machine word, as every list index then does. *)
Definition holdable (n : BTreeNode) : bool :=
  (node_len n <? 2 ^ 63) && (len (children n) <? 2 ^ 63)
  && forallb (fun c => (node_len c <? 2 ^ 63) && (len (children c) <? 2 ^ 63))
       (children n).

(** [overwritten k v old n n']: the descent for [k] from [n] meets no full
    node below [n] and finds [k] bound to [old]; [n'] is [n] with that
    binding's value replaced by [v]. *)
Inductive overwritten (k : K) (v old : V) : BTreeNode -> BTreeNode -> Prop :=
| overwritten_here (n : BTreeNode) (kvs : list KeyValuePair) :
    0 <= find_key_index n k ->
    get_value n (find_key_index n k) = Ok old ->
    py_setitem (key_value_pairs n) (find_key_index n k) (mkPair k v) = Ok kvs ->
    overwritten k v old n (set_pairs n kvs)
| overwritten_below (n : BTreeNode) (i : nat) (child child' : BTreeNode) :
    find_key_index n k < 0 ->
    is_leaf n = false ->
    py_index (children n) (get_child_index n k) = Ok i ->
    nth_error (children n) i = Some child ->
    is_full child = false ->
    overwritten k v old child child' ->
    overwritten k v old n
      (set_children n
         (firstn i (children n) ++ child' :: skipn (S i) (children n))).

(** [taken_from_leaf t k v n n']: the descent for [k] from [n] ends in a
    leaf that binds [k] to [v]; [n'] is [n] with that entry taken out of
    the leaf, and every node on the path below [n] holds at least [t-1]
    entries in [n']. *)
Inductive taken_from_leaf (t : Z) (k : K) (v : V)
  : BTreeNode -> BTreeNode -> Prop :=
| taken_here (n : BTreeNode) :
    0 <= find_key_index n k ->
    fits_ssize (find_key_index n k) = true ->
    is_leaf n = true ->
    get_value n (find_key_index n k) = Ok v ->
    taken_from_leaf t k v n (without_entry (find_key_index n k) n)
| taken_below (n : BTreeNode) (i : nat) (child child' : BTreeNode) :
    find_key_index n k < 0 ->
    is_leaf n = false ->
    py_index (children n) (get_child_index n k) = Ok i ->
    nth_error (children n) i = Some child ->
    taken_from_leaf t k v child child' ->
    t - 1 <= node_len child' ->
    taken_from_leaf t k v n
      (set_children n
         (firstn i (children n) ++ child' :: skipn (S i) (children n))).

(** The node the walk to the successor ends in: down the first children
    from [n] until a leaf, or a node without children. *)
Fixpoint leftmost (n : BTreeNode) : BTreeNode :=
  match n with
  | mkNode _ leaf _ cs =>
      if leaf then n
      else match cs with
           | [] => n
           | c :: _ => leftmost c
           end
  end.

(** [lost_from_inner k v n n']: the descent for [k] from [n] ends in a
    non-leaf node that binds [k] to [v] and whose successor leaf holds an
    entry; [n'] is [n] with the binding of [k] taken out of that node. *)
Inductive lost_from_inner (k : K) (v : V) : BTreeNode -> BTreeNode -> Prop :=
| lost_here (n c : BTreeNode) :
    0 <= find_key_index n k ->
    fits_ssize (find_key_index n k) = true ->
    is_leaf n = false ->
    get_value n (find_key_index n k) = Ok v ->
    get_child n (find_key_index n k + 1) = Ok c ->
    0 < node_len (leftmost c) ->
    lost_from_inner k v n (without_entry (find_key_index n k) n)
| lost_below (n : BTreeNode) (i : nat) (child child' : BTreeNode) :
    find_key_index n k < 0 ->
    is_leaf n = false ->
    py_index (children n) (get_child_index n k) = Ok i ->
    nth_error (children n) i = Some child ->
    lost_from_inner k v child child' ->
    lost_from_inner k v n
      (set_children n
         (firstn i (children n) ++ child' :: skipn (S i) (children n))).

(** [repair_begun t k v n n']: the descent for [k] from [n] ends in a leaf
    that binds [k] to [v]; with the entry taken out, a node on the path
    holds fewer than [t-1] entries, and its parent holds the sibling and
    the separator of the action that the priority order designates.  [n']
    is [n] with the entry of [k] gone and with the entries that action
    takes out gone as well. *)
Inductive repair_begun (t : Z) (k : K) (v : V) : BTreeNode -> BTreeNode -> Prop :=
| repair_here (n : BTreeNode) (i : nat) (child child' shortened after : BTreeNode) :
    find_key_index n k < 0 ->
    is_leaf n = false ->
    py_index (children n) (get_child_index n k) = Ok i ->
    nth_error (children n) i = Some child ->
    taken_from_leaf t k v child child' ->
    node_len child' < t - 1 ->
    shortened
    = set_children n (firstn i (children n) ++ child' :: skipn (S i) (children n)) ->
    holdable shortened = true ->
    taken_out (repair_choice t shortened (get_child_index n k))
      (get_child_index n k) shortened = Some after ->
    repair_begun t k v n after
| repair_above (n : BTreeNode) (i : nat) (child child' : BTreeNode) :
    find_key_index n k < 0 ->
    is_leaf n = false ->
    py_index (children n) (get_child_index n k) = Ok i ->
    nth_error (children n) i = Some child ->
    repair_begun t k v child child' ->
    repair_begun t k v n
      (set_children n
         (firstn i (children n) ++ child' :: skipn (S i) (children n))).
(* ===================================================================== *)
(** ** Facts about the runtime fragment                                    *)
(* ===================================================================== *)

Section RuntimeFacts.

Context {A : Type}.
Implicit Types (l : list A) (i : Z) (x : A).

Lemma len_nonneg l : 0 <= len l.
Proof. unfold len. lia. Qed.

Lemma len_app l1 l2 : len (l1 ++ l2) = len l1 + len l2.
Proof. unfold len. rewrite length_app. lia. Qed.

Lemma len_cons x l : len (x :: l) = len l + 1.
Proof. unfold len. cbn [length]. lia. Qed.

Lemma py_index_in_range l i :
  0 <= i < len l -> py_index l i = Ok (Z.to_nat i).
Proof.
  intros H. unfold py_index.
  destruct (Z.ltb_spec i 0); [lia|].
  destruct (Z.leb_spec 0 i); [|lia].
  destruct (Z.ltb_spec i (len l)); [|lia].
  reflexivity.
Qed.

Lemma py_index_nonneg_inv l i n :
  0 <= i -> py_index l i = Ok n -> i < len l /\ n = Z.to_nat i.
Proof.
  intros Hi. unfold py_index.
  destruct (Z.ltb_spec i 0); [lia|].
  destruct (Z.leb_spec 0 i); [|lia].
  destruct (Z.ltb_spec i (len l)); simpl; intros E; inversion E; auto.
Qed.

Lemma py_index_bound l i n : py_index l i = Ok n -> (n < length l)%nat.
Proof.
  unfold py_index, len.
  destruct (i <? 0);
    match goal with |- context [(0 <=? ?j) && (?j <? ?m)] =>
      destruct (Z.leb_spec 0 j); destruct (Z.ltb_spec j m) end;
    simpl; intros E; inversion E; lia.
Qed.

Lemma py_getitem_in_range l i :
  0 <= i < len l ->
  exists x, py_getitem l i = Ok x /\ nth_error l (Z.to_nat i) = Some x.
Proof.
  intros H. unfold py_getitem. rewrite py_index_in_range by assumption. cbn [bind].
  destruct (nth_error l (Z.to_nat i)) eqn:E; [eauto|].
  apply nth_error_None in E. unfold len in H. lia.
Qed.

Lemma py_getitem_nonneg_inv l i x :
  0 <= i -> py_getitem l i = Ok x ->
  i < len l /\ nth_error l (Z.to_nat i) = Some x.
Proof.
  intros Hi. unfold py_getitem.
  destruct (py_index l i) as [n|] eqn:E; cbn [bind]; [|discriminate].
  destruct (py_index_nonneg_inv _ _ _ Hi E) as [Hlt ->].
  destruct (nth_error l (Z.to_nat i)); intros E'; inversion E'; auto.
Qed.

Lemma py_getitem_In l i x : py_getitem l i = Ok x -> In x l.
Proof.
  unfold py_getitem. destruct (py_index l i) as [n|]; cbn [bind]; [|discriminate].
  destruct (nth_error l n) eqn:E; intros E'; inversion E'; subst.
  eapply nth_error_In; eassumption.
Qed.

Lemma fits_ssize_in_range (i n : Z) :
  - n <= i < n -> n < 2 ^ 63 -> fits_ssize i = true.
Proof.
  intros H Hn. unfold fits_ssize.
  apply andb_true_intro; split; [apply Z.leb_le | apply Z.ltb_lt]; lia.
Qed.

(** A position of the list, when the list is one the runtime can hold. *)
Lemma py_pop_in_range l i :
  0 <= i < len l -> len l < 2 ^ 63 ->
  exists x, py_pop l i
            = Ok (x, firstn (Z.to_nat i) l ++ skipn (S (Z.to_nat i)) l)
            /\ nth_error l (Z.to_nat i) = Some x.
Proof.
  intros H Hfit. unfold py_pop.
  rewrite (fits_ssize_in_range i (len l)) by lia.
  rewrite py_index_in_range by assumption. cbn [bind].
  destruct (nth_error l (Z.to_nat i)) as [x|] eqn:E.
  - exists x. split; reflexivity.
  - apply nth_error_None in E. unfold len in H. lia.
Qed.

Lemma py_index_out_of_range l i :
  ~ (- len l <= i < len l) -> py_index l i = Raise IndexError.
Proof.
  intros H. pose proof (len_nonneg l). unfold py_index.
  destruct (Z.ltb_spec i 0).
  - destruct (Z.leb_spec 0 (i + len l)); [lia|]. reflexivity.
  - destruct (Z.leb_spec 0 i); [|lia].
    destruct (Z.ltb_spec i (len l)); [lia|]. reflexivity.
Qed.

(** Outside the list [pop] raises IndexError when the index fits a
    machine word and OverflowError when it does not. *)
Lemma py_pop_out_of_range l i :
  ~ (- len l <= i < len l) ->
  py_pop l i = Raise (if fits_ssize i then IndexError else OverflowError).
Proof.
  intros H. unfold py_pop. destruct (fits_ssize i); [|reflexivity].
  rewrite py_index_out_of_range by assumption. reflexivity.
Qed.

Lemma py_setitem_in_range l i x :
  0 <= i < len l ->
  py_setitem l i x
  = Ok (firstn (Z.to_nat i) l ++ x :: skipn (S (Z.to_nat i)) l).
Proof.
  intros H. unfold py_setitem. rewrite py_index_in_range by assumption.
  reflexivity.
Qed.

(** Reading back what was written. *)
Lemma nth_error_replaced l n x :
  (n < length l)%nat ->
  nth_error (firstn n l ++ x :: skipn (S n) l) n = Some x.
Proof.
  intros H. rewrite nth_error_app2; rewrite length_firstn; [|lia].
  replace (n - Nat.min n (length l))%nat with O by lia. reflexivity.
Qed.

End RuntimeFacts.

(** *** Binary search *)

Section Bisect.

Variables (a : list Z) (x : Z).

Hypothesis a_sorted :
  forall i j, (i <= j < length a)%nat -> nth i a 0 <= nth j a 0.

Lemma bisect_loop_splits fuel :
  forall lo hi,
    (hi - lo <= fuel)%nat -> (lo <= hi <= length a)%nat ->
    (forall i, (i < lo)%nat -> nth i a 0 < x) ->
    (forall i, (hi <= i < length a)%nat -> x <= nth i a 0) ->
    splits_at a x (bisect_loop fuel a x lo hi).
Proof.
  induction fuel as [|fuel IH]; intros lo hi Hfuel Hrange Hlo Hhi; cbn [bisect_loop].
  - assert (lo = hi) by lia. subst hi. repeat split; [lia| |]; auto.
  - destruct (Nat.ltb_spec lo hi) as [Hlt|Hge].
    + set (mid := ((lo + hi) / 2)%nat).
      assert (Hmid : (lo <= mid < hi)%nat).
      { subst mid. split.
        - apply Nat.div_le_lower_bound; lia.
        - apply Nat.Div0.div_lt_upper_bound; lia. }
      destruct (Z.ltb_spec (nth mid a 0) x) as [Hless|Hnot].
      * apply IH; try lia; auto.
        intros i Hi. specialize (a_sorted i mid). lia.
      * apply IH; try lia; auto.
        intros i Hi. specialize (a_sorted mid i). lia.
    + assert (lo = hi) by lia. subst hi. repeat split; [lia| |]; auto.
Qed.

Lemma bisect_left_splits : splits_at a x (bisect_left a x).
Proof.
  unfold bisect_left. apply bisect_loop_splits; lia.
Qed.

End Bisect.

(** A split point of a list is the number of its elements below [x]. *)
Lemma splits_at_insertion_point (a : list Z) (x : Z) (r : nat) :
  splits_at a x r -> insertion_point a x = Z.of_nat r.
Proof.
  unfold splits_at, insertion_point, len. revert r.
  induction a as [|y a IH]; intros r (Hr & Hlt & Hge).
  - simpl in *. f_equal. lia.
  - destruct r as [|r].
    + assert (Hall : forall z, In z (y :: a) -> x <= z).
      { intros z Hz. apply (In_nth _ _ 0) in Hz. destruct Hz as (i & Hi & <-).
        apply Hge. lia. }
      clear - Hall. f_equal.
      induction (y :: a) as [|z l IHl]; [reflexivity|].
      cbn [filter]. destruct (Z.ltb_spec z x) as [Hc|Hc].
      * specialize (Hall z (or_introl eq_refl)). lia.
      * apply IHl. intros w Hw. apply Hall. right. exact Hw.
    + cbn [filter]. specialize (Hlt O ltac:(lia)) as Hy. cbn [nth] in Hy.
      destruct (Z.ltb_spec y x); [|lia].
      cbn [length]. rewrite Nat2Z.inj_succ, (Nat2Z.inj_succ r). f_equal.
      apply IH. repeat split.
      * simpl in Hr. lia.
      * intros i Hi. apply (Hlt (S i)). lia.
      * intros i Hi. apply (Hge (S i)). simpl. lia.
Qed.

(** Index form of strict sortedness. *)
Lemma StronglySorted_nth_lt (a : list Z) :
  StronglySorted Z.lt a ->
  forall i j, (i < j < length a)%nat -> nth i a 0 < nth j a 0.
Proof.
  induction 1 as [|y a Hs IH Hall]; intros i j Hij; [simpl in Hij; lia|].
  destruct j as [|j]; [lia|]. destruct i as [|i]; cbn [nth].
  - rewrite Forall_forall in Hall. apply Hall. apply nth_In. simpl in Hij. lia.
  - apply IH. simpl in Hij. lia.
Qed.

Lemma StronglySorted_nth_le (a : list Z) :
  StronglySorted Z.lt a ->
  forall i j, (i <= j < length a)%nat -> nth i a 0 <= nth j a 0.
Proof.
  intros Hs i j Hij. destruct (Nat.eq_dec i j) as [->|Hne]; [lia|].
  pose proof (StronglySorted_nth_lt a Hs i j). lia.
Qed.

(** *** Lookup within a node *)

(** The empty-node shortcut of [find_key_index] agrees with its general
    branch. *)
Lemma find_key_index_eq (n : BTreeNode) (k : K) :
  find_key_index n k =
  let r := bisect_left (keys_of n) k in
  if (Z.of_nat r <? len (keys_of n)) && (nth r (keys_of n) 0 =? k)
  then Z.of_nat r else - (Z.of_nat r + 1).
Proof.
  unfold find_key_index, keys_of. rewrite Nat2Z.id.
  destruct (key_value_pairs n) as [|p kvs]; reflexivity.
Qed.

Lemma find_key_index_present (n : BTreeNode) (k : K) (i : nat) :
  StronglySorted Z.lt (keys_of n) ->
  nth_error (keys_of n) i = Some k ->
  find_key_index n k = Z.of_nat i.
Proof.
  intros Hs Hi. rewrite find_key_index_eq. cbv zeta.
  pose proof (bisect_left_splits (keys_of n) k (StronglySorted_nth_le _ Hs))
    as (Hr & Hlt & Hge).
  set (r := bisect_left (keys_of n) k) in *.
  assert (Hlen : (i < length (keys_of n))%nat).
  { apply nth_error_Some. rewrite Hi. discriminate. }
  assert (Hnth : nth i (keys_of n) 0 = k) by (apply nth_error_nth; exact Hi).
  assert (r = i) as ->.
  { destruct (Nat.lt_trichotomy r i) as [Hc|[Hc|Hc]]; [|exact Hc|].
    - assert (nth r (keys_of n) 0 < nth i (keys_of n) 0)
        by (apply StronglySorted_nth_lt; [exact Hs|lia]).
      assert (k <= nth r (keys_of n) 0) by (apply Hge; lia).
      lia.
    - specialize (Hlt i Hc). lia. }
  unfold len. destruct (Z.ltb_spec (Z.of_nat i) (Z.of_nat (length (keys_of n)))); [|lia].
  rewrite Hnth, Z.eqb_refl. reflexivity.
Qed.

Lemma find_key_index_absent (n : BTreeNode) (k : K) :
  StronglySorted Z.lt (keys_of n) ->
  ~ In k (keys_of n) ->
  find_key_index n k = - (insertion_point (keys_of n) k + 1).
Proof.
  intros Hs Hout. rewrite find_key_index_eq. cbv zeta.
  pose proof (bisect_left_splits (keys_of n) k (StronglySorted_nth_le _ Hs)) as Hsp.
  rewrite (splits_at_insertion_point _ _ _ Hsp).
  set (r := bisect_left (keys_of n) k) in *.
  unfold len. destruct (Z.ltb_spec (Z.of_nat r) (Z.of_nat (length (keys_of n)))) as [Hin|]; [|reflexivity].
  destruct (Z.eqb_spec (nth r (keys_of n) 0) k) as [Heq|]; [|reflexivity].
  exfalso. apply Hout. rewrite <- Heq. apply nth_In. lia.
Qed.

Lemma insertion_point_nonneg (keys : list K) (k : K) : 0 <= insertion_point keys k.
Proof. apply len_nonneg. Qed.

(** C5.  In a node whose keys are strictly increasing, [find_key_index]
    returns the index of [k] when [k] is stored there and
    [-(insertion_point + 1)] otherwise, the insertion point being the
    number of stored keys below [k] (so [-1] on an empty node);
    [get_child_index] returns the index after the match in the first
    case and the insertion point in the second. *)
Theorem find_key_index_of_sorted_node (n : BTreeNode) (k : K) :
  StronglySorted Z.lt (keys_of n) ->
  (forall i, nth_error (keys_of n) i = Some k ->
     find_key_index n k = Z.of_nat i /\
     get_child_index n k = Z.of_nat i + 1) /\
  (~ In k (keys_of n) ->
     find_key_index n k = - (insertion_point (keys_of n) k + 1) /\
     get_child_index n k = insertion_point (keys_of n) k) /\
  (key_value_pairs n = [] -> find_key_index n k = -1).
Proof.
  intros Hs. repeat split.
  - apply find_key_index_present; assumption.
  - unfold get_child_index.
    rewrite (find_key_index_present n k i Hs H).
    destruct (Z.geb_spec (Z.of_nat i) 0); [reflexivity|lia].
  - apply find_key_index_absent; assumption.
  - unfold get_child_index. rewrite (find_key_index_absent n k Hs H).
    pose proof (insertion_point_nonneg (keys_of n) k).
    destruct (Z.geb_spec (- (insertion_point (keys_of n) k + 1)) 0); lia.
  - intros Hnil. unfold find_key_index. rewrite Hnil. reflexivity.
Qed.

Lemma find_key_index_of_sorted_node_witness :
  let n := Examples.leaf2 [Examples.kv 10 "a"; Examples.kv 20 "b"; Examples.kv 30 "c"] in
  StronglySorted Z.lt (keys_of n) /\
  (find_key_index n 20 = 1 /\ get_child_index n 20 = 2) /\
  (find_key_index n 25 = -3 /\ get_child_index n 25 = 2).
Proof.
  intros n.
  assert (Hs : StronglySorted Z.lt (keys_of n)).
  { repeat constructor. }
  split; [exact Hs|].
  destruct (find_key_index_of_sorted_node n 20 Hs) as (Hin & _ & _).
  destruct (find_key_index_of_sorted_node n 25 Hs) as (_ & Hout & _).
  split.
  - exact (Hin 1%nat eq_refl).
  - apply Hout. cbn. intros [H|[H|[H|[]]]]; discriminate H.
Defined.

(** *** The [is_leaf] setter *)

(** The store that [__init__] performs, [self._is_leaf = value], writes the
    flag. *)
Lemma slot_store_writes_flag (depth : nat) (self : BTreeNode) (value : bool) :
  let '(self', outcome) := node_setattr (S depth) self Attr__is_leaf value in
  outcome = Ok tt /\ is_leaf self' = value.
Proof. split; reflexivity. Qed.

(** C9.  For every node and every boolean, a call of the [is_leaf] setter
    only calls itself again: whatever the recursion limit, it ends in
    RecursionError, never returns normally, and leaves the node, its
    stored flag included, as it was. *)
Theorem is_leaf_setter_never_returns (depth : nat) (self : BTreeNode) (value : bool) :
  is_leaf_setter depth self value = (self, Raise RecursionError).
Proof.
  unfold is_leaf_setter.
  induction depth as [|depth IH]; [reflexivity|exact IH].
Qed.

(** *** Construction *)

Import Construction.

Lemma KeyValuePair_init_outcome (key : option K) (value : V) :
  KeyValuePair_init key value
  = Raise (match key with None => ValueError | Some _ => TypeError end).
Proof. destruct key; reflexivity. Qed.

Lemma BTreeNode_init_outcome (min_degree : Z) (leaf : bool) :
  BTreeNode_init min_degree leaf
  = Raise (if min_degree <? 2 then ValueError else TypeError).
Proof. unfold BTreeNode_init. destruct (min_degree <? 2); reflexivity. Qed.

Lemma BTreeIndex_init_outcome (min_degree : Z) :
  BTreeIndex_init min_degree
  = Raise (if min_degree <? 2 then ValueError else TypeError).
Proof.
  unfold BTreeIndex_init. destruct (min_degree <? 2) eqn:E; [reflexivity|].
  cbn [super_proxy_setattr object_setattr bind].
  rewrite BTreeNode_init_outcome, E. reflexivity.
Qed.

(** C8, at a failing input.  [KeyValuePair(1, "a")], [BTreeNode(2, True)]
    and [BTreeIndex(2)] are well-formed calls (a key that is not [None], a
    minimum degree of 2), yet none of them returns an object: each raises
    TypeError from the attribute store [super.__setattr__(name, value)]. *)
Theorem construction_of_valid_arguments_raises :
  KeyValuePair_init (Some 1) (PyStr "a") = Raise TypeError /\
  BTreeNode_init 2 true = Raise TypeError /\
  BTreeIndex_init 2 = Raise TypeError.
Proof. repeat split. Qed.


Import Examples.

Lemma node_len_nonneg (n : BTreeNode) : 0 <= node_len n.
Proof. apply len_nonneg. Qed.

(* ===================================================================== *)
(** ** Trees as nested lists: induction, stored pairs, height              *)
(* ===================================================================== *)

(** Induction over a node and, through the child list, over its subtrees. *)
Lemma BTreeNode_nested_ind (P : BTreeNode -> Prop) :
  (forall t leaf kvs cs, Forall P cs -> P (mkNode t leaf kvs cs)) ->
  forall n, P n.
Proof.
  intros H. fix IH 1. intros [t leaf kvs cs]. apply H.
  induction cs as [|c cs IHcs]; constructor; [apply IH|exact IHcs].
Qed.

Lemma subtree_pairs_eq (n : BTreeNode) :
  subtree_pairs n = key_value_pairs n ++ flat_map subtree_pairs (children n).
Proof. destruct n; reflexivity. Qed.

Lemma subtree_keys_eq (n : BTreeNode) :
  Invariants.subtree_keys n
  = keys_of n ++ flat_map Invariants.subtree_keys (children n).
Proof. destruct n; reflexivity. Qed.

Lemma subtree_keys_of_pairs (n : BTreeNode) :
  Invariants.subtree_keys n = map key (subtree_pairs n).
Proof.
  induction n as [t leaf kvs cs IH] using BTreeNode_nested_ind.
  cbn [Invariants.subtree_keys subtree_pairs]. rewrite map_app. f_equal.
  induction IH as [|c cs Hc _ IHcs]; [reflexivity|].
  cbn [flat_map]. rewrite map_app, Hc, IHcs. reflexivity.
Qed.

Lemma forall_nodes_eq (P : BTreeNode -> bool) (n : BTreeNode) :
  Invariants.forall_nodes P n
  = P n && forallb (Invariants.forall_nodes P) (children n).
Proof. destruct n; reflexivity. Qed.

Lemma forall_nodes_child (P : BTreeNode -> bool) (n c : BTreeNode) :
  Invariants.forall_nodes P n = true -> In c (children n) ->
  Invariants.forall_nodes P c = true.
Proof.
  rewrite forall_nodes_eq. intros H Hc. apply andb_prop in H. destruct H as [_ H].
  rewrite forallb_forall in H. apply H. exact Hc.
Qed.

Lemma forall_nodes_here (P : BTreeNode -> bool) (n : BTreeNode) :
  Invariants.forall_nodes P n = true -> P n = true.
Proof. rewrite forall_nodes_eq. intros H. apply andb_prop in H. tauto. Qed.

Lemma height_eq (n : BTreeNode) :
  height n = S (fold_right (fun c h => Nat.max (height c) h) O (children n)).
Proof. destruct n; reflexivity. Qed.

Lemma height_child (n c : BTreeNode) :
  In c (children n) -> (height c < height n)%nat.
Proof.
  rewrite (height_eq n). generalize (children n). intros cs.
  induction cs as [|d cs IH]; intros Hc; [destruct Hc|].
  cbn [fold_right]. destruct Hc as [->|Hc]; [lia|]. specialize (IH Hc). lia.
Qed.

Lemma height_pos (n : BTreeNode) : (0 < height n)%nat.
Proof. rewrite height_eq. lia. Qed.

Lemma in_subtree_pairs_child (n c : BTreeNode) (p : KeyValuePair) :
  In c (children n) -> In p (subtree_pairs c) -> In p (subtree_pairs n).
Proof.
  intros Hc Hp. rewrite subtree_pairs_eq. apply in_or_app. right.
  apply in_flat_map. eauto.
Qed.

(** *** What a successful lookup in a node tells *)

Lemma find_key_index_hit (n : BTreeNode) (k : K) :
  0 <= find_key_index n k ->
  exists p,
    nth_error (key_value_pairs n) (Z.to_nat (find_key_index n k)) = Some p /\
    key p = k /\ find_key_index n k < node_len n.
Proof.
  rewrite find_key_index_eq. cbv zeta.
  set (r := bisect_left (keys_of n) k).
  destruct (Z.ltb_spec (Z.of_nat r) (len (keys_of n))) as [Hlt|]; cbn [andb];
    [|lia].
  destruct (Z.eqb_spec (nth r (keys_of n) 0) k) as [Heq|]; [|lia].
  intros _. rewrite Nat2Z.id.
  unfold keys_of, len in Hlt. rewrite length_map in Hlt.
  destruct (nth_error (key_value_pairs n) r) as [p|] eqn:Hp.
  - exists p. split; [reflexivity|]. split.
    + unfold keys_of in Heq.
      rewrite (nth_error_nth _ _ _ (map_nth_error key _ _ Hp)) in Heq. exact Heq.
    + unfold node_len, len. lia.
  - apply nth_error_None in Hp. lia.
Qed.

Lemma get_value_hit (n : BTreeNode) (k : K) :
  0 <= find_key_index n k ->
  exists v, get_value n (find_key_index n k) = Ok v /\
            In (mkPair k v) (key_value_pairs n).
Proof.
  intros H. destruct (find_key_index_hit n k H) as (p & Hp & Hk & Hlt).
  exists (value p). unfold get_value, get_key_value_pair.
  destruct (py_getitem_in_range (key_value_pairs n) (find_key_index n k))
    as (q & -> & Hq); [unfold node_len in Hlt; lia|].
  rewrite Hp in Hq. injection Hq as <-. cbn [bind]. split; [reflexivity|].
  apply nth_error_In in Hp. destruct p as [pk pv]. cbn in Hk. subst pk. exact Hp.
Qed.

Lemma py_getitem_raise {A : Type} (l : list A) (i : Z) (e : exn) :
  py_getitem l i = Raise e -> e = IndexError.
Proof.
  unfold py_getitem, py_index.
  destruct ((0 <=? (if i <? 0 then i + len l else i))
            && ((if i <? 0 then i + len l else i) <? len l)); cbn [bind].
  - destruct (nth_error l _); [discriminate|]. intros [= <-]. reflexivity.
  - intros [= <-]. reflexivity.
Qed.

(** *** [search] on any tree *)

Lemma search_loop_outcome (fuel : nat) :
  forall (n : BTreeNode) (k : K),
    (height n <= fuel)%nat ->
    search_loop fuel n k = Raise IndexError \/
    search_loop fuel n k = Ok PyNone \/
    exists v, search_loop fuel n k = Ok v /\ In (mkPair k v) (subtree_pairs n).
Proof.
  induction fuel as [|fuel IH]; intros n k Hh.
  - pose proof (height_pos n). lia.
  - cbn [search_loop].
    destruct (Z.geb_spec (find_key_index n k) 0) as [Hhit|Hmiss].
    + destruct (get_value_hit n k Hhit) as (v & -> & Hin).
      right. right. exists v. split; [reflexivity|].
      rewrite subtree_pairs_eq. apply in_or_app. left. exact Hin.
    + destruct (is_leaf n); [auto|].
      destruct (get_child n (get_child_index n k)) as [c|e] eqn:Hc; cbn [bind].
      * assert (Hin : In c (children n)) by (eapply py_getitem_In; exact Hc).
        pose proof (height_child n c Hin) as Hlt.
        destruct (IH c k ltac:(lia)) as [H|[H|(v & H & Hv)]]; rewrite H; auto.
        right. right. exists v. split; [reflexivity|].
        eapply in_subtree_pairs_child; eassumption.
      * left. f_equal. eapply py_getitem_raise. exact Hc.
Qed.

(** X1.  On any tree, well-formed or not, [search(k)] ends within the
    height of the tree, and in one of three ways: IndexError (a node
    without the child the descent asks for), [None], or a value [v] such
    that the pair [(k, v)] is stored in the tree.  It never returns a value
    that is not stored under [k]. *)
Theorem search_returns_only_stored_values (tr : BTreeIndex) (k : K) :
  search tr k = Raise IndexError \/
  search tr k = Ok PyNone \/
  exists v, search tr k = Ok v /\ In (mkPair k v) (subtree_pairs (root tr)).
Proof.
  unfold search. destruct (is_empty tr); [auto|].
  apply search_loop_outcome. lia.
Qed.

(** *** [search] on a well-shaped tree *)

Lemma strictly_increasing_sorted (l : list Z) :
  Invariants.strictly_increasing l = true -> StronglySorted Z.lt l.
Proof.
  intros H. apply Sorted_StronglySorted; [intros x y z; apply Z.lt_trans|].
  induction l as [|x l IH]; [constructor|].
  destruct l as [|y l]; [repeat constructor|].
  cbn [Invariants.strictly_increasing] in H. apply andb_prop in H.
  destruct H as [Hxy Hrest]. constructor; [apply IH; exact Hrest|].
  constructor. apply Z.ltb_lt. exact Hxy.
Qed.

Lemma sorted_keys_unique (l : list KeyValuePair) (p q : KeyValuePair) :
  StronglySorted Z.lt (map key l) ->
  In p l -> In q l -> key p = key q -> p = q.
Proof.
  induction l as [|x l IH]; intros Hs Hp Hq Hk; [destruct Hp|].
  cbn [map] in Hs. apply StronglySorted_inv in Hs. destruct Hs as [Hs Hall].
  rewrite Forall_forall in Hall.
  destruct Hp as [->|Hp]; destruct Hq as [->|Hq]; auto.
  - specialize (Hall (key q) (in_map key _ _ Hq)). lia.
  - specialize (Hall (key p) (in_map key _ _ Hp)). lia.
Qed.

Lemma children_between_nth (keys : list K) (cs : list BTreeNode) :
  forall i j c,
    Invariants.children_between keys i cs = true ->
    nth_error cs j = Some c ->
    Invariants.child_between keys (i + j) c = true.
Proof.
  induction cs as [|d cs IH]; intros i j c H Hj; [destruct j; discriminate|].
  cbn [Invariants.children_between] in H. apply andb_prop in H. destruct H as [Hd Hcs].
  destruct j as [|j]; cbn [nth_error] in Hj.
  - injection Hj as <-. rewrite Nat.add_0_r. exact Hd.
  - replace (i + S j)%nat with (S i + j)%nat by lia. apply IH; assumption.
Qed.

(** The keys under child [j] lie between the separators around it. *)
Lemma child_between_bounds (keys : list K) (j : nat) (c : BTreeNode) (k : K) :
  Invariants.child_between keys j c = true ->
  In k (Invariants.subtree_keys c) ->
  (forall i lo, j = S i -> nth_error keys i = Some lo -> lo < k) /\
  (forall hi, nth_error keys j = Some hi -> k < hi).
Proof.
  unfold Invariants.child_between. rewrite forallb_forall. intros H Hk.
  specialize (H k Hk). apply andb_prop in H. destruct H as [Hlo Hhi]. split.
  - intros i lo -> Hi. rewrite Hi in Hlo. apply Z.ltb_lt. exact Hlo.
  - intros hi Hj. rewrite Hj in Hhi. apply Z.ltb_lt. exact Hhi.
Qed.

(** A key found under child [j] is no separator, and [j] is its insertion
    point among the separators. *)
Lemma key_under_child (keys : list K) (cs : list BTreeNode) (j : nat)
  (c : BTreeNode) (k : K) :
  StronglySorted Z.lt keys ->
  Invariants.children_between keys O cs = true ->
  len cs = len keys + 1 ->
  nth_error cs j = Some c ->
  In k (Invariants.subtree_keys c) ->
  ~ In k keys /\ insertion_point keys k = Z.of_nat j.
Proof.
  intros Hs Hbetween Hcount Hj Hk.
  pose proof (children_between_nth keys cs O j c Hbetween Hj) as Hc.
  cbn [Nat.add] in Hc.
  destruct (child_between_bounds keys j c k Hc Hk) as [Hlo Hhi].
  assert (Hjlen : (j <= length keys)%nat).
  { assert (j < length cs)%nat by (apply nth_error_Some; rewrite Hj; discriminate).
    unfold len in Hcount. lia. }
  assert (Hbelow : forall i, (i < j)%nat -> nth i keys 0 < k).
  { intros i Hi. destruct j as [|j']; [lia|].
    assert (Hj' : (j' < length keys)%nat) by lia.
    specialize (Hlo j' (nth j' keys 0) eq_refl (nth_error_nth' keys 0 Hj')).
    pose proof (StronglySorted_nth_le keys Hs i j' ltac:(lia)). lia. }
  assert (Habove : forall i, (j <= i < length keys)%nat -> k < nth i keys 0).
  { intros i Hi.
    assert (Hj' : (j < length keys)%nat) by lia.
    specialize (Hhi (nth j keys 0) (nth_error_nth' keys 0 Hj')).
    pose proof (StronglySorted_nth_le keys Hs j i ltac:(lia)). lia. }
  split.
  - intros Hin. apply (In_nth _ _ 0) in Hin. destruct Hin as (i & Hi & Heq).
    destruct (Nat.lt_ge_cases i j) as [Hlt|Hge].
    + specialize (Hbelow i Hlt). lia.
    + specialize (Habove i ltac:(lia)). lia.
  - apply splits_at_insertion_point. repeat split; [exact Hjlen|exact Hbelow|].
    intros i Hi. specialize (Habove i Hi). lia.
Qed.

Lemma searchable_parts (n : BTreeNode) :
  searchable n = true ->
  StronglySorted Z.lt (keys_of n) /\
  (is_leaf n = true -> children n = []) /\
  (is_leaf n = false ->
     len (children n) = node_len n + 1 /\
     Invariants.children_between (keys_of n) O (children n) = true) /\
  (forall c, In c (children n) -> searchable c = true).
Proof.
  unfold searchable, Invariants.keys_increasing, Invariants.children_count,
    Invariants.separator_order, leaves_childless.
  intros H. repeat (apply andb_prop in H; destruct H as [H ?]).
  repeat split.
  - apply strictly_increasing_sorted. apply (forall_nodes_here _ _ H).
  - intros Hleaf. pose proof (forall_nodes_here _ _ H0) as Hc. cbv beta in Hc.
    rewrite Hleaf in Hc. cbn [negb orb] in Hc. apply Z.eqb_eq in Hc.
    destruct (children n); [reflexivity|]. rewrite len_cons in Hc.
    pose proof (len_nonneg l). lia.
  - pose proof (forall_nodes_here _ _ H2) as Hc. cbv beta in Hc.
    rewrite H3 in Hc. cbn [orb] in Hc. apply Z.eqb_eq in Hc. exact Hc.
  - pose proof (forall_nodes_here _ _ H1) as Hc. cbv beta in Hc.
    rewrite H3 in Hc. cbn [orb] in Hc. exact Hc.
  - intros c Hc.
    rewrite (forall_nodes_child _ _ _ H Hc), (forall_nodes_child _ _ _ H2 Hc),
      (forall_nodes_child _ _ _ H1 Hc), (forall_nodes_child _ _ _ H0 Hc).
    reflexivity.
Qed.

Lemma find_key_index_miss (n : BTreeNode) (k : K) :
  StronglySorted Z.lt (keys_of n) ->
  find_key_index n k < 0 -> ~ In k (keys_of n).
Proof.
  intros Hs Hmiss Hin. apply In_nth_error in Hin. destruct Hin as (i & Hi).
  rewrite (find_key_index_present n k i Hs Hi) in Hmiss. lia.
Qed.

Lemma get_child_index_absent (n : BTreeNode) (k : K) :
  StronglySorted Z.lt (keys_of n) ->
  ~ In k (keys_of n) ->
  get_child_index n k = insertion_point (keys_of n) k.
Proof.
  intros Hs Hout. unfold get_child_index.
  rewrite (find_key_index_absent n k Hs Hout).
  pose proof (insertion_point_nonneg (keys_of n) k).
  destruct (Z.geb_spec (- (insertion_point (keys_of n) k + 1)) 0); lia.
Qed.

Lemma search_loop_complete (fuel : nat) :
  forall (n : BTreeNode) (k : K),
    (height n <= fuel)%nat ->
    searchable n = true ->
    (forall v, In (mkPair k v) (subtree_pairs n) -> search_loop fuel n k = Ok v) /\
    (~ In k (Invariants.subtree_keys n) -> search_loop fuel n k = Ok PyNone).
Proof.
  induction fuel as [|fuel IH]; intros n k Hh Hshape.
  { pose proof (height_pos n). lia. }
  destruct (searchable_parts n Hshape) as (Hs & Hleafless & Hinner & Hsub).
  cbn [search_loop].
  destruct (Z.geb_spec (find_key_index n k) 0) as [Hhit|Hmiss].
  - (* the key is in this node *)
    destruct (get_value_hit n k Hhit) as (v0 & -> & Hin0). split.
    + intros v Hv. f_equal. rewrite subtree_pairs_eq in Hv.
      apply in_app_or in Hv. destruct Hv as [Hv|Hv].
      * pose proof (sorted_keys_unique _ _ _ Hs Hin0 Hv eq_refl) as E.
        injection E as ->. reflexivity.
      * exfalso. apply in_flat_map in Hv. destruct Hv as (c & Hc & Hv).
        destruct (is_leaf n) eqn:Hleaf.
        { rewrite (Hleafless eq_refl) in Hc. destruct Hc. }
        destruct (Hinner eq_refl) as [Hcount Hbetween].
        apply In_nth_error in Hc. destruct Hc as (j & Hj).
        destruct (key_under_child (keys_of n) (children n) j c k) as [Hout _];
          auto.
        -- unfold node_len, keys_of, len in *. rewrite length_map. exact Hcount.
        -- rewrite subtree_keys_of_pairs. apply (in_map key _ _ Hv).
        -- apply Hout. apply (in_map key _ _ Hin0).
    + intros Hout. exfalso. apply Hout. rewrite subtree_keys_eq.
      apply in_or_app. left. apply (in_map key _ _ Hin0).
  - (* the key is not in this node *)
    pose proof (find_key_index_miss n k Hs Hmiss) as Hnot.
    destruct (is_leaf n) eqn:Hleaf.
    + split; [|reflexivity]. intros v Hv. exfalso.
      rewrite subtree_pairs_eq, (Hleafless eq_refl) in Hv. cbn [flat_map] in Hv.
      rewrite app_nil_r in Hv. apply Hnot. apply (in_map key _ _ Hv).
    + destruct (Hinner eq_refl) as [Hcount Hbetween].
      rewrite (get_child_index_absent n k Hs Hnot).
      pose proof (insertion_point_nonneg (keys_of n) k) as Hip0.
      assert (Hip : insertion_point (keys_of n) k <= node_len n).
      { unfold insertion_point, node_len, len.
        pose proof (filter_length_le (fun x => x <? k) (keys_of n)) as Hf.
        unfold keys_of in *. rewrite length_map in Hf. lia. }
      destruct (py_getitem_in_range (children n) (insertion_point (keys_of n) k))
        as (c & Hc & Hnth); [lia|].
      unfold get_child. rewrite Hc. cbn [bind].
      assert (Hcin : In c (children n)) by (eapply nth_error_In; exact Hnth).
      pose proof (height_child n c Hcin) as Hlt.
      destruct (IH c k ltac:(lia) (Hsub c Hcin)) as [IHin IHout]. split.
      * intros v Hv. apply IHin.
        rewrite subtree_pairs_eq in Hv. apply in_app_or in Hv.
        destruct Hv as [Hv|Hv]; [exfalso; apply Hnot; apply (in_map key _ _ Hv)|].
        apply in_flat_map in Hv. destruct Hv as (d & Hd & Hv).
        apply In_nth_error in Hd. destruct Hd as (j & Hj).
        destruct (key_under_child (keys_of n) (children n) j d k) as [_ Hpos];
          auto.
        -- unfold node_len, keys_of, len in *. rewrite length_map. exact Hcount.
        -- rewrite subtree_keys_of_pairs. apply (in_map key _ _ Hv).
        -- rewrite Hpos, Nat2Z.id in Hnth. rewrite Hj in Hnth.
           injection Hnth as <-. exact Hv.
      * intros Hout. apply IHout. intros Hk. apply Hout.
        rewrite subtree_keys_eq. apply in_or_app. right.
        apply in_flat_map. eauto.
Qed.

(** X2.  On a tree of the shape [search] relies on (sorted nodes, ordered
    separators, one more child than entries, childless leaves) whose
    [size] counts its entries, [search(k)] returns the value stored under
    [k] if there is one and [None] if [k] is stored nowhere; it never
    raises. *)
Theorem search_finds_what_is_stored (tr : BTreeIndex) (k : K) :
  searchable (root tr) = true ->
  Invariants.size_exact tr = true ->
  (forall v, In (mkPair k v) (subtree_pairs (root tr)) -> search tr k = Ok v) /\
  (~ In k (Invariants.subtree_keys (root tr)) -> search tr k = Ok PyNone).
Proof.
  intros Hshape Hsize. unfold search, is_empty.
  destruct (Z.eqb_spec (size tr) 0) as [Hempty|_].
  - unfold Invariants.size_exact in Hsize. apply Z.eqb_eq in Hsize.
    rewrite Hempty in Hsize. unfold len in Hsize.
    rewrite subtree_keys_of_pairs, length_map in Hsize.
    destruct (subtree_pairs (root tr)); [|cbn in Hsize; lia].
    split; [intros v []|reflexivity].
  - apply search_loop_complete; [lia|exact Hshape].
Qed.

Lemma search_finds_what_is_stored_witness :
  searchable (root tree_1_to_5) = true /\
  Invariants.size_exact tree_1_to_5 = true /\
  search tree_1_to_5 4 = Ok (PyStr "d") /\
  search tree_1_to_5 9 = Ok PyNone.
Proof.
  assert (Hshape : searchable (root tree_1_to_5) = true) by reflexivity.
  assert (Hsize : Invariants.size_exact tree_1_to_5 = true) by reflexivity.
  split; [exact Hshape|]. split; [exact Hsize|]. split.
  - apply (proj1 (search_finds_what_is_stored tree_1_to_5 4 Hshape Hsize)).
    cbn. auto 10.
  - apply (proj2 (search_finds_what_is_stored tree_1_to_5 9 Hshape Hsize)).
    cbn. intros H. repeat (destruct H as [H|H]; [discriminate H|]). exact H.
Defined.


(* ===================================================================== *)
(** ** What the constructors take with them                                *)
(* ===================================================================== *)

(** [insert_key_value] constructs its pair before it looks at the list:
    for every node, key and value it raises TypeError and stores
    nothing. *)
Lemma insert_key_value_raises (n : BTreeNode) (k : K) (v : V) :
  insert_key_value n k v = Raise TypeError.
Proof. reflexivity. Qed.

(** No script gets past [BTreeIndex(t)]. *)
Lemma run_fresh_raises (t : Z) (ops : list op) :
  run_fresh t ops = Raise (if t <? 2 then ValueError else TypeError).
Proof.
  unfold run_fresh. rewrite BTreeIndex_init_outcome. reflexivity.
Qed.

Lemma nothing_reachable (tr : BTreeIndex) : ~ reachable tr.
Proof.
  intros (t & ops & H). rewrite run_fresh_raises in H. discriminate H.
Qed.

Lemma search_after_raises (t : Z) (ops : list op) (k : K) :
  search_after t ops k = Raise (if t <? 2 then ValueError else TypeError).
Proof. unfold search_after. rewrite run_fresh_raises. reflexivity. Qed.

Lemma size_after_raises (t : Z) (ops : list op) :
  size_after t ops = Raise (if t <? 2 then ValueError else TypeError).
Proof. unfold size_after. rewrite run_fresh_raises. reflexivity. Qed.

(* ===================================================================== *)
(** ** The scenarios of the specification, run on the code                 *)
(* ===================================================================== *)

(** C1, at a failing input.  The script [tree = BTreeIndex(2)],
    [tree.insert(1, "a")], [tree.insert(1, "b")] is to return ["a"] from
    the second call, leave the size at 1 and make [search(1)] give ["b"].
    It stops with TypeError at [BTreeIndex(2)], whose root node is never
    constructed: there is no second call, no size and no lookup.  The
    same holds for every minimum degree, key and pair of values. *)
Theorem update_script_stops_at_construction :
  run_fresh 2 ops_update = Raise TypeError /\
  size_after 2 ops_update <> Ok 1 /\
  search_after 2 ops_update 1 <> Ok (PyStr "b") /\
  forall (t : Z) (k : K) (v1 v2 : V),
    ~ (exists tr, run_fresh t [Insert k v1; Insert k v2] = Ok tr) /\
    search_after t [Insert k v1; Insert k v2] k <> Ok v2.
Proof.
  rewrite run_fresh_raises, size_after_raises, search_after_raises.
  split; [reflexivity|]. split; [discriminate|]. split; [discriminate|].
  intros t k v1 v2. rewrite search_after_raises. split; [|discriminate].
  intros (tr & H). rewrite run_fresh_raises in H. discriminate H.
Qed.

(** C2, at a failing input.  After [tree = BTreeIndex(2)], three inserts
    and a delete the tree is to satisfy invariants 1 to 6.  The script
    stops with TypeError at [BTreeIndex(2)] and leaves no tree, so none
    that satisfies the invariants; and so does every other script. *)
Theorem invariant_script_leaves_no_tree :
  run_fresh 2 ops_insert_delete = Raise TypeError /\
  forall (t : Z) (ops : list op),
    ~ (exists tr, run_fresh t ops = Ok tr /\ Invariants.holds tr = true).
Proof.
  split; [apply run_fresh_raises|].
  intros t ops (tr & H & _). rewrite run_fresh_raises in H. discriminate H.
Qed.

(** C3, at a failing input.  After [tree = BTreeIndex(2)],
    [tree.insert(1, "a")] and [tree.delete(1)] the lookup [search(1)] is
    to give [None] and the size is to be 0.  The script stops with
    TypeError at [BTreeIndex(2)]: [delete] is never called, and neither
    the lookup nor the size is there to be read.  The same holds for
    every minimum degree, key and value. *)
Theorem delete_script_stops_at_construction :
  run_fresh 2 ops_delete = Raise TypeError /\
  search_after 2 ops_delete 1 <> Ok PyNone /\
  size_after 2 ops_delete <> Ok 0 /\
  forall (t : Z) (k : K) (v : V),
    search_after t [Insert k v; Delete k] k <> Ok PyNone /\
    size_after t [Insert k v; Delete k] <> Ok 0.
Proof.
  rewrite run_fresh_raises, size_after_raises, search_after_raises.
  split; [reflexivity|]. split; [discriminate|]. split; [discriminate|].
  intros t k v. rewrite search_after_raises, size_after_raises.
  split; discriminate.
Qed.

(** C4, at a failing input.  The script [tree = BTreeIndex(2)],
    [tree.insert(1, "a")] binds 1 to ["a"] and deletes nothing, so
    [search(1)] is to give ["a"].  The script stops with TypeError at
    [BTreeIndex(2)] and the lookup gives nothing; nor does it after any
    other script, whatever binding the script leaves for the key. *)
Theorem round_trip_script_stops_at_construction :
  last_binding ops_one_insert 1 None = Some (PyStr "a") /\
  search_after 2 ops_one_insert 1 = Raise TypeError /\
  forall (t : Z) (ops : list op) (k : K) (v : V),
    last_binding ops k None = Some v -> search_after t ops k <> Ok v.
Proof.
  split; [reflexivity|]. split; [apply search_after_raises|].
  intros t ops k v _. rewrite search_after_raises. discriminate.
Qed.

(* ===================================================================== *)
(** ** Splitting as written                                                *)
(* ===================================================================== *)

(** Steps 1 to 5 never get past step 3: the median is taken out of
    [current] (step 2), then [BTreeNode(...)] raises. *)
Lemma split_halves_outcome (t : Z) (current : BTreeNode) :
  split_halves t current
  = match remove_key_value_pair current (t - 1) with
    | Ok (_, current') =>
        (current', Raise (if t <? 2 then ValueError else TypeError))
    | Raise e => (current, Raise e)
    end.
Proof.
  unfold split_halves, and_then, store.
  destruct (remove_key_value_pair current (t - 1)) as [[kv current']|e];
    [|reflexivity].
  unfold this, expr. rewrite BTreeNode_init_outcome. reflexivity.
Qed.

Lemma split_halves_never_returns (t : Z) (current : BTreeNode) :
  exists current' e, split_halves t current = (current', Raise e).
Proof.
  rewrite split_halves_outcome.
  destruct (remove_key_value_pair current (t - 1)) as [[kv current']|e]; eauto.
Qed.

Lemma at_child_never_returns {A : Type} (index : Z) (m : Call BTreeNode A) :
  (forall c, exists c' e, m c = (c', Raise e)) ->
  forall parent, exists parent' e, at_child index m parent = (parent', Raise e).
Proof.
  intros Hm parent. unfold at_child.
  destruct (py_index (children parent) index) as [i|e]; [|eauto].
  destruct (nth_error (children parent) i) as [c|]; [|eauto].
  destruct (Hm c) as (c' & e & ->). eauto.
Qed.

Lemma _split_node_never_returns (t : Z) (child_index : Z) (parent : BTreeNode) :
  exists parent' e, _split_node t child_index parent = (parent', Raise e).
Proof.
  unfold _split_node, and_then.
  destruct (at_child_never_returns child_index (split_halves t)
              (split_halves_never_returns t) parent) as (parent' & e & ->).
  eauto.
Qed.

Lemma split_root_never_returns (t : Z) (tr : BTreeIndex) :
  exists tr' e, split_root t tr = (tr', Raise e).
Proof.
  unfold split_root, and_then, expr. rewrite BTreeNode_init_outcome. eauto.
Qed.

(* ===================================================================== *)
(** ** Insertion as written                                                *)
(* ===================================================================== *)

(** One round of the descent of [insert]. *)
Lemma insert_loop_step (fuel : nat) (t : Z) (k : K) (v : V)
  (n : BTreeNode) (sz : Z) :
  insert_loop (S fuel) t k v (n, sz)
  = if find_key_index n k >=? 0 then
      match get_value n (find_key_index n k) with
      | Ok old =>
          match set_value n (find_key_index n k) v with
          | Ok n' => ((n', sz), Ok old)
          | Raise e => ((n, sz), Raise e)
          end
      | Raise e => ((n, sz), Raise e)
      end
    else if is_leaf n then ((n, sz), Raise TypeError)
    else
      match get_child n (get_child_index n k) with
      | Ok child =>
          if is_full child then
            ((fst (_split_node t (get_child_index n k) n), sz),
             match snd (_split_node t (get_child_index n k) n) with
             | Ok _ => Raise OutOfModel
             | Raise e => Raise e
             end)
          else at_child_sized (get_child_index n k) (insert_loop fuel t k v) (n, sz)
      | Raise e => ((n, sz), Raise e)
      end.
Proof.
  cbn [insert_loop]. unfold and_then at 1. unfold this at 1. cbn [fst snd].
  destruct (find_key_index n k >=? 0).
  - unfold and_then, on_node, read, store_, ret. cbn [fst snd].
    destruct (get_value n (find_key_index n k)) as [old|e]; [|reflexivity].
    cbn [fst snd].
    destruct (set_value n (find_key_index n k) v) as [n'|e]; reflexivity.
  - destruct (is_leaf n).
    + unfold and_then, on_node, store_. cbn [fst snd].
      rewrite insert_key_value_raises. reflexivity.
    + unfold and_then at 1. unfold on_node at 1, read at 1. cbn [fst snd].
      destruct (get_child n (get_child_index n k)) as [child|e]; [|reflexivity].
      destruct (is_full child); [|reflexivity].
      unfold and_then, on_node. cbn [fst snd].
      destruct (_split_node_never_returns t (get_child_index n k) n)
        as (parent' & e & ->).
      reflexivity.
Qed.

(** *** In-place updates *)

Lemma find_key_index_keys (n n' : BTreeNode) (k : K) :
  keys_of n' = keys_of n -> find_key_index n' k = find_key_index n k.
Proof. intros H. rewrite !find_key_index_eq, H. reflexivity. Qed.

Lemma get_child_index_keys (n n' : BTreeNode) (k : K) :
  keys_of n' = keys_of n -> get_child_index n' k = get_child_index n k.
Proof.
  intros H. unfold get_child_index. rewrite (find_key_index_keys n n' k H).
  reflexivity.
Qed.

Lemma get_child_index_nonneg (n : BTreeNode) (k : K) :
  0 <= get_child_index n k.
Proof.
  unfold get_child_index.
  destruct (Z.geb_spec (find_key_index n k) 0); lia.
Qed.

Lemma map_key_replaced (kvs : list KeyValuePair) (i : nat) (p q : KeyValuePair) :
  nth_error kvs i = Some p -> key q = key p ->
  map key (firstn i kvs ++ q :: skipn (S i) kvs) = map key kvs.
Proof.
  intros Hp Hq. rewrite <- (firstn_skipn i kvs) at 3.
  rewrite !map_app. f_equal.
  assert (Hs : skipn i kvs = p :: skipn (S i) kvs).
  { clear Hq. revert kvs Hp. induction i as [|i IH]; intros [|x kvs] Hp;
      try discriminate Hp.
    - injection Hp as ->. reflexivity.
    - cbn [nth_error] in Hp. rewrite skipn_cons. rewrite (IH kvs Hp).
      reflexivity. }
  rewrite Hs. cbn [map]. rewrite Hq. reflexivity.
Qed.

(** The store of [insert] into a found entry: where it lands and what it
    leaves alone. *)
Lemma set_value_found (n : BTreeNode) (k : K) (v : V) :
  0 <= find_key_index n k ->
  exists kvs,
    py_setitem (key_value_pairs n) (find_key_index n k) (mkPair k v) = Ok kvs /\
    set_value n (find_key_index n k) v = Ok (set_pairs n kvs) /\
    map key kvs = keys_of n /\
    nth_error kvs (Z.to_nat (find_key_index n k)) = Some (mkPair k v).
Proof.
  intros H. destruct (find_key_index_hit n k H) as (p & Hp & Hk & Hlt).
  set (idx := find_key_index n k) in *.
  assert (Hrange : 0 <= idx < len (key_value_pairs n)) by (unfold node_len in Hlt; lia).
  exists (firstn (Z.to_nat idx) (key_value_pairs n)
          ++ mkPair k v :: skipn (S (Z.to_nat idx)) (key_value_pairs n)).
  assert (Hget : get_key_value_pair n idx = Ok p).
  { unfold get_key_value_pair.
    destruct (py_getitem_in_range (key_value_pairs n) idx Hrange) as (x & -> & Hx).
    congruence. }
  split; [apply py_setitem_in_range; exact Hrange|].
  split.
  - unfold set_value. rewrite Hget. cbn [bind]. rewrite Hk.
    rewrite py_setitem_in_range by exact Hrange. reflexivity.
  - split.
    + apply (map_key_replaced _ _ p); [exact Hp | symmetry; exact Hk].
    + apply nth_error_replaced. unfold len in Hrange. lia.
Qed.

Lemma set_value_inv (n n' : BTreeNode) (k : K) (v : V) :
  0 <= find_key_index n k ->
  set_value n (find_key_index n k) v = Ok n' ->
  exists kvs,
    py_setitem (key_value_pairs n) (find_key_index n k) (mkPair k v) = Ok kvs /\
    n' = set_pairs n kvs.
Proof.
  intros H Hset. destruct (set_value_found n k v H) as (kvs & Hpy & Hsv & _).
  exists kvs. split; [exact Hpy | congruence].
Qed.

Lemma get_child_parts (n : BTreeNode) (index : Z) (child : BTreeNode) :
  get_child n index = Ok child ->
  exists i, py_index (children n) index = Ok i /\
            nth_error (children n) i = Some child.
Proof.
  unfold get_child, py_getitem.
  destruct (py_index (children n) index) as [i|e]; cbn [bind]; [|discriminate].
  destruct (nth_error (children n) i) as [c|] eqn:Hc; [|discriminate].
  intros [= ->]. exists i. split; [reflexivity | exact Hc].
Qed.

Lemma get_child_of_parts (n : BTreeNode) (index : Z) (i : nat) (child : BTreeNode) :
  py_index (children n) index = Ok i ->
  nth_error (children n) i = Some child ->
  get_child n index = Ok child.
Proof.
  intros Hi Hc. unfold get_child, py_getitem. rewrite Hi. cbn [bind].
  rewrite Hc. reflexivity.
Qed.

Lemma at_child_sized_parts {A : Type} (index : Z) (m : Call Sized A)
  (parent : BTreeNode) (sz : Z) (i : nat) (child : BTreeNode) :
  py_index (children parent) index = Ok i ->
  nth_error (children parent) i = Some child ->
  at_child_sized index m (parent, sz)
  = ((set_children parent
        (firstn i (children parent)
           ++ fst (fst (m (child, sz))) :: skipn (S i) (children parent)),
      snd (fst (m (child, sz)))),
     snd (m (child, sz))).
Proof.
  intros Hi Hc. unfold at_child_sized. cbn [fst snd]. rewrite Hi, Hc.
  destruct (m (child, sz)) as [[c' sz'] r]. reflexivity.
Qed.

(** An [insert] descent that returns has overwritten a binding, and only
    that. *)
Lemma insert_loop_returns (fuel : nat) :
  forall (t : Z) (k : K) (v : V) (n : BTreeNode) (sz : Z)
         (n' : BTreeNode) (sz' : Z) (old : V),
    insert_loop fuel t k v (n, sz) = ((n', sz'), Ok old) ->
    sz' = sz /\ overwritten k v old n n'.
Proof.
  induction fuel as [|fuel IH]; intros t k v n sz n' sz' old H.
  - discriminate H.
  - rewrite insert_loop_step in H.
    destruct (Z.geb_spec (find_key_index n k) 0) as [Hfound|Hmiss].
    + destruct (get_value n (find_key_index n k)) as [old0|e] eqn:Hget;
        [|discriminate H].
      destruct (set_value n (find_key_index n k) v) as [n0|e] eqn:Hset;
        [|discriminate H].
      injection H as <- <- <-. split; [reflexivity|].
      destruct (set_value_inv n n0 k v ltac:(lia) Hset) as (kvs & Hpy & ->).
      apply overwritten_here; [lia | exact Hget | exact Hpy].
    + destruct (is_leaf n) eqn:Hleaf; [discriminate H|].
      destruct (get_child n (get_child_index n k)) as [child|e] eqn:Hchild;
        [|discriminate H].
      destruct (is_full child) eqn:Hfull.
      { destruct (_split_node_never_returns t (get_child_index n k) n)
          as (p' & e & Hsplit).
        rewrite Hsplit in H. discriminate H. }
      destruct (get_child_parts _ _ _ Hchild) as (i & Hi & Hc).
      rewrite (at_child_sized_parts _ _ _ _ _ _ Hi Hc) in H.
      destruct (insert_loop fuel t k v (child, sz)) as [[c' s'] r] eqn:Hrec.
      cbn [fst snd] in H. injection H as <- <- ->.
      destruct (IH _ _ _ _ _ _ _ _ Hrec) as [-> Hover].
      split; [reflexivity|].
      eapply overwritten_below; eassumption.
Qed.

(** What an overwrite leaves as it was. *)
Lemma overwritten_shape (k : K) (v old : V) (n n' : BTreeNode) :
  overwritten k v old n n' ->
  min_degree n' = min_degree n /\ is_leaf n' = is_leaf n /\
  keys_of n' = keys_of n /\ length (children n') = length (children n) /\
  height n' = height n.
Proof.
  induction 1 as [n kvs Hfound Hget Hpy
                 | n i child child' Hmiss Hleaf Hi Hc Hfull Hover IH].
  - destruct (set_value_found n k v Hfound) as (kvs0 & Hpy0 & _ & Hkeys & _).
    assert (kvs0 = kvs) as -> by congruence.
    repeat split; try reflexivity.
    + unfold keys_of, set_pairs. cbn [key_value_pairs]. exact Hkeys.
    + rewrite !height_eq. reflexivity.
  - destruct IH as (_ & _ & _ & _ & Hh).
    pose proof (py_index_bound _ _ _ Hi) as Hlt.
    repeat split; try reflexivity.
    + unfold set_children. cbn [children].
      rewrite length_app, length_firstn. cbn [length]. rewrite length_skipn. lia.
    + rewrite !height_eq. unfold set_children. cbn [children]. f_equal.
      rewrite <- (firstn_skipn i (children n)) at 3.
      rewrite !fold_right_app. f_equal.
      assert (Hs : skipn i (children n) = child :: skipn (S i) (children n)).
      { clear - Hc. revert Hc. generalize (children n). intros cs. revert cs.
        induction i as [|i IHi]; intros [|x cs] Hc; try discriminate Hc.
        - injection Hc as ->. reflexivity.
        - cbn [nth_error] in Hc. rewrite skipn_cons. rewrite (IHi cs Hc).
          reflexivity. }
      rewrite Hs. cbn [fold_right]. rewrite Hh. reflexivity.
Qed.

Lemma overwritten_len (k : K) (v old : V) (n n' : BTreeNode) :
  overwritten k v old n n' -> node_len n' = node_len n.
Proof.
  intros H. destruct (overwritten_shape _ _ _ _ _ H) as (_ & _ & Hk & _).
  unfold node_len, len. unfold keys_of in Hk.
  rewrite <- (length_map key (key_value_pairs n')), Hk, length_map. reflexivity.
Qed.

Lemma overwritten_is_full (k : K) (v old : V) (n n' : BTreeNode) :
  overwritten k v old n n' -> is_full n' = is_full n.
Proof.
  intros H. unfold is_full. rewrite (overwritten_len _ _ _ _ _ H).
  destruct (overwritten_shape _ _ _ _ _ H) as (-> & _). reflexivity.
Qed.

(** Conversely, where the descent meets no full node and finds the key,
    the update goes through. *)
Lemma overwritten_runs (k : K) (v old : V) (n n' : BTreeNode) :
  overwritten k v old n n' ->
  forall (fuel : nat) (t : Z) (sz : Z),
    (height n <= fuel)%nat ->
    insert_loop fuel t k v (n, sz) = ((n', sz), Ok old).
Proof.
  induction 1 as [n kvs Hfound Hget Hpy
                 | n i child child' Hmiss Hleaf Hi Hc Hfull Hover IH];
    intros fuel t sz Hfuel.
  - destruct fuel as [|fuel]; [pose proof (height_pos n); lia|].
    rewrite insert_loop_step.
    destruct (Z.geb_spec (find_key_index n k) 0) as [_|]; [|lia].
    rewrite Hget.
    destruct (set_value_found n k v Hfound) as (kvs0 & Hpy0 & -> & _).
    assert (kvs0 = kvs) as -> by congruence. reflexivity.
  - destruct fuel as [|fuel]; [pose proof (height_pos n); lia|].
    rewrite insert_loop_step.
    destruct (Z.geb_spec (find_key_index n k) 0) as [|_]; [lia|].
    rewrite Hleaf, (get_child_of_parts _ _ _ _ Hi Hc), Hfull.
    rewrite (at_child_sized_parts _ _ _ _ _ _ Hi Hc).
    assert (Hh : (height child <= fuel)%nat).
    { pose proof (height_child n child (nth_error_In _ _ Hc)). lia. }
    rewrite (IH fuel t sz Hh). reflexivity.
Qed.

(** The lookup before and after an overwrite. *)
Lemma overwritten_search_before (k : K) (v old : V) (n n' : BTreeNode) :
  overwritten k v old n n' ->
  forall fuel, (height n <= fuel)%nat -> search_loop fuel n k = Ok old.
Proof.
  induction 1 as [n kvs Hfound Hget Hpy
                 | n i child child' Hmiss Hleaf Hi Hc Hfull Hover IH];
    intros fuel Hfuel;
    (destruct fuel as [|fuel]; [pose proof (height_pos n); lia|]);
    cbn [search_loop].
  - destruct (Z.geb_spec (find_key_index n k) 0) as [_|]; [|lia]. exact Hget.
  - destruct (Z.geb_spec (find_key_index n k) 0) as [|_]; [lia|].
    rewrite Hleaf, (get_child_of_parts _ _ _ _ Hi Hc). cbn [bind].
    apply IH. pose proof (height_child n child (nth_error_In _ _ Hc)). lia.
Qed.

Lemma py_index_same_length {A : Type} (l l' : list A) (i : Z) :
  length l' = length l -> py_index l' i = py_index l i.
Proof. intros H. unfold py_index, len. rewrite H. reflexivity. Qed.

Lemma length_replaced {A : Type} (l : list A) (i : nat) (x : A) :
  (i < length l)%nat -> length (firstn i l ++ x :: skipn (S i) l) = length l.
Proof.
  intros H. rewrite length_app, length_firstn. cbn [length].
  rewrite length_skipn. lia.
Qed.

Lemma overwritten_search_after (k : K) (v old : V) (n n' : BTreeNode) :
  overwritten k v old n n' ->
  forall fuel, (height n <= fuel)%nat -> search_loop fuel n' k = Ok v.
Proof.
  induction 1 as [n kvs Hfound Hget Hpy
                 | n i child child' Hmiss Hleaf Hi Hc Hfull Hover IH];
    intros fuel Hfuel;
    (destruct fuel as [|fuel]; [pose proof (height_pos n); lia|]);
    cbn [search_loop].
  - destruct (set_value_found n k v Hfound) as (kvs0 & Hpy0 & _ & Hkeys & Hnth).
    assert (kvs0 = kvs) as -> by congruence.
    assert (Hidx : find_key_index (set_pairs n kvs) k = find_key_index n k).
    { apply find_key_index_keys. exact Hkeys. }
    rewrite Hidx.
    destruct (Z.geb_spec (find_key_index n k) 0) as [_|]; [|lia].
    unfold get_value, get_key_value_pair, set_pairs. cbn [key_value_pairs].
    assert (Hr : 0 <= find_key_index n k < len kvs).
    { split; [exact Hfound|].
      assert (Hn : nth_error kvs (Z.to_nat (find_key_index n k)) <> None)
        by (rewrite Hnth; discriminate).
      apply nth_error_Some in Hn. unfold len. lia. }
    destruct (py_getitem_in_range kvs _ Hr) as (x & -> & Hx).
    cbn [bind]. rewrite Hnth in Hx. injection Hx as <-. reflexivity.
  - pose proof (py_index_bound _ _ _ Hi) as Hlt.
    set (n' := set_children n _).
    assert (Hkeys : keys_of n' = keys_of n) by reflexivity.
    rewrite (find_key_index_keys n n' k Hkeys),
            (get_child_index_keys n n' k Hkeys).
    destruct (Z.geb_spec (find_key_index n k) 0) as [|_]; [lia|].
    change (is_leaf n') with (is_leaf n). rewrite Hleaf.
    assert (Hget : get_child n' (get_child_index n k) = Ok child').
    { apply (get_child_of_parts _ _ i).
      - unfold n', set_children. cbn [children].
        rewrite (py_index_same_length (children n)); [exact Hi|].
        apply length_replaced. exact Hlt.
      - unfold n', set_children. cbn [children].
        apply nth_error_replaced. exact Hlt. }
    rewrite Hget. cbn [bind].
    apply IH. pose proof (height_child n child (nth_error_In _ _ Hc)). lia.
Qed.

(** The overwritten binding is stored. *)
Lemma overwritten_stored (k : K) (v old : V) (n n' : BTreeNode) :
  overwritten k v old n n' -> In (mkPair k v) (subtree_pairs n').
Proof.
  induction 1 as [n kvs Hfound Hget Hpy
                 | n i child child' Hmiss Hleaf Hi Hc Hfull Hover IH].
  - destruct (set_value_found n k v Hfound) as (kvs0 & Hpy0 & _ & _ & Hnth).
    assert (kvs0 = kvs) as -> by congruence.
    rewrite subtree_pairs_eq. apply in_or_app. left.
    unfold set_pairs. cbn [key_value_pairs].
    eapply nth_error_In. exact Hnth.
  - apply (in_subtree_pairs_child _ child'); [|exact IH].
    unfold set_children. cbn [children].
    apply in_or_app. right. left. reflexivity.
Qed.

(** A binding that was overwritten can be overwritten again; the value
    found is the one stored last. *)
Lemma overwritten_again (k : K) (v old : V) (n n' : BTreeNode) :
  overwritten k v old n n' ->
  forall v2, exists n'', overwritten k v2 v n' n''.
Proof.
  induction 1 as [n kvs Hfound Hget Hpy
                 | n i child child' Hmiss Hleaf Hi Hc Hfull Hover IH];
    intros v2.
  - destruct (set_value_found n k v Hfound) as (kvs0 & Hpy0 & _ & Hkeys & Hnth).
    assert (kvs0 = kvs) as -> by congruence.
    assert (Hidx : find_key_index (set_pairs n kvs) k = find_key_index n k).
    { apply find_key_index_keys. exact Hkeys. }
    assert (Hfound' : 0 <= find_key_index (set_pairs n kvs) k) by lia.
    destruct (set_value_found (set_pairs n kvs) k v2 Hfound')
      as (kvs2 & Hpy2 & _ & _ & _).
    exists (set_pairs (set_pairs n kvs) kvs2).
    apply overwritten_here; [exact Hfound' | | exact Hpy2].
    rewrite Hidx. unfold get_value, get_key_value_pair, set_pairs.
    cbn [key_value_pairs].
    assert (Hr : 0 <= find_key_index n k < len kvs).
    { split; [exact Hfound|].
      assert (Hn : nth_error kvs (Z.to_nat (find_key_index n k)) <> None)
        by (rewrite Hnth; discriminate).
      apply nth_error_Some in Hn. unfold len. lia. }
    destruct (py_getitem_in_range kvs _ Hr) as (x & -> & Hx).
    cbn [bind]. rewrite Hnth in Hx. injection Hx as <-. reflexivity.
  - destruct (IH v2) as (child'' & Hover2).
    pose proof (py_index_bound _ _ _ Hi) as Hlt.
    set (n' := set_children n _).
    assert (Hkeys : keys_of n' = keys_of n) by reflexivity.
    exists (set_children n'
              (firstn i (children n') ++ child'' :: skipn (S i) (children n'))).
    apply (overwritten_below k v2 v n' i child' child'').
    + rewrite (find_key_index_keys n n' k Hkeys). exact Hmiss.
    + exact Hleaf.
    + rewrite (get_child_index_keys n n' k Hkeys).
      unfold n', set_children. cbn [children].
      rewrite (py_index_same_length (children n)); [exact Hi|].
      apply length_replaced. exact Hlt.
    + unfold n', set_children. cbn [children].
      apply nth_error_replaced. exact Hlt.
    + rewrite (overwritten_is_full _ _ _ _ _ Hover). exact Hfull.
    + exact Hover2.
Qed.

(** [insert] returns exactly when it updates in place: the tree counts
    entries, its root is not full, and the descent overwrites a binding. *)
Lemma insert_returns_iff (k : K) (v old : V) (tr tr' : BTreeIndex) :
  insert k v tr = (tr', Ok old) <->
  is_empty tr = false /\ is_full (root tr) = false /\
  exists n', overwritten k v old (root tr) n' /\
             tr' = mkIndex (index_min_degree tr) n' (size tr).
Proof.
  unfold insert. unfold and_then at 1. unfold this at 1.
  destruct (is_empty tr) eqn:Hempty.
  - split; [|intros (H & _); discriminate H].
    unfold and_then, on_root, on_node, store_. cbn [fst snd].
    rewrite insert_key_value_raises. intros H. discriminate H.
  - destruct (is_full (root tr)) eqn:Hfull.
    + split; [|intros (_ & H & _); discriminate H].
      unfold and_then at 1.
      destruct (split_root_never_returns (index_min_degree tr) tr)
        as (tr0 & e & ->).
      intros H. discriminate H.
    + unfold and_then, ret, this, on_root.
      destruct (insert_loop (height (root tr)) (index_min_degree tr) k v
                  (root tr, size tr)) as [[n' sz'] r] eqn:Hloop.
      cbn [fst snd]. split.
      * intros [= <- ->].
        destruct (insert_loop_returns _ _ _ _ _ _ _ _ _ Hloop) as [-> Hover].
        split; [reflexivity|]. split; [reflexivity|]. eauto.
      * intros (_ & _ & n0 & Hover & ->).
        rewrite (overwritten_runs _ _ _ _ _ Hover (height (root tr))
                   (index_min_degree tr) (size tr) (Nat.le_refl _)) in Hloop.
        injection Hloop as <- <- <-. reflexivity.
Qed.

Lemma search_after_overwrite (k : K) (v old : V) (tr : BTreeIndex) (n' : BTreeNode) :
  is_empty tr = false ->
  overwritten k v old (root tr) n' ->
  search tr k = Ok old /\
  search (mkIndex (index_min_degree tr) n' (size tr)) k = Ok v.
Proof.
  intros Hempty Hover. unfold search.
  assert (Hempty' : is_empty (mkIndex (index_min_degree tr) n' (size tr)) = false)
    by exact Hempty.
  rewrite Hempty, Hempty'. cbn [root]. split.
  - apply (overwritten_search_before _ _ _ _ _ Hover). apply Nat.le_refl.
  - apply (overwritten_search_after _ _ _ _ _ Hover).
    destruct (overwritten_shape _ _ _ _ _ Hover) as (_ & _ & _ & _ & ->).
    apply Nat.le_refl.
Qed.

(* ===================================================================== *)
(** ** A stored [None]                                                     *)
(* ===================================================================== *)

(** C10.  For every tree, [key in tree] is [True] exactly when
    [search(key)] returns a value other than [None].  Hence whenever
    [insert(k, None)] returns (as written, [insert] returns when it
    overwrites a binding), the pair [(k, None)] is stored in the tree, yet
    [search(k)] gives [None], [k in tree] is [False], and a later
    [insert(k, v)] returns [None] as the previous value. *)
Theorem stored_none_reads_as_absent (tr : BTreeIndex) (k : K) :
  (contains tr k = Ok true <-> exists v, search tr k = Ok v /\ v <> PyNone) /\
  (forall (tr' : BTreeIndex) (old : V),
     insert k PyNone tr = (tr', Ok old) ->
     In (mkPair k PyNone) (subtree_pairs (root tr')) /\
     search tr' k = Ok PyNone /\
     contains tr' k = Ok false /\
     forall v : V, exists tr'', insert k v tr' = (tr'', Ok PyNone)).
Proof.
  split.
  - unfold contains. destruct (search tr k) as [v|e]; cbn [bind].
    + destruct v as [|s]; cbn [is_not_none]; split.
      * discriminate.
      * intros (v & [= <-] & Hv). contradiction.
      * intros _. exists (PyStr s). split; [reflexivity | discriminate].
      * reflexivity.
    + split; [discriminate|]. intros (v & H & _). discriminate H.
  - intros tr' old H.
    apply insert_returns_iff in H.
    destruct H as (Hempty & Hfull & n' & Hover & ->).
    destruct (search_after_overwrite _ _ _ _ _ Hempty Hover) as [_ Hsearch].
    split; [exact (overwritten_stored _ _ _ _ _ Hover)|].
    split; [exact Hsearch|].
    split; [unfold contains; rewrite Hsearch; reflexivity|].
    intros v. destruct (overwritten_again _ _ _ _ _ Hover v) as (n'' & Hover2).
    exists (mkIndex (index_min_degree tr) n'' (size tr)).
    apply insert_returns_iff. cbn [root index_min_degree size].
    split; [exact Hempty|].
    split; [rewrite (overwritten_is_full _ _ _ _ _ Hover); exact Hfull|].
    exists n''. split; [exact Hover2 | reflexivity].
Qed.

(** On the tree state [tree_1_to_5], [insert(1, None)] returns ["a"];
    after it key 1 reads as absent and the next [insert] returns [None]. *)
Lemma stored_none_reads_as_absent_witness :
  insert 1 PyNone tree_1_to_5 = (tree_1_none, Ok (PyStr "a")) /\
  In (mkPair 1 PyNone) (subtree_pairs (root tree_1_none)) /\
  search tree_1_none 1 = Ok PyNone /\
  contains tree_1_none 1 = Ok false /\
  forall v : V, exists tr'', insert 1 v tree_1_none = (tr'', Ok PyNone).
Proof.
  assert (H : insert 1 PyNone tree_1_to_5 = (tree_1_none, Ok (PyStr "a")))
    by reflexivity.
  split; [exact H|].
  exact (proj2 (stored_none_reads_as_absent tree_1_to_5 1)
           tree_1_none (PyStr "a") H).
Defined.

(* ===================================================================== *)
(** ** Underflow repair as written                                         *)
(* ===================================================================== *)

Lemma replaced_same {A : Type} (l : list A) (i : nat) (x : A) :
  nth_error l i = Some x -> firstn i l ++ x :: skipn (S i) l = l.
Proof.
  revert l. induction i as [|i IH]; intros [|y l] H; try discriminate H.
  - injection H as ->. reflexivity.
  - cbn [nth_error] in H. rewrite firstn_cons, skipn_cons.
    cbn [app]. f_equal. apply IH. exact H.
Qed.

Lemma set_children_same (n : BTreeNode) : set_children n (children n) = n.
Proof. destruct n; reflexivity. Qed.

Lemma at_child_parts {A : Type} (index : Z) (m : Call BTreeNode A)
  (parent : BTreeNode) (i : nat) (child : BTreeNode) :
  py_index (children parent) index = Ok i ->
  nth_error (children parent) i = Some child ->
  at_child index m parent
  = (set_children parent
       (firstn i (children parent)
          ++ fst (m child) :: skipn (S i) (children parent)),
     snd (m child)).
Proof.
  intros Hi Hc. unfold at_child. rewrite Hi, Hc.
  destruct (m child) as [c' r]. reflexivity.
Qed.

(** A call on a child that stores nothing leaves the parent as it was. *)
Lemma at_child_unchanged {A : Type} (index : Z) (m : Call BTreeNode A)
  (parent : BTreeNode) (child : BTreeNode) (r : Result A) :
  get_child parent index = Ok child ->
  m child = (child, r) ->
  at_child index m parent = (parent, r).
Proof.
  intros Hget Hm. destruct (get_child_parts _ _ _ Hget) as (i & Hi & Hc).
  rewrite (at_child_parts _ _ _ _ _ Hi Hc), Hm. cbn [fst snd].
  rewrite (replaced_same _ _ _ Hc), set_children_same. reflexivity.
Qed.

Lemma get_child_in_range (parent : BTreeNode) (i : Z) :
  0 <= i < len (children parent) ->
  exists c, get_child parent i = Ok c /\
            py_index (children parent) i = Ok (Z.to_nat i) /\
            nth_error (children parent) (Z.to_nat i) = Some c.
Proof.
  intros H. unfold get_child.
  destruct (py_getitem_in_range (children parent) i H) as (c & Hget & Hnth).
  exists c. split; [exact Hget|]. split; [|exact Hnth].
  apply py_index_in_range. exact H.
Qed.

Lemma get_child_nonneg_inv (parent : BTreeNode) (i : Z) (c : BTreeNode) :
  0 <= i -> get_child parent i = Ok c ->
  i < len (children parent) /\
  py_index (children parent) i = Ok (Z.to_nat i) /\
  nth_error (children parent) (Z.to_nat i) = Some c.
Proof.
  intros Hi Hget. unfold get_child in Hget.
  destruct (py_getitem_nonneg_inv _ _ _ Hi Hget) as [Hlt Hnth].
  split; [exact Hlt|]. split; [|exact Hnth].
  apply py_index_in_range. lia.
Qed.

Lemma remove_key_value_pair_in_range (n : BTreeNode) (i : Z) :
  0 <= i < node_len n -> node_len n < 2 ^ 63 ->
  exists p, remove_key_value_pair n i = Ok (p, without_entry i n) /\
            nth_error (key_value_pairs n) (Z.to_nat i) = Some p.
Proof.
  intros H Hfit. unfold remove_key_value_pair.
  destruct (py_pop_in_range (key_value_pairs n) i H Hfit) as (p & -> & Hp).
  exists p. split; [reflexivity | exact Hp].
Qed.

Lemma holdable_parts (parent : BTreeNode) :
  holdable parent = true ->
  node_len parent < 2 ^ 63 /\ len (children parent) < 2 ^ 63 /\
  forall c, In c (children parent) ->
            node_len c < 2 ^ 63 /\ len (children c) < 2 ^ 63.
Proof.
  unfold holdable. intros H.
  apply andb_prop in H. destruct H as [H Hcs].
  apply andb_prop in H. destruct H as [Hn Hc].
  apply Z.ltb_lt in Hn. apply Z.ltb_lt in Hc.
  split; [exact Hn|]. split; [exact Hc|].
  intros c Hin. rewrite forallb_forall in Hcs. specialize (Hcs c Hin).
  apply andb_prop in Hcs. destruct Hcs as [H1 H2].
  apply Z.ltb_lt in H1. apply Z.ltb_lt in H2. auto.
Qed.

Lemma with_child_eq (i : Z) (f : BTreeNode -> BTreeNode) (parent c : BTreeNode) :
  nth_error (children parent) (Z.to_nat i) = Some c ->
  with_child i f parent
  = set_children parent
      (firstn (Z.to_nat i) (children parent)
         ++ f c :: skipn (S (Z.to_nat i)) (children parent)).
Proof. intros H. unfold with_child. rewrite H. reflexivity. Qed.

(** [_borrow_from_left_sibling]: the separator leaves the parent, the last
    entry leaves the left sibling, then [parent.insert_key_value] raises. *)
Lemma _borrow_from_left_sibling_outcome (node_index : Z) (parent sib : BTreeNode) :
  1 <= node_index -> node_index - 1 < node_len parent ->
  get_child parent (node_index - 1) = Ok sib ->
  0 < node_len sib ->
  holdable parent = true ->
  _borrow_from_left_sibling node_index parent
  = (with_child (node_index - 1) (fun s => without_entry (node_len s - 1) s)
       (without_entry (node_index - 1) parent),
     Raise TypeError).
Proof.
  intros Hidx Hsep Hsib Hlen Hhold.
  destruct (holdable_parts _ Hhold) as (Hfp & _ & Hfc).
  destruct (get_child_nonneg_inv parent (node_index - 1) sib ltac:(lia) Hsib)
    as (Hlt & Hi & Hnth).
  destruct (remove_key_value_pair_in_range parent (node_index - 1)
              ltac:(lia) Hfp) as (sep & Hrm & _).
  destruct (Hfc sib (nth_error_In _ _ Hnth)) as [Hfs _].
  destruct (remove_key_value_pair_in_range sib (node_len sib - 1)
              ltac:(lia) Hfs) as (b & Hrb & _).
  unfold _borrow_from_left_sibling.
  unfold and_then at 1. unfold read at 1. rewrite Hsib.
  unfold and_then at 1. unfold store at 1. rewrite Hrm.
  unfold and_then at 1.
  rewrite (at_child_parts (node_index - 1) _ (without_entry (node_index - 1) parent)
             (Z.to_nat (node_index - 1)) sib Hi Hnth).
  assert (Hst : store (fun left_sibling =>
                         remove_key_value_pair left_sibling
                           (node_len left_sibling - 1)) sib
                = (without_entry (node_len sib - 1) sib, Ok b))
    by (unfold store; rewrite Hrb; reflexivity).
  rewrite Hst. cbn [fst snd].
  unfold and_then at 1. unfold store_ at 1. rewrite insert_key_value_raises.
  rewrite (with_child_eq _ _ _ sib) by exact Hnth.
  reflexivity.
Qed.

(** [_borrow_from_right_sibling]: the separator leaves the parent, the
    first entry leaves the right sibling, then [parent.insert_key_value]
    raises. *)
Lemma _borrow_from_right_sibling_outcome (node_index : Z) (parent sib : BTreeNode) :
  0 <= node_index -> node_index < node_len parent ->
  get_child parent (node_index + 1) = Ok sib ->
  0 < node_len sib ->
  holdable parent = true ->
  _borrow_from_right_sibling node_index parent
  = (with_child (node_index + 1) (without_entry 0)
       (without_entry node_index parent),
     Raise TypeError).
Proof.
  intros Hidx Hsep Hsib Hlen Hhold.
  destruct (holdable_parts _ Hhold) as (Hfp & _ & Hfc).
  destruct (get_child_nonneg_inv parent (node_index + 1) sib ltac:(lia) Hsib)
    as (Hlt & Hi & Hnth).
  destruct (remove_key_value_pair_in_range parent node_index
              ltac:(lia) Hfp) as (sep & Hrm & _).
  destruct (Hfc sib (nth_error_In _ _ Hnth)) as [Hfs _].
  destruct (remove_key_value_pair_in_range sib 0 ltac:(lia) Hfs) as (b & Hrb & _).
  unfold _borrow_from_right_sibling.
  unfold and_then at 1. unfold read at 1. rewrite Hsib.
  unfold and_then at 1. unfold store at 1. rewrite Hrm.
  unfold and_then at 1.
  rewrite (at_child_parts (node_index + 1) _ (without_entry node_index parent)
             (Z.to_nat (node_index + 1)) sib Hi Hnth).
  assert (Hst : store (fun right_sibling =>
                         remove_key_value_pair right_sibling 0) sib
                = (without_entry 0 sib, Ok b))
    by (unfold store; rewrite Hrb; reflexivity).
  rewrite Hst. cbn [fst snd].
  unfold and_then at 1. unfold store_ at 1. rewrite insert_key_value_raises.
  rewrite (with_child_eq _ _ _ sib) by exact Hnth.
  reflexivity.
Qed.

(** [_merge_with_left_sibling], when it does not fall back to a borrow:
    the separator leaves the parent, then [left_sibling.insert_key_value]
    raises. *)
Lemma _merge_with_left_sibling_outcome (t : Z) (node_index : Z)
  (parent sib child : BTreeNode) :
  1 <= node_index -> node_index - 1 < node_len parent ->
  get_child parent (node_index - 1) = Ok sib ->
  get_child parent node_index = Ok child ->
  _cannot_safely_merge t sib child && (node_len sib >? t - 1) = false ->
  holdable parent = true ->
  _merge_with_left_sibling t node_index parent
  = (without_entry (node_index - 1) parent, Raise TypeError).
Proof.
  intros Hidx Hsep Hsib Hchild Hsafe Hhold.
  destruct (holdable_parts _ Hhold) as (Hfp & _ & _).
  destruct (remove_key_value_pair_in_range parent (node_index - 1)
              ltac:(lia) Hfp) as (sep & Hrm & _).
  unfold _merge_with_left_sibling.
  unfold and_then at 1. unfold this at 1.
  destruct (Z.leb_spec node_index 0) as [|_]; [lia|].
  destruct (Z.geb_spec (node_index - 1) (node_len parent)) as [|_]; [lia|].
  cbn [orb].
  unfold and_then at 1. unfold read at 1. rewrite Hsib.
  unfold and_then at 1. unfold read at 1. rewrite Hchild.
  rewrite Hsafe.
  destruct (Z.ltb_spec (node_index - 1) (node_len parent)) as [_|]; [|lia].
  unfold and_then at 1. unfold and_then at 1. unfold store at 1.
  rewrite Hrm.
  rewrite (at_child_unchanged (node_index - 1) _
             (without_entry (node_index - 1) parent) sib (Raise TypeError));
    [reflexivity | exact Hsib |].
  unfold store_. rewrite insert_key_value_raises. reflexivity.
Qed.

(** [_merge_with_right_sibling], when it does not fall back to a borrow:
    the separator leaves the parent, then [node.insert_key_value]
    raises. *)
Lemma _merge_with_right_sibling_outcome (t : Z) (node_index : Z)
  (parent sib child : BTreeNode) :
  0 <= node_index -> node_index < node_len parent ->
  get_child parent (node_index + 1) = Ok sib ->
  get_child parent node_index = Ok child ->
  _cannot_safely_merge t child sib && (node_len sib >? t - 1) = false ->
  holdable parent = true ->
  _merge_with_right_sibling t node_index parent
  = (without_entry node_index parent, Raise TypeError).
Proof.
  intros Hidx Hsep Hsib Hchild Hsafe Hhold.
  destruct (holdable_parts _ Hhold) as (Hfp & _ & _).
  destruct (get_child_nonneg_inv parent (node_index + 1) sib ltac:(lia) Hsib)
    as (Hlt & _ & _).
  destruct (remove_key_value_pair_in_range parent node_index
              ltac:(lia) Hfp) as (sep & Hrm & _).
  unfold _merge_with_right_sibling.
  unfold and_then at 1. unfold this at 1.
  destruct (Z.geb_spec node_index (len (children parent) - 1)) as [|_]; [lia|].
  destruct (Z.geb_spec node_index (node_len parent)) as [|_]; [lia|].
  cbn [orb].
  unfold and_then at 1. unfold read at 1. rewrite Hsib.
  unfold and_then at 1. unfold read at 1. rewrite Hchild.
  rewrite Hsafe.
  destruct (Z.ltb_spec node_index (node_len parent)) as [_|]; [|lia].
  unfold and_then at 1. unfold and_then at 1. unfold store at 1.
  rewrite Hrm.
  rewrite (at_child_unchanged node_index _
             (without_entry node_index parent) child (Raise TypeError));
    [reflexivity | exact Hchild |].
  unfold store_. rewrite insert_key_value_raises. reflexivity.
Qed.

(** The decisions of [_fix_underflow], one after the other. *)
Lemma _fix_underflow_eq (t : Z) (child_index : Z) (parent : BTreeNode) :
  _fix_underflow t child_index parent
  = if (child_index >=? len (children parent)) || (node_len parent =? 0)
    then (parent, Ok tt)
    else
      match get_child parent child_index with
      | Raise e => (parent, Raise e)
      | Ok child =>
          if node_len child >=? t - 1 then (parent, Ok tt)
          else
            match (if child_index >? 0 then
                     left_sibling <- get_child parent (child_index - 1) ;;
                     Ok (node_len left_sibling >? t - 1)
                   else Ok false) with
            | Raise e => (parent, Raise e)
            | Ok true => _borrow_from_left_sibling child_index parent
            | Ok false =>
                match (if child_index <? len (children parent) - 1 then
                         right_sibling <- get_child parent (child_index + 1) ;;
                         Ok (node_len right_sibling >? t - 1)
                       else Ok false) with
                | Raise e => (parent, Raise e)
                | Ok true => _borrow_from_right_sibling child_index parent
                | Ok false =>
                    if (child_index >? 0) && (node_len parent >? child_index - 1)
                    then _merge_with_left_sibling t child_index parent
                    else if (child_index <? len (children parent) - 1)
                            && (node_len parent >? child_index)
                    then _merge_with_right_sibling t child_index parent
                    else (parent, Ok tt)
                end
            end
      end.
Proof.
  unfold _fix_underflow. unfold and_then at 1. unfold this at 1.
  destruct ((child_index >=? len (children parent)) || (node_len parent =? 0));
    [reflexivity|].
  unfold and_then at 1. unfold read at 1.
  destruct (get_child parent child_index) as [child|e]; [|reflexivity].
  destruct (node_len child >=? t - 1); [reflexivity|].
  unfold and_then at 1.
  destruct (child_index >? 0).
  - unfold and_then at 1. unfold read at 1.
    destruct (get_child parent (child_index - 1)) as [l|e]; [|reflexivity].
    cbn [bind]. unfold ret at 1.
    destruct (node_len l >? t - 1); [reflexivity|].
    unfold and_then at 1.
    destruct (child_index <? len (children parent) - 1).
    + unfold and_then at 1. unfold read at 1.
      destruct (get_child parent (child_index + 1)) as [r|e]; [|reflexivity].
      cbn [bind]. unfold ret at 1.
      destruct (node_len r >? t - 1); [reflexivity|].
      destruct (_ && (node_len parent >? child_index - 1)); [reflexivity|].
      destruct (_ && (node_len parent >? child_index)); reflexivity.
    + destruct (_ && (node_len parent >? child_index - 1)); [reflexivity|].
      destruct (_ && (node_len parent >? child_index)); reflexivity.
  - unfold ret at 1. unfold and_then at 1.
    destruct (child_index <? len (children parent) - 1).
    + unfold and_then at 1. unfold read at 1.
      destruct (get_child parent (child_index + 1)) as [r|e]; [|reflexivity].
      cbn [bind]. unfold ret at 1.
      destruct (node_len r >? t - 1); [reflexivity|].
      destruct (_ && (node_len parent >? child_index - 1)); [reflexivity|].
      destruct (_ && (node_len parent >? child_index)); reflexivity.
    + destruct (_ && (node_len parent >? child_index - 1)); [reflexivity|].
      destruct (_ && (node_len parent >? child_index)); reflexivity.
Qed.

Lemma entries_at_child (parent c : BTreeNode) (i : Z) :
  get_child parent i = Ok c -> entries_at parent i = node_len c.
Proof. intros H. unfold entries_at. rewrite H. reflexivity. Qed.

(** Where the parent holds the sibling the priority order designates and
    the separator before it, [_fix_underflow] runs that action and no
    other: the entries the action takes out are gone, nothing else has
    changed, and the call ends in the TypeError of the first
    [insert_key_value]. *)
Lemma _fix_underflow_outcome (t : Z) (parent child : BTreeNode) (child_index : Z) :
  0 <= child_index ->
  get_child parent child_index = Ok child ->
  node_len child < t - 1 ->
  0 <= separator_index (repair_choice t parent child_index) child_index
    < node_len parent ->
  0 <= sibling_index (repair_choice t parent child_index) child_index
    < len (children parent) ->
  holdable parent = true ->
  exists after,
    taken_out (repair_choice t parent child_index) child_index parent
    = Some after /\
    _fix_underflow t child_index parent = (after, Raise TypeError).
Proof.
  intros Hidx Hchild Hunder Hsep Hsib Hhold.
  destruct (get_child_nonneg_inv parent child_index child Hidx Hchild)
    as (Hlt & _ & _).
  pose proof (node_len_nonneg child) as Hc0.
  assert (Htaken : exists after,
             taken_out (repair_choice t parent child_index) child_index parent
             = Some after).
  { unfold taken_out.
    destruct (Z.leb_spec 0 (separator_index (repair_choice t parent child_index)
                              child_index)); [|lia].
    destruct (Z.ltb_spec (separator_index (repair_choice t parent child_index)
                            child_index) (node_len parent)); [|lia].
    destruct (Z.leb_spec 0 (sibling_index (repair_choice t parent child_index)
                              child_index)); [|lia].
    destruct (Z.ltb_spec (sibling_index (repair_choice t parent child_index)
                            child_index) (len (children parent))); [|lia].
    cbn [andb]. eauto. }
  destruct Htaken as (after & Htaken). exists after. split; [exact Htaken|].
  rewrite _fix_underflow_eq.
  destruct (Z.geb_spec child_index (len (children parent))) as [|_]; [lia|].
  destruct (Z.eqb_spec (node_len parent) 0) as [|_]; [lia|].
  cbn [orb]. rewrite Hchild.
  destruct (Z.geb_spec (node_len child) (t - 1)) as [|_]; [lia|].
  revert Hsep Hsib Htaken. unfold repair_choice, has_left_sibling, has_right_sibling.
  destruct (Z.ltb_spec 0 child_index) as [Hleft|Hnoleft].
  - (* a left sibling *)
    destruct (Z.gtb_spec child_index 0) as [_|]; [|lia].
    destruct (get_child_in_range parent (child_index - 1) ltac:(lia))
      as (l & Hl & _ & _).
    rewrite Hl, (entries_at_child _ _ _ Hl). cbn [bind andb].
    destruct (Z.gtb_spec (node_len l) (t - 1)) as [Hlend|Hnolend].
    + (* borrow from the left *)
      cbn [separator_index sibling_index]. intros Hsep Hsib Htaken.
      rewrite (_borrow_from_left_sibling_outcome child_index parent l)
        by (try assumption; lia).
      unfold taken_out in Htaken. cbn [separator_index sibling_index] in Htaken.
      destruct ((0 <=? child_index - 1) && (child_index - 1 <? node_len parent)
                && (0 <=? child_index - 1)
                && (child_index - 1 <? len (children parent)));
        [|discriminate Htaken].
      injection Htaken as <-. reflexivity.
    + destruct (Z.ltb_spec child_index (len (children parent) - 1))
        as [Hright|Hnoright].
      * destruct (get_child_in_range parent (child_index + 1) ltac:(lia))
          as (r & Hr & _ & _).
        rewrite Hr, (entries_at_child _ _ _ Hr). cbn [bind andb].
        destruct (Z.gtb_spec (node_len r) (t - 1)) as [Hrlend|Hrnolend].
        -- (* borrow from the right *)
           cbn [separator_index sibling_index]. intros Hsep Hsib Htaken.
           rewrite (_borrow_from_right_sibling_outcome child_index parent r)
             by (try assumption; lia).
           unfold taken_out in Htaken.
           cbn [separator_index sibling_index] in Htaken.
           destruct ((0 <=? child_index) && (child_index <? node_len parent)
                     && (0 <=? child_index + 1)
                     && (child_index + 1 <? len (children parent)));
             [|discriminate Htaken].
           injection Htaken as <-. reflexivity.
        -- (* merge with the left *)
           cbn [separator_index sibling_index]. intros Hsep Hsib Htaken.
           destruct (Z.gtb_spec (node_len parent) (child_index - 1)) as [_|]; [|lia].
           cbn [andb].
           rewrite (_merge_with_left_sibling_outcome t child_index parent l child);
             try assumption; try lia.
           unfold taken_out in Htaken.
           cbn [separator_index sibling_index] in Htaken.
           destruct ((0 <=? child_index - 1)
                     && (child_index - 1 <? node_len parent)
                     && (0 <=? child_index - 1)
                     && (child_index - 1 <? len (children parent)));
             [|discriminate Htaken].
           injection Htaken as <-. reflexivity.
      * (* no right sibling: merge with the left *)
        cbn [andb separator_index sibling_index]. intros Hsep Hsib Htaken.
        destruct (Z.gtb_spec (node_len parent) (child_index - 1)) as [_|]; [|lia].
        cbn [andb].
        rewrite (_merge_with_left_sibling_outcome t child_index parent l child);
          try assumption; try lia.
        unfold taken_out in Htaken.
        cbn [separator_index sibling_index] in Htaken.
        destruct ((0 <=? child_index - 1)
                  && (child_index - 1 <? node_len parent)
                  && (0 <=? child_index - 1)
                  && (child_index - 1 <? len (children parent)));
          [|discriminate Htaken].
        injection Htaken as <-. reflexivity.
  - (* no left sibling *)
    destruct (Z.gtb_spec child_index 0) as [|_]; [lia|].
    cbn [andb].
    destruct (Z.ltb_spec child_index (len (children parent) - 1))
      as [Hright|Hnoright].
    + destruct (get_child_in_range parent (child_index + 1) ltac:(lia))
        as (r & Hr & _ & _).
      rewrite Hr, (entries_at_child _ _ _ Hr). cbn [bind andb].
      destruct (Z.gtb_spec (node_len r) (t - 1)) as [Hrlend|Hrnolend].
      * (* borrow from the right *)
        cbn [separator_index sibling_index]. intros Hsep Hsib Htaken.
        rewrite (_borrow_from_right_sibling_outcome child_index parent r)
          by (try assumption; lia).
        unfold taken_out in Htaken.
        cbn [separator_index sibling_index] in Htaken.
        destruct ((0 <=? child_index) && (child_index <? node_len parent)
                  && (0 <=? child_index + 1)
                  && (child_index + 1 <? len (children parent)));
          [|discriminate Htaken].
        injection Htaken as <-. reflexivity.
      * (* merge with the right *)
        cbn [separator_index sibling_index]. intros Hsep Hsib Htaken.
        destruct (Z.gtb_spec (node_len parent) child_index) as [_|]; [|lia].
        cbn [andb].
        rewrite (_merge_with_right_sibling_outcome t child_index parent r child);
          try assumption; try lia.
        unfold taken_out in Htaken.
        cbn [separator_index sibling_index] in Htaken.
        destruct ((0 <=? child_index) && (child_index <? node_len parent)
                  && (0 <=? child_index + 1)
                  && (child_index + 1 <? len (children parent)));
          [|discriminate Htaken].
        injection Htaken as <-. reflexivity.
    + cbn [andb separator_index sibling_index]. intros Hsep Hsib Htaken. lia.
Qed.

(* ===================================================================== *)
(** ** The priority order of the repair                                    *)
(* ===================================================================== *)

(** A separator at a position of the parent's entries belongs to a child
    at a position of its children. *)
Lemma separator_gives_index (t : Z) (parent : BTreeNode) (child_index : Z) :
  0 <= separator_index (repair_choice t parent child_index) child_index ->
  0 <= child_index.
Proof.
  unfold repair_choice, has_left_sibling.
  destruct (Z.ltb_spec 0 child_index) as [|Hle]; [lia|].
  cbn [andb].
  destruct (has_right_sibling parent child_index
            && (entries_at parent (child_index + 1) >? t - 1));
    cbn [separator_index]; lia.
Qed.




(* ===================================================================== *)
(** ** How much a merge combines                                           *)
(* ===================================================================== *)

(** C7, counterexample.  Minimum degree 2, [parent_before_merge], child 1:
    the repair enters the merge with the left sibling (the separator 2
    leaves the parent).  The sibling, the separator and the child hold
    1 + 1 + 0 = 2 entries, which is not between 2(t-1)+1 = 3 and
    2t-1 = 3. *)
Lemma merge_combines_fewer_than_claimed :
  repair_choice 2 parent_before_merge 1 = MergeLeft /\
  _fix_underflow 2 1 parent_before_merge
  = (inner2 [] [leaf2 [kv 1 "a"]; leaf2 []], Raise TypeError) /\
  merge_total parent_before_merge MergeLeft 1 = 2 /\
  ~ (2 * (2 - 1) + 1 <= merge_total parent_before_merge MergeLeft 1
     <= 2 * 2 - 1).
Proof.
  split; [reflexivity|]. split; [reflexivity|]. split; [reflexivity|].
  change (merge_total parent_before_merge MergeLeft 1) with 2. lia.
Qed.

(** C7, amended.  [_fix_underflow] is called on a child with fewer than
    [t-1] entries and the priority order designates a merge, for which
    [parent] holds the sibling and the separator.  Then the sibling, the
    separator and the child together hold at most [2t-2] entries, and
    exactly [2(t-1)] when the child holds [t-2] and the sibling [t-1]:
    within the capacity [2t-1], one below the range the claim gives.
    [_cannot_safely_merge] is false of the two nodes, and the call enters
    the merge, not the borrow it would fall back to: only the separator
    is taken out before the first [insert_key_value] raises. *)
Theorem merge_stays_within_capacity
  (t : Z) (parent child : BTreeNode) (child_index : Z) :
  get_child parent child_index = Ok child ->
  node_len child < t - 1 ->
  is_merge (repair_choice t parent child_index) = true ->
  0 <= separator_index (repair_choice t parent child_index) child_index
    < node_len parent ->
  0 <= sibling_index (repair_choice t parent child_index) child_index
    < len (children parent) ->
  holdable parent = true ->
  merge_total parent (repair_choice t parent child_index) child_index
    <= 2 * t - 2 /\
  (t - 2 <= node_len child ->
   t - 1 <= entries_at parent
              (sibling_index (repair_choice t parent child_index) child_index) ->
   merge_total parent (repair_choice t parent child_index) child_index
   = 2 * (t - 1)) /\
  (exists node1 node2,
     merge_operands parent (repair_choice t parent child_index) child_index
     = Ok (node1, node2) /\
     _cannot_safely_merge t node1 node2 = false) /\
  _fix_underflow t child_index parent
  = (without_entry
       (separator_index (repair_choice t parent child_index) child_index) parent,
     Raise TypeError).
Proof.
  intros Hchild Hunder Hmerge Hsep Hsib Hhold.
  pose proof (separator_gives_index _ _ _ (proj1 Hsep)) as Hidx.
  destruct (_fix_underflow_outcome t parent child child_index
              Hidx Hchild Hunder Hsep Hsib Hhold) as (after & Htaken & Hrun).
  destruct (get_child_in_range parent
              (sibling_index (repair_choice t parent child_index) child_index)
              Hsib) as (sib & Hsibling & _ & _).
  assert (Hbound : node_len sib <= t - 1).
  { revert Hmerge Hsibling Hsib.
    unfold repair_choice, has_left_sibling, has_right_sibling.
    destruct (Z.ltb_spec 0 child_index) as [Hleft|Hnoleft]; cbn [andb].
    - destruct (Z.gtb_spec (entries_at parent (child_index - 1)) (t - 1))
        as [|Hl]; [discriminate|].
      destruct ((child_index <? len (children parent) - 1)
                && (entries_at parent (child_index + 1) >? t - 1));
        [discriminate|].
      cbn [sibling_index]. intros _ Hsibling _.
      rewrite (entries_at_child _ _ _ Hsibling) in Hl. exact Hl.
    - destruct (Z.ltb_spec child_index (len (children parent) - 1))
        as [Hright|Hnoright]; cbn [andb].
      + destruct (Z.gtb_spec (entries_at parent (child_index + 1)) (t - 1))
          as [|Hr]; [discriminate|].
        cbn [sibling_index]. intros _ Hsibling _.
        rewrite (entries_at_child _ _ _ Hsibling) in Hr. exact Hr.
      + cbn [sibling_index]. intros _ _ Hs. lia. }
  assert (Htotal : merge_total parent (repair_choice t parent child_index)
                     child_index = node_len sib + 1 + node_len child).
  { unfold merge_total.
    rewrite (entries_at_child _ _ _ Hsibling), (entries_at_child _ _ _ Hchild).
    reflexivity. }
  pose proof (node_len_nonneg sib) as Hs0.
  split; [rewrite Htotal; lia|].
  split.
  { rewrite Htotal, (entries_at_child _ _ _ Hsibling). lia. }
  split.
  { unfold merge_operands. rewrite Hsibling, Hchild. cbn [bind].
    unfold _cannot_safely_merge.
    destruct (repair_choice t parent child_index);
      eexists; eexists; (split; [reflexivity|]);
      rewrite Z.gtb_ltb; apply Z.ltb_ge; lia. }
  rewrite Hrun. f_equal.
  unfold taken_out in Htaken.
  destruct ((0 <=? separator_index (repair_choice t parent child_index) child_index)
            && (separator_index (repair_choice t parent child_index) child_index
                <? node_len parent)
            && (0 <=? sibling_index (repair_choice t parent child_index) child_index)
            && (sibling_index (repair_choice t parent child_index) child_index
                <? len (children parent))); [|discriminate Htaken].
  destruct (repair_choice t parent child_index); try discriminate Hmerge;
    injection Htaken as <-; reflexivity.
Qed.

(** In [parent_before_merge] the right leaf is empty ([t-2] entries) and
    the left leaf holds one ([t-1]): the merge is to combine 2 = 2(t-1)
    entries, and the call stops after taking the separator out. *)
Lemma merge_stays_within_capacity_witness :
  merge_total parent_before_merge (repair_choice 2 parent_before_merge 1) 1
    <= 2 * 2 - 2 /\
  merge_total parent_before_merge (repair_choice 2 parent_before_merge 1) 1
    = 2 * (2 - 1) /\
  _fix_underflow 2 1 parent_before_merge
  = (without_entry
       (separator_index (repair_choice 2 parent_before_merge 1) 1)
       parent_before_merge,
     Raise TypeError).
Proof.
  assert (Hc : get_child parent_before_merge 1 = Ok (leaf2 [])) by reflexivity.
  assert (Hu : node_len (leaf2 []) < 2 - 1) by reflexivity.
  assert (Hm : is_merge (repair_choice 2 parent_before_merge 1) = true)
    by reflexivity.
  assert (Hp : 0 <= separator_index (repair_choice 2 parent_before_merge 1) 1
               < node_len parent_before_merge)
    by (split; [vm_compute; discriminate | reflexivity]).
  assert (Hs : 0 <= sibling_index (repair_choice 2 parent_before_merge 1) 1
               < len (children parent_before_merge))
    by (split; [vm_compute; discriminate | reflexivity]).
  assert (Hh : holdable parent_before_merge = true) by reflexivity.
  destruct (merge_stays_within_capacity 2 parent_before_merge (leaf2 []) 1
              Hc Hu Hm Hp Hs Hh) as (Hle & Heq & _ & Hrun).
  split; [exact Hle|]. split; [|exact Hrun].
  apply Heq; vm_compute; discriminate.
Defined.

(* ===================================================================== *)
(** ** Entries of a node: removal by position, insertion                   *)
(* ===================================================================== *)

Lemma StronglySorted_app_intro {A : Type} (R : A -> A -> Prop) (l1 l2 : list A) :
  StronglySorted R l1 -> StronglySorted R l2 ->
  (forall x y, In x l1 -> In y l2 -> R x y) ->
  StronglySorted R (l1 ++ l2).
Proof.
  induction 1 as [|x l1 Hs IH Hall]; intros H2 Hcross; [exact H2|].
  cbn [app]. constructor.
  - apply IH; [exact H2|]. intros a b Ha Hb. apply Hcross; [right; exact Ha|exact Hb].
  - apply Forall_app. split; [exact Hall|].
    apply Forall_forall. intros y Hy. apply Hcross; [left; reflexivity|exact Hy].
Qed.

Lemma StronglySorted_app_elim {A : Type} (R : A -> A -> Prop) (l1 l2 : list A) :
  StronglySorted R (l1 ++ l2) ->
  StronglySorted R l1 /\ StronglySorted R l2 /\
  (forall x y, In x l1 -> In y l2 -> R x y).
Proof.
  induction l1 as [|x l1 IH]; cbn [app]; intros H.
  - repeat split; [constructor|exact H|intros x y []].
  - apply StronglySorted_inv in H. destruct H as [H Hall].
    destruct (IH H) as (H1 & H2 & Hcross).
    apply Forall_app in Hall. destruct Hall as [Hall1 Hall2].
    repeat split; [constructor; assumption|exact H2|].
    intros a b [<-|Ha] Hb; [|auto].
    rewrite Forall_forall in Hall2. auto.
Qed.

Lemma StronglySorted_remove_middle {A : Type} (R : A -> A -> Prop)
  (l1 l2 : list A) (x : A) :
  StronglySorted R (l1 ++ x :: l2) -> StronglySorted R (l1 ++ l2).
Proof.
  intros H. destruct (StronglySorted_app_elim _ _ _ H) as (H1 & H2 & Hcross).
  apply StronglySorted_inv in H2. destruct H2 as [H2 _].
  apply StronglySorted_app_intro; [exact H1|exact H2|].
  intros a b Ha Hb. apply Hcross; [exact Ha|right; exact Hb].
Qed.

Lemma py_pop_split {A : Type} (l : list A) (i : Z) (x : A) (rest : list A) :
  py_pop l i = Ok (x, rest) ->
  exists l1 l2, l = l1 ++ x :: l2 /\ rest = l1 ++ l2 /\
                py_index l i = Ok (length l1).
Proof.
  unfold py_pop. destruct (fits_ssize i); [|discriminate].
  destruct (py_index l i) as [n|] eqn:E; cbn [bind]; [|discriminate].
  pose proof (py_index_bound _ _ _ E) as Hn.
  destruct (nth_error l n) as [y|] eqn:Hy; [|discriminate].
  intros H.
  assert (Hx : y = x) by congruence. subst y.
  assert (Hrest : rest = firstn n l ++ skipn (S n) l) by congruence.
  destruct (nth_error_split l n Hy) as (l1 & l2 & Hl & Hlen).
  exists l1, l2. subst rest. rewrite Hl at 1 2 3. subst n.
  split; [reflexivity|]. split; [|reflexivity].
  rewrite firstn_app, firstn_all, Nat.sub_diag. cbn [firstn]. rewrite app_nil_r.
  f_equal. replace (S (length l1)) with (length l1 + 1)%nat by lia.
  rewrite skipn_app, skipn_all2 by lia.
  replace (length l1 + 1 - length l1)%nat with 1%nat by lia. reflexivity.
Qed.

(** X5.  [remove_key_value_pair(index)] follows [list.pop].  An index that
    does not fit a machine word raises OverflowError.  One that fits and
    lies in [-len, len) removes exactly one entry, the one at that
    position (counted from the end when negative), leaves the other
    entries in their order (so sorted keys stay sorted) and the children
    untouched.  One that fits and lies outside raises IndexError.  A call
    that raises leaves the node as it was. *)
Theorem remove_key_value_pair_by_position (n : BTreeNode) (i : Z) :
  (fits_ssize i = false ->
   remove_key_value_pair n i = Raise OverflowError) /\
  (fits_ssize i = true -> - node_len n <= i < node_len n ->
   exists p n' before after,
     remove_key_value_pair n i = Ok (p, n') /\
     key_value_pairs n = before ++ p :: after /\
     key_value_pairs n' = before ++ after /\
     len before = (if i <? 0 then i + node_len n else i) /\
     children n' = children n /\
     (StronglySorted Z.lt (keys_of n) -> StronglySorted Z.lt (keys_of n'))) /\
  (fits_ssize i = true -> ~ (- node_len n <= i < node_len n) ->
   remove_key_value_pair n i = Raise IndexError) /\
  (forall e, remove_key_value_pair n i = Raise e ->
             store (fun n => remove_key_value_pair n i) n = (n, Raise e)).
Proof.
  split; [|split; [|split]].
  - intros Hfit. unfold remove_key_value_pair, py_pop. rewrite Hfit. reflexivity.
  - intros Hfit Hi. unfold remove_key_value_pair.
    assert (Hidx : py_index (key_value_pairs n) i
                   = Ok (Z.to_nat (if i <? 0 then i + node_len n else i))).
    { unfold py_index, node_len in *.
      destruct (Z.ltb_spec i 0);
        match goal with |- context [(0 <=? ?j) && (?j <? ?m)] =>
          destruct (Z.leb_spec 0 j); destruct (Z.ltb_spec j m) end;
        cbn [andb]; try reflexivity; lia. }
    pose proof (py_index_bound _ _ _ Hidx) as Hb.
    destruct (nth_error (key_value_pairs n)
                (Z.to_nat (if i <? 0 then i + node_len n else i))) as [p|] eqn:Hp;
      [|apply nth_error_None in Hp; lia].
    assert (Hpop : py_pop (key_value_pairs n) i
                   = Ok (p, firstn (Z.to_nat (if i <? 0 then i + node_len n else i))
                              (key_value_pairs n)
                            ++ skipn (S (Z.to_nat (if i <? 0 then i + node_len n else i)))
                                 (key_value_pairs n))).
    { unfold py_pop. rewrite Hfit, Hidx. cbn [bind]. rewrite Hp. reflexivity. }
    destruct (py_pop_split _ _ _ _ Hpop) as (before & after & Hl & Hrest & Hlen).
    rewrite Hpop. cbn [bind].
    eexists p, _, before, after. split; [reflexivity|].
    cbn [set_pairs key_value_pairs children]. rewrite Hrest.
    split; [exact Hl|]. split; [reflexivity|]. split.
    + rewrite Hidx in Hlen. injection Hlen as Hlen. unfold len. rewrite <- Hlen.
      unfold node_len in *. destruct (i <? 0) eqn:E; [apply Z.ltb_lt in E|apply Z.ltb_ge in E]; lia.
    + split; [reflexivity|]. intros Hs. unfold keys_of in *.
      cbn [set_pairs key_value_pairs]. rewrite Hl in Hs.
      rewrite map_app in Hs. cbn [map] in Hs. rewrite map_app.
      eapply StronglySorted_remove_middle. exact Hs.
  - intros Hfit Hi. unfold remove_key_value_pair.
    rewrite py_pop_out_of_range by exact Hi. rewrite Hfit. reflexivity.
  - intros e He. unfold store. rewrite He. reflexivity.
Qed.


(** *** Exceptions of the runtime, not of the embedding *)

Lemma py_pop_raise {A : Type} (l : list A) (i : Z) (e : exn) :
  py_pop l i = Raise e -> e = IndexError \/ e = OverflowError.
Proof.
  unfold py_pop. destruct (fits_ssize i); [|intros [= <-]; auto].
  unfold py_index.
  destruct ((0 <=? (if i <? 0 then i + len l else i))
            && ((if i <? 0 then i + len l else i) <? len l)); cbn [bind].
  - destruct (nth_error l _); [discriminate|]. intros [= <-]. auto.
  - intros [= <-]. auto.
Qed.

Lemma remove_key_value_pair_raise (n : BTreeNode) (i : Z) (e : exn) :
  remove_key_value_pair n i = Raise e -> e = IndexError \/ e = OverflowError.
Proof.
  unfold remove_key_value_pair.
  destruct (py_pop (key_value_pairs n) i) as [[p rest]|e0] eqn:E;
    cbn [bind]; [discriminate|].
  intros [= <-]. exact (py_pop_raise _ _ _ E).
Qed.

Lemma py_index_raise {A : Type} (l : list A) (i : Z) (e : exn) :
  py_index l i = Raise e -> e = IndexError.
Proof.
  unfold py_index.
  destruct ((0 <=? (if i <? 0 then i + len l else i))
            && ((if i <? 0 then i + len l else i) <? len l));
    [discriminate|]. intros [= <-]. reflexivity.
Qed.

Lemma py_setitem_raise {A : Type} (l : list A) (i : Z) (x : A) (e : exn) :
  py_setitem l i x = Raise e -> e = IndexError.
Proof.
  unfold py_setitem. destruct (py_index l i) as [n|e0] eqn:E; cbn [bind];
    [discriminate|].
  intros [= <-]. exact (py_index_raise _ _ _ E).
Qed.

Lemma get_value_raise (n : BTreeNode) (i : Z) (e : exn) :
  get_value n i = Raise e -> e = IndexError.
Proof.
  unfold get_value, get_key_value_pair.
  destruct (py_getitem (key_value_pairs n) i) as [p|e0] eqn:E; cbn [bind];
    [discriminate|].
  intros [= <-]. exact (py_getitem_raise _ _ _ E).
Qed.

Lemma set_value_raise (n : BTreeNode) (i : Z) (v : V) (e : exn) :
  set_value n i v = Raise e -> e = IndexError.
Proof.
  unfold set_value, get_key_value_pair.
  destruct (py_getitem (key_value_pairs n) i) as [p|e0] eqn:E; cbn [bind].
  - destruct (py_setitem (key_value_pairs n) i (mkPair (key p) v))
      as [kvs|e1] eqn:E1; cbn [bind]; [discriminate|].
    intros [= <-]. exact (py_setitem_raise _ _ _ _ E1).
  - intros [= <-]. exact (py_getitem_raise _ _ _ E).
Qed.

(** The exception [_split_node] ends in is one of the runtime. *)
Lemma _split_node_raises (t : Z) (child_index : Z) (parent : BTreeNode) :
  exists parent' e,
    _split_node t child_index parent = (parent', Raise e) /\ e <> OutOfModel.
Proof.
  unfold _split_node, and_then, at_child.
  destruct (py_index (children parent) child_index) as [i|e] eqn:Hi.
  - destruct (nth_error (children parent) i) as [c|].
    + rewrite split_halves_outcome.
      destruct (remove_key_value_pair c (t - 1)) as [[p c']|e] eqn:Hrm.
      * eexists _, _. split; [reflexivity|].
        destruct (t <? 2); discriminate.
      * eexists _, _. split; [reflexivity|].
        destruct (remove_key_value_pair_raise _ _ _ Hrm) as [->| ->];
          discriminate.
    + eexists _, _. split; [reflexivity|discriminate].
  - eexists _, _. split; [reflexivity|].
    rewrite (py_index_raise _ _ _ Hi). discriminate.
Qed.

(** Within the height of the tree the descent of [insert] ends by itself:
    with a value or with an exception of the runtime. *)
Lemma insert_loop_in_model (fuel : nat) :
  forall (t : Z) (k : K) (v : V) (n : BTreeNode) (sz : Z),
    (height n <= fuel)%nat ->
    snd (insert_loop fuel t k v (n, sz)) <> Raise OutOfModel.
Proof.
  induction fuel as [|fuel IH]; intros t k v n sz Hh.
  { pose proof (height_pos n). lia. }
  rewrite insert_loop_step.
  destruct (find_key_index n k >=? 0).
  - destruct (get_value n (find_key_index n k)) as [old|e] eqn:Hget.
    + destruct (set_value n (find_key_index n k) v) as [n'|e] eqn:Hset;
        cbn [snd]; [discriminate|].
      rewrite (set_value_raise _ _ _ _ Hset). discriminate.
    + cbn [snd]. rewrite (get_value_raise _ _ _ Hget). discriminate.
  - destruct (is_leaf n); [cbn [snd]; discriminate|].
    destruct (get_child n (get_child_index n k)) as [child|e] eqn:Hchild.
    + destruct (is_full child).
      * destruct (_split_node_raises t (get_child_index n k) n)
          as (p' & e & -> & He).
        cbn [fst snd]. intros [= ->]. apply He. reflexivity.
      * destruct (get_child_parts _ _ _ Hchild) as (i & Hi & Hc).
        rewrite (at_child_sized_parts _ _ _ _ _ _ Hi Hc). cbn [snd].
        apply IH.
        pose proof (height_child n child (nth_error_In _ _ Hc)). lia.
    + cbn [snd]. unfold get_child in Hchild.
      rewrite (py_getitem_raise _ _ _ Hchild). discriminate.
Qed.

Lemma insert_in_model (k : K) (v : V) (tr : BTreeIndex) :
  snd (insert k v tr) <> Raise OutOfModel.
Proof.
  unfold insert. unfold and_then at 1. unfold this at 1.
  destruct (is_empty tr).
  - unfold and_then, on_root, on_node, store_. cbn [fst snd].
    rewrite insert_key_value_raises. cbn [snd]. discriminate.
  - destruct (is_full (root tr)).
    + unfold and_then at 1. unfold split_root, and_then, expr.
      rewrite BTreeNode_init_outcome. cbn [snd].
      destruct (index_min_degree tr <? 2); discriminate.
    + unfold and_then, ret, this, on_root.
      pose proof (insert_loop_in_model (height (root tr)) (index_min_degree tr)
                    k v (root tr) (size tr) (Nat.le_refl _)) as H.
      destruct (insert_loop (height (root tr)) (index_min_degree tr) k v
                  (root tr, size tr)) as [[n' sz'] r].
      cbn [fst snd] in *. exact H.
Qed.

(* ===================================================================== *)
(** ** Splits and inserts that do not return                               *)
(* ===================================================================== *)

(** X6.  [_split_node(current, parent)] never returns: it ends in an
    exception of the runtime.  Where [current],
    the child of [parent] at [child_index], holds an entry at index [t-1]
    (as a full node does), the call takes that median entry out of
    [current], then raises at [BTreeNode(...)]: TypeError for [t >= 2].
    The median is stored nowhere afterwards: [parent] is as before but for
    the shortened child. *)
Theorem split_node_drops_the_median
  (t : Z) (child_index : Z) (parent current : BTreeNode) :
  (exists parent' e,
     _split_node t child_index parent = (parent', Raise e) /\ e <> OutOfModel) /\
  (0 <= child_index -> get_child parent child_index = Ok current ->
   0 <= t - 1 < node_len current -> node_len current < 2 ^ 63 ->
   _split_node t child_index parent
   = (with_child child_index (without_entry (t - 1)) parent,
      Raise (if t <? 2 then ValueError else TypeError))).
Proof.
  split; [apply _split_node_raises|].
  intros Hidx Hget Hmid Hfit.
  destruct (get_child_nonneg_inv parent child_index current Hidx Hget)
    as (_ & Hi & Hnth).
  destruct (remove_key_value_pair_in_range current (t - 1) Hmid Hfit)
    as (p & Hrm & _).
  unfold _split_node. unfold and_then at 1.
  rewrite (at_child_parts _ _ _ _ _ Hi Hnth), split_halves_outcome, Hrm.
  cbn [fst snd]. rewrite (with_child_eq _ _ _ current) by exact Hnth.
  reflexivity.
Qed.

(** A full leaf [3, 4, 5] under a root: the split takes 4 out and raises. *)
Lemma split_node_drops_the_median_witness :
  _split_node 2 1 (root tree_1_to_5)
  = (inner2 [kv 2 "b"] [leaf2 [kv 1 "a"]; leaf2 [kv 3 "c"; kv 5 "e"]],
     Raise TypeError).
Proof.
  apply (proj2 (split_node_drops_the_median 2 1 (root tree_1_to_5)
                  (leaf2 [kv 3 "c"; kv 4 "d"; kv 5 "e"]))).
  - lia.
  - reflexivity.
  - split; [vm_compute; discriminate | reflexivity].
  - reflexivity.
Defined.

Lemma overwritten_was_stored (k : K) (v old : V) (n n' : BTreeNode) :
  overwritten k v old n n' -> In (mkPair k old) (subtree_pairs n).
Proof.
  induction 1 as [n kvs Hfound Hget Hpy
                 | n i child child' Hmiss Hleaf Hi Hc Hfull Hover IH].
  - destruct (get_value_hit n k Hfound) as (v0 & Hv0 & Hin).
    assert (v0 = old) as -> by congruence.
    rewrite subtree_pairs_eq. apply in_or_app. left. exact Hin.
  - apply (in_subtree_pairs_child _ child); [|exact IH].
    eapply nth_error_In. exact Hc.
Qed.

(** X7.  [insert] returns only as an update in place.  If
    [insert(k, v)] returns [old], then [(k, old)] was stored and
    [search(k)] gave [old]; afterwards [(k, v)] is stored, [search(k)]
    gives [v], and the size, the minimum degree and the height of the
    tree are what they were.  Hence an [insert] of a key that is stored
    nowhere raises an exception of the runtime, on every tree: the code as
    written adds no key. *)
Theorem insert_returns_only_as_update (k : K) (v : V) (tr : BTreeIndex) :
  (forall tr' old,
     insert k v tr = (tr', Ok old) ->
     In (mkPair k old) (subtree_pairs (root tr)) /\
     search tr k = Ok old /\
     In (mkPair k v) (subtree_pairs (root tr')) /\
     search tr' k = Ok v /\
     size tr' = size tr /\
     index_min_degree tr' = index_min_degree tr /\
     height (root tr') = height (root tr)) /\
  (~ In k (map key (subtree_pairs (root tr))) ->
   exists tr' e, insert k v tr = (tr', Raise e) /\ e <> OutOfModel).
Proof.
  assert (Hret : forall tr' old,
     insert k v tr = (tr', Ok old) ->
     In (mkPair k old) (subtree_pairs (root tr)) /\
     search tr k = Ok old /\
     In (mkPair k v) (subtree_pairs (root tr')) /\
     search tr' k = Ok v /\
     size tr' = size tr /\
     index_min_degree tr' = index_min_degree tr /\
     height (root tr') = height (root tr)).
  { intros tr' old H. apply insert_returns_iff in H.
    destruct H as (Hempty & _ & n' & Hover & ->).
    destruct (search_after_overwrite _ _ _ _ _ Hempty Hover) as [Hb Ha].
    destruct (overwritten_shape _ _ _ _ _ Hover) as (_ & _ & _ & _ & Hh).
    split; [exact (overwritten_was_stored _ _ _ _ _ Hover)|].
    split; [exact Hb|].
    split; [exact (overwritten_stored _ _ _ _ _ Hover)|].
    split; [exact Ha|]. cbn [size index_min_degree root]. auto. }
  split; [exact Hret|].
  intros Hout. pose proof (insert_in_model k v tr) as Hmodel.
  destruct (insert k v tr) as [tr' [old|e]] eqn:H.
  - exfalso. apply Hout. destruct (Hret tr' old eq_refl) as (Hin & _).
    apply (in_map key) in Hin. exact Hin.
  - exists tr', e. split; [reflexivity|].
    intros ->. apply Hmodel. reflexivity.
Qed.

(** On [tree_1_to_5]: [insert(1, "z")] returns ["a"], and [insert(9, "z")]
    raises. *)
Lemma insert_returns_only_as_update_witness :
  (exists tr', insert 1 (PyStr "z") tree_1_to_5 = (tr', Ok (PyStr "a"))
               /\ search tr' 1 = Ok (PyStr "z") /\ size tr' = 5) /\
  (exists tr' e, insert 9 (PyStr "z") tree_1_to_5 = (tr', Raise e)
                 /\ e <> OutOfModel).
Proof.
  split.
  - exists (mkIndex 2
              (inner2 [kv 2 "b"]
                 [leaf2 [kv 1 "z"]; leaf2 [kv 3 "c"; kv 4 "d"; kv 5 "e"]])
              5).
    split; [reflexivity|].
    destruct (proj1 (insert_returns_only_as_update 1 (PyStr "z") tree_1_to_5)
                _ (PyStr "a") eq_refl) as (_ & _ & _ & Hs & Hsz & _).
    split; [exact Hs | exact Hsz].
  - apply (proj2 (insert_returns_only_as_update 9 (PyStr "z") tree_1_to_5)).
    cbn. intros H. repeat (destruct H as [H|H]; [discriminate H|]). exact H.
Defined.

(* ===================================================================== *)
(** ** Deletion as written                                                 *)
(* ===================================================================== *)

(** A round of [_delete_from_node] in a node that does not hold the key. *)
Lemma _delete_from_node_miss (fuel : nat) (t : Z) (k : K) (n : BTreeNode) (sz : Z) :
  find_key_index n k < 0 ->
  _delete_from_node (S fuel) t k (n, sz)
  = if is_leaf n then ((n, sz), Ok PyNone)
    else
      (result <~ at_child_sized (get_child_index n k) (_delete_from_node fuel t k) ;;
       _ <~ on_node (check_underflow t (get_child_index n k)) ;;
       ret result) (n, sz).
Proof.
  intros Hmiss. cbn [_delete_from_node]. unfold and_then at 1. unfold this at 1.
  cbn [fst snd].
  destruct (Z.geb_spec (find_key_index n k) 0) as [|_]; [lia|].
  destruct (is_leaf n); reflexivity.
Qed.

(** The check after a deletion below: nothing to repair when the child
    still holds [t-1] entries. *)
Lemma check_underflow_enough (t : Z) (index : Z) (current child : BTreeNode) :
  get_child current index = Ok child ->
  t - 1 <= node_len child ->
  check_underflow t index current = (current, Ok tt).
Proof.
  intros Hget Hlen. unfold check_underflow, and_then, this, read, ret.
  destruct (index <? len (children current)); [|reflexivity].
  rewrite Hget. destruct (Z.ltb_spec (node_len child) (t - 1)); [lia|].
  reflexivity.
Qed.

(** The child [search] descends to in a node of a searchable tree that
    does not hold the key. *)
Lemma descent_child (n : BTreeNode) (k : K) :
  searchable n = true -> is_leaf n = false -> find_key_index n k < 0 ->
  exists c, get_child n (get_child_index n k) = Ok c /\
            py_index (children n) (get_child_index n k)
            = Ok (Z.to_nat (get_child_index n k)) /\
            nth_error (children n) (Z.to_nat (get_child_index n k)) = Some c.
Proof.
  intros Hshape Hleaf Hmiss.
  destruct (searchable_parts n Hshape) as (Hs & _ & Hinner & _).
  destruct (Hinner Hleaf) as [Hcount _].
  pose proof (find_key_index_miss n k Hs Hmiss) as Hnot.
  rewrite (get_child_index_absent n k Hs Hnot).
  pose proof (insertion_point_nonneg (keys_of n) k) as Hip0.
  assert (Hip : insertion_point (keys_of n) k <= node_len n).
  { unfold insertion_point, node_len, len.
    pose proof (filter_length_le (fun x => x <? k) (keys_of n)) as Hf.
    unfold keys_of in *. rewrite length_map in Hf. lia. }
  apply get_child_in_range. lia.
Qed.

Lemma not_stored_below (n c : BTreeNode) (k : K) :
  ~ In k (Invariants.subtree_keys n) -> In c (children n) ->
  ~ In k (Invariants.subtree_keys c).
Proof.
  intros Hout Hc Hk. apply Hout. rewrite subtree_keys_eq.
  apply in_or_app. right. apply in_flat_map. eauto.
Qed.

Lemma not_stored_here (n : BTreeNode) (k : K) :
  ~ In k (Invariants.subtree_keys n) -> find_key_index n k < 0.
Proof.
  intros Hout. destruct (Z.lt_ge_cases (find_key_index n k) 0) as [H|H];
    [exact H|].
  exfalso. apply Hout. destruct (get_value_hit n k H) as (v & _ & Hin).
  rewrite subtree_keys_eq. apply in_or_app. left.
  apply (in_map key _ _ Hin).
Qed.

(** Deleting a key that is stored nowhere below [n] leaves [n] and the
    size alone and returns [None]. *)
Lemma _delete_from_node_absent (t : Z) (k : K) (fuel : nat) :
  forall (n : BTreeNode) (sz : Z),
    (height n <= fuel)%nat ->
    searchable n = true ->
    forallb (Invariants.forall_nodes
               (fun n => (t - 1 <=? node_len n) && (node_len n <=? 2 * t - 1)))
      (children n) = true ->
    ~ In k (Invariants.subtree_keys n) ->
    _delete_from_node fuel t k (n, sz) = ((n, sz), Ok PyNone).
Proof.
  induction fuel as [|fuel IH]; intros n sz Hh Hshape Hocc Hout.
  { pose proof (height_pos n). lia. }
  pose proof (not_stored_here n k Hout) as Hmiss.
  rewrite (_delete_from_node_miss _ _ _ _ _ Hmiss).
  destruct (is_leaf n) eqn:Hleaf; [reflexivity|].
  destruct (descent_child n k Hshape Hleaf Hmiss) as (c & Hget & Hi & Hnth).
  assert (Hcin : In c (children n)) by (eapply nth_error_In; exact Hnth).
  destruct (searchable_parts n Hshape) as (_ & _ & _ & Hsub).
  rewrite forallb_forall in Hocc. specialize (Hocc c Hcin).
  rewrite forall_nodes_eq in Hocc. apply andb_prop in Hocc.
  destruct Hocc as [Hc Hbelow]. apply andb_prop in Hc. destruct Hc as [Hmin _].
  apply Z.leb_le in Hmin.
  pose proof (height_child n c Hcin) as Hlt.
  unfold and_then at 1.
  rewrite (at_child_sized_parts _ _ _ _ _ _ Hi Hnth).
  rewrite (IH c sz ltac:(lia) (Hsub c Hcin) Hbelow (not_stored_below n c k Hout Hcin)).
  cbn [fst snd]. rewrite (replaced_same _ _ _ Hnth), set_children_same.
  unfold and_then, on_node. cbn [fst snd].
  rewrite (check_underflow_enough t _ n c Hget Hmin). reflexivity.
Qed.

(** X10.  Deleting what is not there changes nothing.  On a tree of the
    shape [search] relies on whose nodes below the root hold between
    [t-1] and [2t-1] entries, [delete(k)] of a key that is stored nowhere
    returns [None], keeps the size and the stored pairs, and leaves the
    tree exactly as it was unless the root is a non-leaf without entries,
    which [delete] replaces by its first child. *)
Theorem delete_of_absent_key (tr : BTreeIndex) (k : K) :
  searchable (root tr) = true ->
  Invariants.occupancy (index_min_degree tr) (root tr) = true ->
  ~ In k (Invariants.subtree_keys (root tr)) ->
  exists tr',
    delete k tr = (tr', Ok PyNone) /\
    size tr' = size tr /\
    index_min_degree tr' = index_min_degree tr /\
    subtree_pairs (root tr') = subtree_pairs (root tr) /\
    ((0 <? node_len (root tr)) || is_leaf (root tr) = true -> tr' = tr).
Proof.
  intros Hshape Hocc Hout. unfold delete. unfold and_then at 1. unfold this at 1.
  destruct (is_empty tr) eqn:Hempty.
  { exists tr. unfold ret. repeat split; reflexivity. }
  unfold Invariants.occupancy in Hocc. apply andb_prop in Hocc.
  destruct Hocc as [_ Hocc].
  unfold and_then at 1. unfold on_root at 1.
  rewrite (_delete_from_node_absent (index_min_degree tr) k (height (root tr))
             (root tr) (size tr) (Nat.le_refl _) Hshape Hocc Hout).
  cbn [fst snd].
  assert (Hsame : mkIndex (index_min_degree tr) (root tr) (size tr) = tr)
    by (destruct tr; reflexivity).
  rewrite Hsame. unfold and_then at 1. unfold this at 1.
  destruct (Z.eqb_spec (node_len (root tr)) 0) as [Hzero|Hpos].
  - destruct (is_leaf (root tr)) eqn:Hleaf; cbn [negb andb].
    + exists tr. unfold and_then, ret. repeat split; reflexivity.
    + destruct (searchable_parts _ Hshape) as (_ & _ & Hinner & _).
      destruct (Hinner Hleaf) as [Hcount _].
      destruct (get_child_in_range (root tr) 0 ltac:(lia)) as (c & Hget & _ & Hnth).
      exists (mkIndex (index_min_degree tr) c (size tr)).
      unfold and_then, read, ret. rewrite Hget.
      split; [reflexivity|]. split; [reflexivity|]. split; [reflexivity|].
      split.
      * cbn [root]. rewrite (subtree_pairs_eq (root tr)).
        assert (Hkvs : key_value_pairs (root tr) = []).
        { unfold node_len, len in Hzero.
          destruct (key_value_pairs (root tr)); [reflexivity|cbn in Hzero; lia]. }
        rewrite Hkvs. cbn [app].
        assert (Hcs : children (root tr) = [c]).
        { rewrite Hzero in Hcount. unfold len in Hcount.
          destruct (children (root tr)) as [|c0 [|c1 cs]]; cbn in Hcount; try lia.
          cbn in Hnth. injection Hnth as ->. reflexivity. }
        rewrite Hcs. cbn [flat_map]. rewrite app_nil_r. reflexivity.
      * rewrite Hzero. cbn [orb Z.ltb Z.compare]. discriminate.
  - cbn [andb]. exists tr. unfold and_then, ret. repeat split; reflexivity.
Qed.

(** On [tree_1_to_5], [delete(9)] returns [None] and leaves the tree as it
    was. *)
Lemma delete_of_absent_key_witness :
  delete 9 tree_1_to_5 = (tree_1_to_5, Ok PyNone).
Proof.
  assert (Hshape : searchable (root tree_1_to_5) = true) by reflexivity.
  assert (Hocc : Invariants.occupancy (index_min_degree tree_1_to_5)
                   (root tree_1_to_5) = true) by reflexivity.
  assert (Hout : ~ In 9 (Invariants.subtree_keys (root tree_1_to_5))).
  { cbn. intros H. repeat (destruct H as [H|H]; [discriminate H|]). exact H. }
  destruct (delete_of_absent_key tree_1_to_5 9 Hshape Hocc Hout)
    as (tr' & Hdel & _ & _ & _ & Hsame).
  rewrite Hdel. rewrite (Hsame eq_refl). reflexivity.
Defined.

(** *** Removal from a leaf that keeps enough entries *)

(** A round of [_delete_from_node] in a leaf that holds the key. *)
Lemma _delete_from_node_leaf_hit (fuel : nat) (t : Z) (k : K)
  (n : BTreeNode) (sz : Z) :
  0 <= find_key_index n k -> is_leaf n = true ->
  _delete_from_node (S fuel) t k (n, sz)
  = match remove_key_value_pair n (find_key_index n k) with
    | Ok (removed, n') => ((n', sz + -1), Ok (value removed))
    | Raise e => ((n, sz), Raise e)
    end.
Proof.
  intros Hhit Hleaf. cbn [_delete_from_node]. unfold and_then at 1.
  unfold this at 1. cbn [fst snd].
  destruct (Z.geb_spec (find_key_index n k) 0) as [_|]; [|lia].
  rewrite Hleaf. unfold and_then, on_node, store, add_to_size, ret.
  cbn [fst snd].
  destruct (remove_key_value_pair n (find_key_index n k)) as [[removed n']|e];
    reflexivity.
Qed.

Lemma remove_found_entry (n : BTreeNode) (k : K) (v : V) :
  0 <= find_key_index n k ->
  fits_ssize (find_key_index n k) = true ->
  get_value n (find_key_index n k) = Ok v ->
  remove_key_value_pair n (find_key_index n k)
  = Ok (mkPair k v, without_entry (find_key_index n k) n) /\
  nth_error (key_value_pairs n) (Z.to_nat (find_key_index n k))
  = Some (mkPair k v).
Proof.
  intros Hhit Hfit Hget.
  destruct (find_key_index_hit n k Hhit) as (p & Hp & Hk & Hlt).
  assert (Hrange : 0 <= find_key_index n k < len (key_value_pairs n))
    by (unfold node_len in Hlt; lia).
  assert (Hpv : p = mkPair k v).
  { unfold get_value, get_key_value_pair in Hget.
    destruct (py_getitem_in_range _ _ Hrange) as (x & Hx & Hnth).
    rewrite Hx in Hget. cbn [bind] in Hget. injection Hget as Hv.
    assert (x = p) as -> by congruence.
    destruct p as [pk pv]. cbn [key value] in *. congruence. }
  subst p. split; [|exact Hp].
  unfold remove_key_value_pair, py_pop. rewrite Hfit.
  rewrite py_index_in_range by exact Hrange. cbn [bind]. rewrite Hp.
  reflexivity.
Qed.

Lemma taken_from_leaf_runs (t : Z) (k : K) (v : V) (n n' : BTreeNode) :
  taken_from_leaf t k v n n' ->
  forall (fuel : nat) (sz : Z),
    (height n <= fuel)%nat ->
    _delete_from_node fuel t k (n, sz) = ((n', sz - 1), Ok v).
Proof.
  induction 1 as [n Hhit Hfit Hleaf Hget
                 | n i child child' Hmiss Hleaf Hi Hc Htaken IH Hroom];
    intros fuel sz Hfuel;
    (destruct fuel as [|fuel]; [pose proof (height_pos n); lia|]).
  - rewrite (_delete_from_node_leaf_hit _ _ _ _ _ Hhit Hleaf).
    destruct (remove_found_entry n k v Hhit Hfit Hget) as [-> _].
    reflexivity.
  - rewrite (_delete_from_node_miss _ _ _ _ _ Hmiss), Hleaf.
    pose proof (py_index_bound _ _ _ Hi) as Hlt.
    unfold and_then at 1.
    rewrite (at_child_sized_parts _ _ _ _ _ _ Hi Hc).
    assert (Hh : (height child <= fuel)%nat).
    { pose proof (height_child n child (nth_error_In _ _ Hc)). lia. }
    rewrite (IH fuel sz Hh). cbn [fst snd].
    unfold and_then, on_node. cbn [fst snd].
    rewrite (check_underflow_enough t _ _ child'); [reflexivity| |exact Hroom].
    apply (get_child_of_parts _ _ i).
    + unfold set_children. cbn [children].
      rewrite (py_index_same_length (children n)); [exact Hi|].
      apply length_replaced. exact Hlt.
    + unfold set_children. cbn [children]. apply nth_error_replaced. exact Hlt.
Qed.

Lemma skipn_nth_error {A : Type} (l : list A) (i : nat) (x : A) :
  nth_error l i = Some x -> skipn i l = x :: skipn (S i) l.
Proof.
  revert l. induction i as [|i IH]; intros [|y l] H; try discriminate H.
  - injection H as ->. reflexivity.
  - cbn [nth_error] in H. rewrite !skipn_cons. apply IH. exact H.
Qed.

Lemma height_replaced (n : BTreeNode) (i : nat) (child child' : BTreeNode) :
  nth_error (children n) i = Some child ->
  height child' = height child ->
  height (set_children n
            (firstn i (children n) ++ child' :: skipn (S i) (children n)))
  = height n.
Proof.
  intros Hc Hh. rewrite !height_eq. unfold set_children. cbn [children].
  f_equal. rewrite <- (firstn_skipn i (children n)) at 3.
  rewrite !fold_right_app. f_equal.
  rewrite (skipn_nth_error _ _ _ Hc). cbn [fold_right]. rewrite Hh.
  reflexivity.
Qed.

Lemma taken_from_leaf_shape (t : Z) (k : K) (v : V) (n n' : BTreeNode) :
  taken_from_leaf t k v n n' ->
  is_leaf n' = is_leaf n /\ height n' = height n /\
  (is_leaf n = false -> node_len n' = node_len n).
Proof.
  induction 1 as [n Hhit Hfit Hleaf Hget
                 | n i child child' Hmiss Hleaf Hi Hc Htaken IH Hroom].
  - split; [reflexivity|]. split; [rewrite !height_eq; reflexivity|].
    rewrite Hleaf. discriminate.
  - destruct IH as (_ & Hh & _).
    split; [reflexivity|]. split; [|reflexivity].
    apply (height_replaced n i child child' Hc Hh).
Qed.

Lemma sorted_without_key (kvs l1 l2 : list KeyValuePair) (p : KeyValuePair) :
  StronglySorted Z.lt (map key kvs) ->
  kvs = l1 ++ p :: l2 ->
  ~ In (key p) (map key (l1 ++ l2)).
Proof.
  intros Hs -> Hin. rewrite map_app in Hs. cbn [map] in Hs.
  destruct (StronglySorted_app_elim _ _ _ Hs) as (_ & H2 & Hcross).
  apply StronglySorted_inv in H2. destruct H2 as [_ Hall].
  rewrite Forall_forall in Hall.
  rewrite map_app in Hin. apply in_app_or in Hin. destruct Hin as [Hin|Hin].
  - specialize (Hcross (key p) (key p) Hin (or_introl eq_refl)). lia.
  - specialize (Hall (key p) Hin). lia.
Qed.

Lemma without_split {A : Type} (l l1 l2 : list A) (x : A) :
  l = l1 ++ x :: l2 -> without (length l1) l = l1 ++ l2.
Proof.
  intros ->. unfold without.
  rewrite firstn_app, firstn_all, Nat.sub_diag. cbn [firstn].
  rewrite app_nil_r. f_equal.
  replace (S (length l1)) with (length l1 + 1)%nat by lia.
  rewrite skipn_app, skipn_all2 by lia.
  replace (length l1 + 1 - length l1)%nat with 1%nat by lia. reflexivity.
Qed.

(** After the removal the key is found nowhere on its path. *)
Lemma taken_from_leaf_search_after (t : Z) (k : K) (v : V) (n n' : BTreeNode) :
  taken_from_leaf t k v n n' ->
  Invariants.keys_increasing n = true ->
  forall fuel, (height n <= fuel)%nat -> search_loop fuel n' k = Ok PyNone.
Proof.
  induction 1 as [n Hhit Hfit Hleaf Hget
                 | n i child child' Hmiss Hleaf Hi Hc Htaken IH Hroom];
    intros Hsorted fuel Hfuel;
    (destruct fuel as [|fuel]; [pose proof (height_pos n); lia|]);
    cbn [search_loop].
  - destruct (remove_found_entry n k v Hhit Hfit Hget) as [_ Hnth].
    destruct (nth_error_split _ _ Hnth) as (l1 & l2 & Hl & Hlen).
    assert (Hs : StronglySorted Z.lt (keys_of n)).
    { apply strictly_increasing_sorted.
      exact (forall_nodes_here _ _ Hsorted). }
    assert (Hkvs : key_value_pairs (without_entry (find_key_index n k) n)
                   = l1 ++ l2).
    { unfold without_entry, set_pairs. cbn [key_value_pairs].
      rewrite <- Hlen. apply (without_split _ _ _ _ Hl). }
    assert (Hgone : find_key_index (without_entry (find_key_index n k) n) k < 0).
    { destruct (Z.lt_ge_cases
                  (find_key_index (without_entry (find_key_index n k) n) k) 0)
        as [H|H]; [exact H|].
      exfalso. destruct (get_value_hit _ k H) as (v0 & _ & Hin).
      rewrite Hkvs in Hin.
      apply (sorted_without_key _ l1 l2 (mkPair k v) Hs Hl).
      apply (in_map key _ _ Hin). }
    destruct (Z.geb_spec (find_key_index (without_entry (find_key_index n k) n) k) 0)
      as [|_]; [lia|].
    change (is_leaf (without_entry (find_key_index n k) n)) with (is_leaf n).
    rewrite Hleaf. reflexivity.
  - pose proof (py_index_bound _ _ _ Hi) as Hlt.
    set (n' := set_children n _).
    assert (Hkeys : keys_of n' = keys_of n) by reflexivity.
    rewrite (find_key_index_keys n n' k Hkeys),
            (get_child_index_keys n n' k Hkeys).
    destruct (Z.geb_spec (find_key_index n k) 0) as [|_]; [lia|].
    change (is_leaf n') with (is_leaf n). rewrite Hleaf.
    assert (Hget : get_child n' (get_child_index n k) = Ok child').
    { apply (get_child_of_parts _ _ i).
      - unfold n', set_children. cbn [children].
        rewrite (py_index_same_length (children n)); [exact Hi|].
        apply length_replaced. exact Hlt.
      - unfold n', set_children. cbn [children].
        apply nth_error_replaced. exact Hlt. }
    rewrite Hget. cbn [bind].
    apply IH.
    + apply (forall_nodes_child _ n child Hsorted). eapply nth_error_In. exact Hc.
    + pose proof (height_child n child (nth_error_In _ _ Hc)). lia.
Qed.

Lemma taken_from_leaf_search_before (t : Z) (k : K) (v : V) (n n' : BTreeNode) :
  taken_from_leaf t k v n n' ->
  forall fuel, (height n <= fuel)%nat -> search_loop fuel n k = Ok v.
Proof.
  induction 1 as [n Hhit Hfit Hleaf Hget
                 | n i child child' Hmiss Hleaf Hi Hc Htaken IH Hroom];
    intros fuel Hfuel;
    (destruct fuel as [|fuel]; [pose proof (height_pos n); lia|]);
    cbn [search_loop].
  - destruct (Z.geb_spec (find_key_index n k) 0) as [_|]; [|lia]. exact Hget.
  - destruct (Z.geb_spec (find_key_index n k) 0) as [|_]; [lia|].
    rewrite Hleaf, (get_child_of_parts _ _ _ _ Hi Hc). cbn [bind].
    apply IH. pose proof (height_child n child (nth_error_In _ _ Hc)). lia.
Qed.

(** Exactly one pair leaves the tree, the others stay in their order. *)
Lemma taken_from_leaf_pairs (t : Z) (k : K) (v : V) (n n' : BTreeNode) :
  taken_from_leaf t k v n n' ->
  exists l1 l2,
    subtree_pairs n = l1 ++ mkPair k v :: l2 /\ subtree_pairs n' = l1 ++ l2.
Proof.
  induction 1 as [n Hhit Hfit Hleaf Hget
                 | n i child child' Hmiss Hleaf Hi Hc Htaken IH Hroom].
  - destruct (remove_found_entry n k v Hhit Hfit Hget) as [_ Hnth].
    destruct (nth_error_split _ _ Hnth) as (l1 & l2 & Hl & Hlen).
    exists l1, (l2 ++ flat_map subtree_pairs (children n)).
    rewrite !subtree_pairs_eq. unfold without_entry, set_pairs.
    cbn [key_value_pairs children].
    rewrite <- Hlen, (without_split _ _ _ _ Hl), Hl.
    rewrite <- !app_assoc. split; reflexivity.
  - destruct IH as (l1 & l2 & Hbefore & Hafter).
    exists (key_value_pairs n
            ++ flat_map subtree_pairs (firstn i (children n)) ++ l1),
           (l2 ++ flat_map subtree_pairs (skipn (S i) (children n))).
    rewrite !subtree_pairs_eq. unfold set_children.
    cbn [key_value_pairs children]. split.
    + rewrite <- (replaced_same _ _ _ Hc) at 1.
      rewrite flat_map_app. cbn [flat_map]. rewrite Hbefore.
      rewrite <- !app_assoc. reflexivity.
    + rewrite flat_map_app. cbn [flat_map]. rewrite Hafter.
      rewrite <- !app_assoc. reflexivity.
Qed.

(** X11.  Deleting from a leaf that keeps enough entries.  Let the
    descent for [k] end in a leaf that binds [k] to [v], with every node
    on the path below the root left with at least [t-1] entries once the
    entry is taken out (the leaf held more than [t-1], or it is the
    root).  On a tree whose size is not 0, whose root holds an entry and
    whose nodes have strictly increasing keys, [delete(k)] returns [v],
    lowers the size by one and takes exactly that pair out: [search(k)],
    which gave [v] before, gives [None] afterwards, and the other pairs
    stay in their order. *)
Theorem delete_from_leaf_with_room
  (tr : BTreeIndex) (k : K) (v : V) (n' : BTreeNode) :
  is_empty tr = false ->
  0 < node_len (root tr) ->
  Invariants.keys_increasing (root tr) = true ->
  taken_from_leaf (index_min_degree tr) k v (root tr) n' ->
  delete k tr = (mkIndex (index_min_degree tr) n' (size tr - 1), Ok v) /\
  search tr k = Ok v /\
  search (mkIndex (index_min_degree tr) n' (size tr - 1)) k = Ok PyNone /\
  exists l1 l2,
    subtree_pairs (root tr) = l1 ++ mkPair k v :: l2 /\
    subtree_pairs n' = l1 ++ l2.
Proof.
  intros Hempty Hroot Hsorted Htaken.
  destruct (taken_from_leaf_shape _ _ _ _ _ Htaken) as (Hleaf & Hheight & Hlen).
  split; [|split; [|split]].
  - unfold delete. unfold and_then at 1. unfold this at 1. rewrite Hempty.
    unfold and_then at 1. unfold on_root at 1.
    rewrite (taken_from_leaf_runs _ _ _ _ _ Htaken (height (root tr)) (size tr)
               (Nat.le_refl _)).
    cbn [fst snd]. unfold and_then at 1. unfold this at 1. cbn [root].
    rewrite Hleaf.
    destruct (is_leaf (root tr)) eqn:Hl.
    + rewrite andb_false_r. reflexivity.
    + rewrite (Hlen eq_refl).
      destruct (Z.eqb_spec (node_len (root tr)) 0) as [|_]; [lia|].
      reflexivity.
  - unfold search. rewrite Hempty.
    apply (taken_from_leaf_search_before _ _ _ _ _ Htaken). apply Nat.le_refl.
  - unfold search. cbn [root].
    destruct (is_empty (mkIndex (index_min_degree tr) n' (size tr - 1)));
      [reflexivity|].
    apply (taken_from_leaf_search_after _ _ _ _ _ Htaken Hsorted).
    rewrite Hheight. apply Nat.le_refl.
  - exact (taken_from_leaf_pairs _ _ _ _ _ Htaken).
Qed.

(** On [tree_1_to_5], [delete(4)] takes 4 out of the leaf [3, 4, 5], which
    keeps two entries. *)
Lemma delete_from_leaf_with_room_witness :
  delete 4 tree_1_to_5
  = (mkIndex 2
       (inner2 [kv 2 "b"] [leaf2 [kv 1 "a"]; leaf2 [kv 3 "c"; kv 5 "e"]]) 4,
     Ok (PyStr "d")) /\
  search (mkIndex 2
            (inner2 [kv 2 "b"] [leaf2 [kv 1 "a"]; leaf2 [kv 3 "c"; kv 5 "e"]]) 4)
    4 = Ok PyNone.
Proof.
  assert (Htaken : taken_from_leaf (index_min_degree tree_1_to_5) 4 (PyStr "d")
                     (root tree_1_to_5)
                     (inner2 [kv 2 "b"]
                        [leaf2 [kv 1 "a"]; leaf2 [kv 3 "c"; kv 5 "e"]])).
  { apply (taken_below 2 4 (PyStr "d") (root tree_1_to_5) 1
             (leaf2 [kv 3 "c"; kv 4 "d"; kv 5 "e"])
             (leaf2 [kv 3 "c"; kv 5 "e"]));
      try reflexivity; [|vm_compute; discriminate].
    apply (taken_here 2 4 (PyStr "d") (leaf2 [kv 3 "c"; kv 4 "d"; kv 5 "e"]));
      try reflexivity. vm_compute; discriminate. }
  destruct (delete_from_leaf_with_room tree_1_to_5 4 (PyStr "d") _
              eq_refl eq_refl eq_refl Htaken) as (Hdel & _ & Hsearch & _).
  split; [exact Hdel | exact Hsearch].
Defined.

(** *** Removal from a non-leaf node *)

Lemma leftmost_eq (n : BTreeNode) :
  leftmost n
  = if is_leaf n then n
    else match children n with
         | [] => n
         | c :: _ => leftmost c
         end.
Proof. destruct n as [t leaf kvs cs]. destruct cs; reflexivity. Qed.

(** The walk to the successor ends where [leftmost] says, within the
    height of the subtree. *)
Lemma leftmost_descent_ends (fuel : nat) :
  forall n, (height n <= S fuel)%nat -> leftmost_descent fuel n = Ok (leftmost n).
Proof.
  unfold leftmost_descent.
  induction fuel as [|fuel IH]; intros n Hh; rewrite leftmost_eq; cbn [while_].
  - destruct (is_leaf n); cbn [negb andb]; [reflexivity|].
    destruct (children n) as [|c cs] eqn:Hcs; [reflexivity|].
    exfalso. pose proof (height_child n c) as Hc. rewrite Hcs in Hc.
    specialize (Hc (or_introl eq_refl)). pose proof (height_pos c). lia.
  - destruct (is_leaf n); cbn [negb andb]; [reflexivity|].
    destruct (children n) as [|c cs] eqn:Hcs; [reflexivity|].
    assert (Hnz : (len (c :: cs) =? 0) = false).
    { apply Z.eqb_neq. rewrite len_cons. pose proof (len_nonneg cs). lia. }
    rewrite Hnz. cbn [negb].
    assert (Hget : get_child n 0 = Ok c).
    { unfold get_child. rewrite Hcs. reflexivity. }
    rewrite Hget. cbn [bind]. apply IH.
    pose proof (height_child n c) as Hc. rewrite Hcs in Hc.
    specialize (Hc (or_introl eq_refl)). lia.
Qed.

(** A round of [_delete_from_node] in a non-leaf node that holds the key
    and has a successor: the entry is taken out, then
    [current.insert_key_value] raises. *)
Lemma _delete_from_node_inner_hit (fuel : nat) (t : Z) (k : K) (v : V)
  (n c : BTreeNode) (sz : Z) :
  0 <= find_key_index n k ->
  fits_ssize (find_key_index n k) = true ->
  is_leaf n = false ->
  get_value n (find_key_index n k) = Ok v ->
  get_child n (find_key_index n k + 1) = Ok c ->
  0 < node_len (leftmost c) ->
  (height c <= S fuel)%nat ->
  _delete_from_node (S fuel) t k (n, sz)
  = ((without_entry (find_key_index n k) n, sz), Raise TypeError).
Proof.
  intros Hhit Hfit Hleaf Hget Hchild Hsucc Hh.
  destruct (remove_found_entry n k v Hhit Hfit Hget) as [Hrm _].
  cbn [_delete_from_node]. unfold and_then at 1. unfold this at 1.
  cbn [fst snd].
  destruct (Z.geb_spec (find_key_index n k) 0) as [_|]; [|lia].
  rewrite Hleaf.
  unfold and_then at 1. unfold on_node at 1, read at 1. cbn [fst snd].
  rewrite Hget.
  unfold and_then at 1. unfold on_node at 1, read at 1. cbn [fst snd].
  rewrite Hchild.
  unfold and_then at 1. unfold expr at 1.
  rewrite (leftmost_descent_ends fuel c Hh).
  destruct (Z.gtb_spec (node_len (leftmost c)) 0) as [_|]; [|lia].
  assert (Hr : 0 <= 0 < len (key_value_pairs (leftmost c)))
    by (unfold node_len in Hsucc; lia).
  destruct (py_getitem_in_range _ _ Hr) as (p & Hp & _).
  unfold and_then at 1. unfold expr at 1.
  unfold get_key at 1, get_key_value_pair at 1. rewrite Hp. cbn [bind].
  unfold and_then at 1. unfold expr at 1.
  unfold get_value at 1, get_key_value_pair at 1. rewrite Hp. cbn [bind].
  unfold and_then at 1. unfold on_node at 1, store at 1. cbn [fst snd].
  rewrite Hrm. cbn [fst snd].
  unfold and_then at 1. unfold on_node at 1, store_ at 1. cbn [fst snd].
  rewrite insert_key_value_raises. reflexivity.
Qed.

Lemma lost_from_inner_runs (k : K) (v : V) (n n' : BTreeNode) :
  lost_from_inner k v n n' ->
  forall (fuel : nat) (t : Z) (sz : Z),
    (height n <= fuel)%nat ->
    _delete_from_node fuel t k (n, sz) = ((n', sz), Raise TypeError).
Proof.
  induction 1 as [n c Hhit Hfit Hleaf Hget Hchild Hsucc
                 | n i child child' Hmiss Hleaf Hi Hc Hlost IH];
    intros fuel t sz Hfuel;
    (destruct fuel as [|fuel]; [pose proof (height_pos n); lia|]).
  - apply (_delete_from_node_inner_hit fuel t k v n c sz); try assumption.
    pose proof (height_child n c (py_getitem_In _ _ _ Hchild)). lia.
  - rewrite (_delete_from_node_miss _ _ _ _ _ Hmiss), Hleaf.
    unfold and_then at 1.
    rewrite (at_child_sized_parts _ _ _ _ _ _ Hi Hc).
    assert (Hh : (height child <= fuel)%nat).
    { pose proof (height_child n child (nth_error_In _ _ Hc)). lia. }
    rewrite (IH fuel t sz Hh). reflexivity.
Qed.

Lemma lost_from_inner_pairs (k : K) (v : V) (n n' : BTreeNode) :
  lost_from_inner k v n n' ->
  exists l1 l2,
    subtree_pairs n = l1 ++ mkPair k v :: l2 /\ subtree_pairs n' = l1 ++ l2.
Proof.
  induction 1 as [n c Hhit Hfit Hleaf Hget Hchild Hsucc
                 | n i child child' Hmiss Hleaf Hi Hc Hlost IH].
  - destruct (remove_found_entry n k v Hhit Hfit Hget) as [_ Hnth].
    destruct (nth_error_split _ _ Hnth) as (l1 & l2 & Hl & Hlen).
    exists l1, (l2 ++ flat_map subtree_pairs (children n)).
    rewrite !subtree_pairs_eq. unfold without_entry, set_pairs.
    cbn [key_value_pairs children].
    rewrite <- Hlen, (without_split _ _ _ _ Hl), Hl.
    rewrite <- !app_assoc. split; reflexivity.
  - destruct IH as (l1 & l2 & Hbefore & Hafter).
    exists (key_value_pairs n
            ++ flat_map subtree_pairs (firstn i (children n)) ++ l1),
           (l2 ++ flat_map subtree_pairs (skipn (S i) (children n))).
    rewrite !subtree_pairs_eq. unfold set_children.
    cbn [key_value_pairs children]. split.
    + rewrite <- (replaced_same _ _ _ Hc) at 1.
      rewrite flat_map_app. cbn [flat_map]. rewrite Hbefore.
      rewrite <- !app_assoc. reflexivity.
    + rewrite flat_map_app. cbn [flat_map]. rewrite Hafter.
      rewrite <- !app_assoc. reflexivity.
Qed.

(** X19.  Deleting a key that a non-leaf node holds loses its entry.  Let
    the descent for [k] end in a non-leaf node that binds [k] to [v] and
    whose successor leaf holds an entry.  On a tree whose size is not 0,
    [delete(k)] takes the entry out of that node and then raises TypeError
    (from [current.insert_key_value], which is to put the successor in its
    place): the pair is gone from the tree, the other pairs stay, the
    successor is still in its leaf, and the size is what it was, one more
    than the number of entries if it was exact before. *)
Theorem delete_from_inner_node_loses_the_entry
  (tr : BTreeIndex) (k : K) (v : V) (n' : BTreeNode) :
  is_empty tr = false ->
  lost_from_inner k v (root tr) n' ->
  delete k tr = (mkIndex (index_min_degree tr) n' (size tr), Raise TypeError) /\
  (exists l1 l2,
     subtree_pairs (root tr) = l1 ++ mkPair k v :: l2 /\
     subtree_pairs n' = l1 ++ l2) /\
  (Invariants.size_exact tr = true ->
   size tr = len (Invariants.subtree_keys n') + 1).
Proof.
  intros Hempty Hlost.
  pose proof (lost_from_inner_pairs _ _ _ _ Hlost) as Hpairs.
  split; [|split; [exact Hpairs|]].
  - unfold delete. unfold and_then at 1. unfold this at 1. rewrite Hempty.
    unfold and_then at 1. unfold on_root at 1.
    rewrite (lost_from_inner_runs _ _ _ _ Hlost (height (root tr))
               (index_min_degree tr) (size tr) (Nat.le_refl _)).
    reflexivity.
  - intros Hexact. unfold Invariants.size_exact in Hexact.
    apply Z.eqb_eq in Hexact. rewrite Hexact.
    destruct Hpairs as (l1 & l2 & Hb & Ha).
    rewrite !subtree_keys_of_pairs, Hb, Ha. unfold len.
    rewrite !length_map, !length_app. cbn [length]. lia.
Qed.

(** On [tree_1_to_5], [delete(2)] takes 2 out of the root and raises: four
    entries are left under a size of 5. *)
Lemma delete_from_inner_node_loses_the_entry_witness :
  delete 2 tree_1_to_5
  = (mkIndex 2
       (inner2 [] [leaf2 [kv 1 "a"]; leaf2 [kv 3 "c"; kv 4 "d"; kv 5 "e"]]) 5,
     Raise TypeError).
Proof.
  assert (Hlost : lost_from_inner 2 (PyStr "b") (root tree_1_to_5)
                    (inner2 []
                       [leaf2 [kv 1 "a"]; leaf2 [kv 3 "c"; kv 4 "d"; kv 5 "e"]])).
  { apply (lost_here 2 (PyStr "b") (root tree_1_to_5)
             (leaf2 [kv 3 "c"; kv 4 "d"; kv 5 "e"])); try reflexivity;
      vm_compute; discriminate. }
  exact (proj1 (delete_from_inner_node_loses_the_entry tree_1_to_5 2 (PyStr "b") _
                  eq_refl Hlost)).
Defined.

(** *** Removal that calls for a repair *)

Lemma check_underflow_short (t : Z) (index : Z) (current child : BTreeNode) :
  0 <= index ->
  get_child current index = Ok child ->
  node_len child < t - 1 ->
  check_underflow t index current = _fix_underflow t index current.
Proof.
  intros Hidx Hget Hlen.
  destruct (get_child_nonneg_inv current index child Hidx Hget) as (Hlt & _ & _).
  unfold check_underflow. unfold and_then at 1. unfold this at 1.
  destruct (Z.ltb_spec index (len (children current))) as [_|]; [|lia].
  unfold and_then at 1. unfold read at 1. rewrite Hget.
  destruct (Z.ltb_spec (node_len child) (t - 1)) as [_|]; [|lia].
  reflexivity.
Qed.

Lemma taken_out_some (a : RepairAction) (child_index : Z)
  (parent after : BTreeNode) :
  taken_out a child_index parent = Some after ->
  0 <= separator_index a child_index < node_len parent /\
  0 <= sibling_index a child_index < len (children parent).
Proof.
  unfold taken_out.
  destruct (Z.leb_spec 0 (separator_index a child_index));
    destruct (Z.ltb_spec (separator_index a child_index) (node_len parent));
    destruct (Z.leb_spec 0 (sibling_index a child_index));
    destruct (Z.ltb_spec (sibling_index a child_index) (len (children parent)));
    cbn [andb]; try discriminate.
  intros _. lia.
Qed.

Lemma repair_begun_runs (t : Z) (k : K) (v : V) (n n' : BTreeNode) :
  repair_begun t k v n n' ->
  forall (fuel : nat) (sz : Z),
    (height n <= fuel)%nat ->
    _delete_from_node fuel t k (n, sz) = ((n', sz - 1), Raise TypeError).
Proof.
  induction 1 as [n i child child' shortened after Hmiss Hleaf Hi Hc Htaken
                    Hshort Hshortened Hhold Hout
                 | n i child child' Hmiss Hleaf Hi Hc Hbegun IH];
    intros fuel sz Hfuel;
    (destruct fuel as [|fuel]; [pose proof (height_pos n); lia|]);
    rewrite (_delete_from_node_miss _ _ _ _ _ Hmiss), Hleaf;
    unfold and_then at 1;
    rewrite (at_child_sized_parts _ _ _ _ _ _ Hi Hc);
    assert (Hh : (height child <= fuel)%nat)
      by (pose proof (height_child n child (nth_error_In _ _ Hc)); lia).
  - rewrite (taken_from_leaf_runs _ _ _ _ _ Htaken fuel sz Hh). cbn [fst snd].
    rewrite <- Hshortened.
    pose proof (py_index_bound _ _ _ Hi) as Hlt.
    assert (Hget : get_child shortened (get_child_index n k) = Ok child').
    { apply (get_child_of_parts _ _ i); subst shortened;
        unfold set_children; cbn [children].
      - rewrite (py_index_same_length (children n)); [exact Hi|].
        apply length_replaced. exact Hlt.
      - apply nth_error_replaced. exact Hlt. }
    pose proof (get_child_index_nonneg n k) as Hidx.
    destruct (taken_out_some _ _ _ _ Hout) as [Hsep Hsib].
    destruct (_fix_underflow_outcome t shortened child' (get_child_index n k)
                Hidx Hget Hshort Hsep Hsib Hhold) as (after' & Hout' & Hrun).
    assert (after' = after) as -> by congruence.
    unfold and_then, on_node. cbn [fst snd].
    rewrite (check_underflow_short t _ _ child' Hidx Hget Hshort), Hrun.
    reflexivity.
  - rewrite (IH fuel sz Hh). reflexivity.
Qed.

(** X20.  Deleting from a leaf at the minimum ends in the repair.  Let the
    descent for [k] end in a leaf that binds [k] to [v], let a node on
    the path be left with fewer than [t-1] entries once the entry is taken
    out, and let its parent hold the sibling and the separator of the
    repair that the priority order designates.  On a tree whose size is
    not 0, [delete(k)] takes the entry of [k] out, lowers the size by one,
    starts that repair and raises TypeError: the entries the repair takes
    out (the separator, and for a borrow the sibling's entry next to the
    node) are stored nowhere afterwards. *)
Theorem delete_at_minimum_stops_in_repair
  (tr : BTreeIndex) (k : K) (v : V) (n' : BTreeNode) :
  is_empty tr = false ->
  repair_begun (index_min_degree tr) k v (root tr) n' ->
  delete k tr
  = (mkIndex (index_min_degree tr) n' (size tr - 1), Raise TypeError).
Proof.
  intros Hempty Hbegun.
  unfold delete. unfold and_then at 1. unfold this at 1. rewrite Hempty.
  unfold and_then at 1. unfold on_root at 1.
  rewrite (repair_begun_runs _ _ _ _ _ Hbegun (height (root tr)) (size tr)
             (Nat.le_refl _)).
  reflexivity.
Qed.

(** On [tree_1_to_5], [delete(1)] empties the left leaf; the repair
    borrows from the right leaf [3, 4, 5], takes the separator 2 and the
    entry 3 out, and raises: of five entries three are left, under a size
    of 4. *)
Lemma delete_at_minimum_stops_in_repair_witness :
  delete 1 tree_1_to_5
  = (mkIndex 2 (inner2 [] [leaf2 []; leaf2 [kv 4 "d"; kv 5 "e"]]) 4,
     Raise TypeError).
Proof.
  assert (Hbegun : repair_begun (index_min_degree tree_1_to_5) 1 (PyStr "a")
                     (root tree_1_to_5)
                     (inner2 [] [leaf2 []; leaf2 [kv 4 "d"; kv 5 "e"]])).
  { apply (repair_here 2 1 (PyStr "a") (root tree_1_to_5) 0
             (leaf2 [kv 1 "a"]) (leaf2 [])
             (inner2 [kv 2 "b"] [leaf2 []; leaf2 [kv 3 "c"; kv 4 "d"; kv 5 "e"]]));
      try reflexivity.
    apply (taken_here 2 1 (PyStr "a") (leaf2 [kv 1 "a"])); reflexivity. }
  exact (delete_at_minimum_stops_in_repair tree_1_to_5 1 (PyStr "a") _
           eq_refl Hbegun).
Defined.
